(** * Visuomind: the data analysis and chart recommendation engine

  A shallow embedding of the analytical core of the dashboard
  ([ChartValidator], [DataProcessor] and [RecommendationEngine]) and the
  properties its specification states about it.

  JavaScript numbers are IEEE-754 binary64 values: they are embedded as
  Rocq's primitive [float]s, whose operations are the same binary64
  operations (round to nearest, ties to even), so that every definition
  below evaluates as the source does, NaN, infinities and rounding
  included. Array lengths and counts are natural numbers. *)

From Stdlib Require Import ZArith Lia Bool List String Ascii.
From Stdlib Require Import Floats Uint63 Decimal DecimalString.
From Stdlib Require Import Permutation Sorted.
Import ListNotations.

Set Warnings "-inexact-float".

Local Open Scope string_scope.
Local Open Scope list_scope.

(** ** The host language *)

Module JS.

(** The cells of a row: what the loaders and [parseValue] leave in a
    record. A [Date] is represented by its time value. *)
Inductive value : Type :=
| VUndefined
| VNull
| VNum (f : float)
| VStr (s : string)
| VDate (t : float).

(** [v === undefined || v === null] *)
Definition nullish (v : value) : bool :=
  match v with
  | VUndefined | VNull => true
  | _ => false
  end.

(** Conversions whose result is fixed by the host (number formatting,
    the numeric reading of a string, the local rendering of a date). *)
Class Host : Type := {
  number_to_string : float -> string;
  string_to_number : string -> float;
  date_to_string : float -> string;
  to_fixed : nat -> float -> string
}.

Section Conversions.
Context {host : Host}.

(** [String(v)], as applied to a value used as a property key. *)
Definition to_string (v : value) : string :=
  match v with
  | VUndefined => "undefined"
  | VNull => "null"
  | VNum f => number_to_string f
  | VStr s => s
  | VDate t => date_to_string t
  end.

(** [Number(v)] *)
Definition to_number (v : value) : float :=
  match v with
  | VUndefined => nan
  | VNull => 0%float
  | VNum f => f
  | VStr s => string_to_number s
  | VDate t => t
  end.
End Conversions.

(** The numeric reading of a cell of a number-typed column inside an
    arithmetic expression ([a + b], [x - mean]). [parseValue] leaves only
    numbers and [null] in such a column; [null] reads as [0] and a missing
    cell as NaN. A string or [Date] cell, which would make [+] concatenate,
    is outside this reading and is given NaN. *)
Definition cell_number (v : value) : float :=
  match v with
  | VNum f => f
  | VNull => 0%float
  | _ => nan
  end.

(** An array length as a number. *)
Definition num_of_nat (n : nat) : float :=
  PrimFloat.of_uint63 (Uint63.of_Z (Z.of_nat n)).

(** The decimal rendering of a count inside a template literal. *)
Definition nat_to_string (n : nat) : string :=
  NilEmpty.string_of_uint (Nat.to_uint n).

(** *** Plain objects used as string-keyed maps

    The own properties of an object, in creation order. *)
Definition obj (A : Type) : Type := list (string * A).

Section Objects.
Context {A : Type}.

Fixpoint own_get (o : obj A) (k : string) : option A :=
  match o with
  | [] => None
  | (k', a) :: o' => if String.eqb k' k then Some a else own_get o' k
  end.

(** [o[k] = a]: an existing property keeps its place. *)
Fixpoint obj_set (o : obj A) (k : string) (a : A) : obj A :=
  match o with
  | [] => [(k, a)]
  | (k', a') :: o' =>
      if String.eqb k' k then (k', a) :: o' else (k', a') :: obj_set o' k a
  end.

Definition keys (o : obj A) : list string := map fst o.
End Objects.

(** The names every plain object inherits from [Object.prototype]; each
    of them reads as a function or an object, hence as a truthy value
    without the array methods. *)
Definition inherited_names : list string :=
  [ "constructor"; "hasOwnProperty"; "isPrototypeOf";
    "propertyIsEnumerable"; "toLocaleString"; "toString"; "valueOf";
    "__proto__"; "__defineGetter__"; "__defineSetter__";
    "__lookupGetter__"; "__lookupSetter__" ].

Definition inherited (k : string) : bool :=
  existsb (String.eqb k) inherited_names.

(** *** Property order

    [Object.entries] lists the array-index keys first, in ascending
    numeric order, then the other string keys in creation order. An array
    index is the canonical decimal form of an integer below [2^32 - 1]. *)
Definition digit_of (c : ascii) : option N :=
  let n := N_of_ascii c in
  if ((48 <=? n) && (n <=? 57))%N then Some (n - 48)%N else None.

Fixpoint parse_digits (s : string) (acc : N) : option N :=
  match s with
  | EmptyString => Some acc
  | String c s' =>
      match digit_of c with
      | Some d => parse_digits s' (10 * acc + d)%N
      | None => None
      end
  end.

Definition array_index (s : string) : option N :=
  match s with
  | EmptyString => None
  | String c s' =>
      if (Ascii.eqb c "0" && negb (String.eqb s' ""))%bool then None
        else match parse_digits s 0%N with
           | Some n => if (n <? 4294967295)%N then Some n else None
           | None => None
           end
  end.

Definition is_index (s : string) : bool :=
  match array_index s with Some _ => true | None => false end.

Definition index_of (s : string) : N :=
  match array_index s with Some n => n | None => 0%N end.

Section Entries.
Context {A : Type}.

Fixpoint insert_index (kv : string * A) (l : list (string * A)) : list (string * A) :=
  match l with
  | [] => [kv]
  | kv' :: l' =>
      if (index_of (fst kv) <? index_of (fst kv'))%N then kv :: l
      else kv' :: insert_index kv l'
  end.

Definition sort_index (l : list (string * A)) : list (string * A) :=
  fold_right insert_index [] l.

Definition entries (o : obj A) : list (string * A) :=
  sort_index (filter (fun kv => is_index (fst kv)) o)
  ++ filter (fun kv => negb (is_index (fst kv))) o.
End Entries.

(** *** [Array.prototype.sort]

    The sort is stable, and with a consistent comparator its result is
    the one stable arrangement: [x] goes after [e] exactly when
    [cmp x e > 0]. It is written as the insertion of each element, from
    the last to the first, in front of the elements it does not have to
    follow. (With an inconsistent comparator, one that answers NaN for
    instance, the standard leaves the order to the engine; the model then
    gives the order of this insertion.) *)
Section Sort.
Context {A : Type}.
Variable cmp : A -> A -> float.

Fixpoint insert (x : A) (l : list A) : list A :=
  match l with
  | [] => [x]
  | e :: l' => if (0 <? cmp x e)%float then e :: insert x l' else x :: l
  end.

Fixpoint sort (l : list A) : list A :=
  match l with
  | [] => []
  | x :: l' => insert x (sort l')
  end.
End Sort.

(** *** [Math] *)

(** [Math.min] and [Math.max] of two numbers: NaN is contagious and
    [-0] is below [+0]. *)
Definition min2 (a b : float) : float :=
  if (is_nan a || is_nan b)%bool then nan
  else if (a <? b)%float then a
  else if (b <? a)%float then b
  else if get_sign a then a else b.

Definition max2 (a b : float) : float :=
  if (is_nan a || is_nan b)%bool then nan
  else if (a <? b)%float then b
  else if (b <? a)%float then a
  else if get_sign a then b else a.

(** [Math.min(...l)] and [Math.max(...l)] *)
Definition math_min (l : list float) : float := fold_left min2 l infinity.
Definition math_max (l : list float) : float := fold_left max2 l neg_infinity.

(** [l.reduce((a, b) => a + b, 0)] *)
Definition sum (l : list float) : float := fold_left PrimFloat.add l 0%float.

(** The median as both [calculateStats] and [aggregateData] take it from
    a sorted array: the middle element, or the mean of the two middle
    ones. A read outside the array is [undefined], NaN in the sum. *)
Definition middle (sorted : list float) : float :=
  let mid := Nat.div (List.length sorted) 2 in
  if Nat.odd (List.length sorted) then nth mid sorted nan
  else ((nth (mid - 1) sorted nan + nth mid sorted nan) / 2)%float.

End JS.

(** ** The data model *)

(** [stats.min] and [stats.max]: numbers for a numeric column, [Date]s
    (given by their time value) for a date column. *)
Inductive bound : Type :=
| BNum (f : float)
| BDate (t : float).

(** [ColumnStats]: every field but [nullCount] may be absent. *)
Module Stats.
Record t : Type := {
  min : option bound;
  max : option bound;
  mean : option float;
  median : option float;
  sum : option float;
  stdDev : option float;
  variance : option float;
  uniqueCount : option nat;
  top : option (list (string * option nat));
  nullCount : nat
}.

(** [{ nullCount }] *)
Definition empty (nulls : nat) : t :=
  {| min := None; max := None; mean := None; median := None; sum := None;
     stdDev := None; variance := None; uniqueCount := None; top := None;
     nullCount := nulls |}.
End Stats.

(** [ColumnMetadata & { stats }] *)
Module Column.
Record t : Type := {
  key : string;
  type : string;
  label : string;
  stats : Stats.t
}.
End Column.

(** A row: a record from column name to cell. A missing cell reads as
    [undefined]. *)
Definition row : Type := JS.obj JS.value.

Definition cell (r : row) (col : string) : JS.value :=
  match JS.own_get r col with
  | Some v => v
  | None => JS.VUndefined
  end.

(** ** ChartValidator *)

Module ChartValidator.

Inductive Severity : Type := BLOCK | WARN | AUTO_FIX.

Record ValidationResult : Type := {
  valid : bool;
  severity : option Severity;
  reason : option string;
  suggestedType : option string
}.

(** [{ valid: true }] *)
Definition accepted : ValidationResult :=
  {| valid := true; severity := None; reason := None; suggestedType := None |}.

Definition blocked (why : string) : ValidationResult :=
  {| valid := false; severity := Some BLOCK; reason := Some why;
     suggestedType := None |}.

Definition auto_fixed (why suggested : string) : ValidationResult :=
  {| valid := false; severity := Some AUTO_FIX; reason := Some why;
     suggestedType := Some suggested |}.

Definition warned (why : string) : ValidationResult :=
  {| valid := true; severity := Some WARN; reason := Some why;
     suggestedType := None |}.

(** [xCol.stats.uniqueCount || 0] *)
Definition uniqueX (xCol : Column.t) : nat :=
  match Stats.uniqueCount (Column.stats xCol) with
  | Some n => n
  | None => 0
  end.

(** [yCol.stats.min < 0]; an absent [min] compares as NaN, a [Date] by its
    time value. *)
Definition hasNegatives (yCol : Column.t) : bool :=
  match Stats.min (Column.stats yCol) with
  | Some (BNum f) => (f <? 0)%float
  | Some (BDate t) => (t <? 0)%float
  | None => false
  end.

Definition isNumeric (c : Column.t) : bool := String.eqb (Column.type c) "number".

Definition validateChart (type : string) (xCol yCol : option Column.t)
  : ValidationResult :=
  match xCol, yCol with
  | Some xCol, Some yCol =>
      let uniqueX := uniqueX xCol in
      let isXNumeric := isNumeric xCol in
      let isYNumeric := isNumeric yCol in
      let hasNegatives := hasNegatives yCol in
      if isXNumeric && isYNumeric then
        if negb (String.eqb type "scatter") then
          auto_fixed "Both axes are numeric. Switching to Scatter Plot." "scatter"
        else accepted
      else if String.eqb type "scatter" && (negb isXNumeric || negb isYNumeric) then
        blocked "Scatter plots require both axes to be numeric."
      else if String.eqb type "pie" || String.eqb type "doughnut" then
        if isXNumeric then blocked "Pie charts require a categorical X-axis."
        else if hasNegatives then blocked "Pie charts cannot display negative values."
        else if (6 <? uniqueX)%nat then
          blocked ("Too many slices (" ++ JS.nat_to_string uniqueX ++ " > 6).")
        else accepted
      else if String.eqb type "bar" then
        if isXNumeric && (20 <? uniqueX)%nat then
          auto_fixed "Continuous numeric X-axis. Switching to Scatter." "scatter"
        else if (20 <? uniqueX)%nat then
          warned ("High cardinality (" ++ JS.nat_to_string uniqueX
                  ++ "). Will show Top 20 items.")
        else accepted
      else if String.eqb type "line" then
        if negb (String.eqb (Column.type xCol) "date") && negb isXNumeric then
          blocked "Line charts require Date or Numeric X-axis for trends."
        else accepted
      else accepted
  | _, _ => blocked "Select axes first"
  end.

(** [{ type, aggregation }]; [aggregation] may be [null]. *)
Record SmartConfig : Type := {
  chartType : string;
  aggregation : option string
}.

Definition suggestSmartConfig (xCol yCol : option Column.t) : option SmartConfig :=
  match xCol, yCol with
  | Some xCol, Some yCol =>
      if String.eqb (Column.type xCol) "number" && String.eqb (Column.type yCol) "number"
      then Some {| chartType := "scatter"; aggregation := None |}
      else if String.eqb (Column.type xCol) "date" && String.eqb (Column.type yCol) "number"
      then Some {| chartType := "line"; aggregation := Some "mean" |}
      else if negb (String.eqb (Column.type xCol) "number")
              && String.eqb (Column.type yCol) "number"
      then Some {| chartType := "bar"; aggregation := Some "mean" |}
      else None
  | _, _ => None
  end.

End ChartValidator.

(** ** DataProcessor *)

(** What a call comes to: a returned value or a thrown [TypeError]. *)
Inductive outcome (A : Type) : Type :=
| Returns (a : A)
| Throws (error : string).
Arguments Returns {A} a.
Arguments Throws {A} error.

(** The state of a loop fed with finitely many random draws: finished with
    a value, or still running when the draws are used up. *)
Inductive run (A : Type) : Type :=
| Done (a : A)
| Running.
Arguments Done {A} a.
Arguments Running {A}.

Module DataProcessor.
Import JS.

(** [Math.pow(x, 2)] *)
Definition square (x : float) : float := (x * x)%float.

(** [d.getTime()] on the cells of a date column, which [parseValue] leaves
    as [Date]s or [null]; another cell, on which the call would fail, reads
    as NaN. *)
Definition getTime (v : value) : float :=
  match v with
  | VDate t => t
  | _ => nan
  end.

(** [counts[v] = (counts[v] || 0) + 1] on the object [counts = {}]. A count
    is [Some n]; [None] stands for the string that [+ 1] makes of an
    inherited property or of an earlier such string. [__proto__] is never
    created by an assignment of a primitive. *)
Definition tally (counts : obj (option nat)) (k : string) : obj (option nat) :=
  match own_get counts k with
  | Some (Some n) => obj_set counts k (Some (S n))
  | Some None => obj_set counts k None
  | None =>
      if String.eqb k "__proto__" then counts
      else if inherited k then obj_set counts k None
      else obj_set counts k (Some 1)
  end.

Definition count_number (c : option nat) : float :=
  match c with
  | Some n => num_of_nat n
  | None => nan
  end.

Section WithHost.
Context {host : Host}.

Definition calculateStats (values : list value) (type : string) : Stats.t :=
  let validValues := filter (fun v => negb (nullish v)) values in
  let nullCount := List.length values - List.length validValues in
  if (List.length validValues =? 0)%nat then Stats.empty nullCount
  else if String.eqb type "number" then
    let nums := map cell_number validValues in
    let n := num_of_nat (List.length validValues) in
    let min := math_min nums in
    let max := math_max nums in
    let sum := JS.sum nums in
    let mean := (sum / n)%float in
    let sorted := sort (fun a b => (a - b)%float) nums in
    let median := middle sorted in
    let variance :=
      (fold_left (fun acc val => (acc + square (val - mean))%float) nums 0
       / n)%float in
    let stdDev := PrimFloat.sqrt variance in
    {| Stats.min := Some (BNum min); Stats.max := Some (BNum max);
       Stats.mean := Some mean; Stats.median := Some median;
       Stats.sum := Some sum; Stats.stdDev := Some stdDev;
       Stats.variance := Some variance; Stats.uniqueCount := None;
       Stats.top := None; Stats.nullCount := nullCount |}
  else if String.eqb type "category" || String.eqb type "text" then
    let counts := fold_left (fun c v => tally c (to_string v)) validValues [] in
    let sorted :=
      sort (fun a b => (count_number (snd b) - count_number (snd a))%float)
           (entries counts) in
    let top := firstn 10 sorted in
    let uniqueCount := List.length sorted in
    {| Stats.min := None; Stats.max := None; Stats.mean := None;
       Stats.median := None; Stats.sum := None; Stats.stdDev := None;
       Stats.variance := None; Stats.uniqueCount := Some uniqueCount;
       Stats.top := Some top; Stats.nullCount := nullCount |}
  else if String.eqb type "date" then
    let timestamps := map getTime validValues in
    {| Stats.min := Some (BDate (math_min timestamps));
       Stats.max := Some (BDate (math_max timestamps));
       Stats.mean := None; Stats.median := None; Stats.sum := None;
       Stats.stdDev := None; Stats.variance := None;
       Stats.uniqueCount := None; Stats.top := None;
       Stats.nullCount := nullCount |}
  else Stats.empty nullCount.

(** Step 4 of [processData]: the metadata of a column, completed with the
    statistics of its cleaned cells. *)
Definition processData_column (key type label : string) (values : list value)
  : Column.t :=
  {| Column.key := key; Column.type := type; Column.label := label;
     Column.stats := calculateStats values type |}.

End WithHost.

Definition calculateCorrelation (xValues yValues : list float) : float :=
  let n := List.length xValues in
  if negb (n =? List.length yValues)%nat || (n =? 0)%nat then 0%float
  else
    let xMean := (JS.sum xValues / num_of_nat n)%float in
    let yMean := (JS.sum yValues / num_of_nat n)%float in
    let '(numerator, xDenom, yDenom) :=
      fold_left
        (fun '(numerator, xDenom, yDenom) '(x, y) =>
           let xDiff := (x - xMean)%float in
           let yDiff := (y - yMean)%float in
           ((numerator + xDiff * yDiff)%float,
            (xDenom + xDiff * xDiff)%float,
            (yDenom + yDiff * yDiff)%float))
        (combine xValues yValues) (0%float, 0%float, 0%float) in
    let denominator := PrimFloat.sqrt (xDenom * yDenom) in
    if (denominator =? 0)%float then 0%float
    else (numerator / denominator)%float.

Section WithHost.
Context {host : Host}.

(** [if (!groups[key]) groups[key] = []; groups[key].push(v)] on the object
    [groups = {}]: an inherited name reads as a truthy value that has no
    [push]. *)
Definition push_group (groups : obj (list float)) (key : string) (v : float)
  : outcome (obj (list float)) :=
  match own_get groups key with
  | Some values => Returns (obj_set groups key (values ++ [v]))
  | None =>
      if inherited key then Throws "TypeError: groups[key].push is not a function"
      else Returns (obj_set groups key [v])
  end.

Definition group_row (groupByCol metricCol : string)
  (acc : outcome (obj (list float))) (r : row) : outcome (obj (list float)) :=
  match acc with
  | Returns groups =>
      let key := cell r groupByCol in
      let val := cell r metricCol in
      if nullish key || nullish val then Returns groups
      else push_group groups (to_string key) (to_number val)
  | Throws e => Throws e
  end.

Definition aggregate (method : string) (values : list float) : float :=
  if String.eqb method "count" then num_of_nat (List.length values)
  else if String.eqb method "sum" then JS.sum values
  else if String.eqb method "mean" then
    (JS.sum values / num_of_nat (List.length values))%float
  else if String.eqb method "median" then
    middle (sort (fun a b => (a - b)%float) values)
  else 0%float.

(** [{ [groupByCol]: key, [metricCol]: value }] *)
Definition entry (groupByCol metricCol key : string) (value : float) : row :=
  obj_set (obj_set [] groupByCol (VStr key)) metricCol (VNum value).

(** [a[metricCol]] as a number *)
Definition metric (metricCol : string) (a : row) : float :=
  to_number (cell a metricCol).

(** The object [groups] after the [forEach]. *)
Definition grouped (data : list row) (groupByCol metricCol : string)
  : outcome (obj (list float)) :=
  fold_left (group_row groupByCol metricCol) data (Returns []).

(** The array [result] before it is sorted. *)
Definition summarised (groups : obj (list float))
  (groupByCol metricCol method : string) : list row :=
  map (fun '(key, values) =>
         entry groupByCol metricCol key (aggregate method values))
      (entries groups).

Definition aggregateData (data : list row) (groupByCol metricCol method : string)
  (limit : option Z) : outcome (list row) :=
  match grouped data groupByCol metricCol with
  | Returns groups =>
      let result := summarised groups groupByCol metricCol method in
      let result :=
        sort (fun a b => (metric metricCol b - metric metricCol a)%float) result in
      match limit with
      | Some limit =>
          if ((0 <? limit) && (limit <? Z.of_nat (List.length result)))%Z
          then Returns (firstn (Z.to_nat limit) result)
          else Returns result
      | None => Returns result
      end
  | Throws e => Throws e
  end.

End WithHost.

(** [sampleData]: [draws] are the successive values of
    [Math.floor(Math.random() * total)]. The set [indices] keeps its
    members in the order of their first insertion. *)
Section Sampling.
Context {A : Type}.
Variable undefined : A.

Definition set_add (i : nat) (indices : list nat) : list nat :=
  if existsb (Nat.eqb i) indices then indices else indices ++ [i].

Fixpoint draw (limit : nat) (indices : list nat) (draws : list nat)
  : option (list nat) :=
  if (List.length indices <? limit)%nat then
    match draws with
    | idx :: draws' => draw limit (set_add idx indices) draws'
    | [] => None
    end
  else Some indices.

Definition sampleData (data : option (list A)) (limit : nat) (draws : list nat)
  : run (option (list A)) :=
  match data with
  | None => Done None
  | Some rows =>
      if (List.length rows <=? limit)%nat then Done data
      else
        let total := List.length rows in
        if (total <=? limit)%nat then Done data
        else
          match draw limit [] draws with
          | Some indices => Done (Some (map (fun i => nth i rows undefined) indices))
          | None => Running
          end
  end.

End Sampling.

End DataProcessor.

(** ** DataProcessor: from the raw rows to the typed columns

    [processData] and its helpers. A cell is read as [cell] reads it, and
    written as [obj_set] writes it: as the code does for every column name
    that is not a name all objects inherit ([toString], [__proto__], ...),
    for which a missing cell would read as the inherited property. *)

Module Ingest.
Import JS DataProcessor.

(** What the host decides when it reads text: [parseFloat], [Date.parse],
    the [TimeClip] of a time value on the construction of a [Date], and
    [toUpperCase] on a string of one character. *)
Class Reader : Type := {
  parseFloat : string -> float;
  Date_parse : string -> float;
  TimeClip : float -> float;
  toUpperCase : ascii -> string
}.

(** *** Regular expressions on strings *)

Fixpoint keep (f : ascii -> bool) (s : string) : string :=
  match s with
  | EmptyString => EmptyString
  | String c s' => if f c then String c (keep f s') else keep f s'
  end.

Fixpoint test (f : ascii -> bool) (s : string) : bool :=
  match s with
  | EmptyString => false
  | String c s' => f c || test f s'
  end.

Definition between (lo hi : nat) (c : ascii) : bool :=
  ((lo <=? nat_of_ascii c) && (nat_of_ascii c <=? hi))%nat.

(** [[0-9.-]] *)
Definition numeric_char (c : ascii) : bool :=
  between 48 57 c || Ascii.eqb c "." || Ascii.eqb c "-".

(** [[-/.]] *)
Definition delimiter (c : ascii) : bool :=
  Ascii.eqb c "-" || Ascii.eqb c "/" || Ascii.eqb c ".".

(** [[A-Z]] *)
Definition capital (c : ascii) : bool := between 65 90 c.

(** The line terminators, which [.] does not match, and the white space
    that [trim] removes, among the characters below 256. *)
Definition line_terminator (c : ascii) : bool :=
  (nat_of_ascii c =? 10)%nat || (nat_of_ascii c =? 13)%nat.

Definition white_space (c : ascii) : bool :=
  between 9 13 c || (nat_of_ascii c =? 32)%nat || (nat_of_ascii c =? 160)%nat.

(** [s.replace(/,/g, '')] *)
Definition strip_commas (s : string) : string :=
  keep (fun c => negb (Ascii.eqb c ",")) s.

(** [s.replace(/[^0-9.-]/g, '')] *)
Definition strip_non_numeric (s : string) : string := keep numeric_char s.

(** [s.replace(/_/g, ' ')] *)
Fixpoint spaces_for_underscores (s : string) : string :=
  match s with
  | EmptyString => EmptyString
  | String c s' =>
      String (if Ascii.eqb c "_" then " "%char else c) (spaces_for_underscores s')
  end.

(** [s.replace(/([A-Z])/g, ' $1')] *)
Fixpoint space_capitals (s : string) : string :=
  match s with
  | EmptyString => EmptyString
  | String c s' =>
      if capital c then String " " (String c (space_capitals s'))
      else String c (space_capitals s')
  end.

Fixpoint trim_start (s : string) : string :=
  match s with
  | EmptyString => EmptyString
  | String c s' => if white_space c then trim_start s' else s
  end.

(** The string without its trailing white space. *)
Fixpoint trim_end (s : string) : string :=
  match s with
  | EmptyString => EmptyString
  | String c s' =>
      match trim_end s' with
      | EmptyString => if white_space c then EmptyString else String c EmptyString
      | rest => String c rest
      end
  end.

Definition trim (s : string) : string := trim_end (trim_start s).

Section WithReader.
Context {host : Host} {reader : Reader}.

(** [s.replace(/^./, str => str.toUpperCase())] *)
Definition capitalize (s : string) : string :=
  match s with
  | EmptyString => EmptyString
  | String c s' => if line_terminator c then s else toUpperCase c ++ s'
  end.

Definition formatLabel (key : string) : string :=
  trim (capitalize (space_capitals (spaces_for_underscores key))).

(** [val === null || val === undefined || val === ''] *)
Definition blank (val : value) : bool :=
  match val with
  | VUndefined | VNull => true
  | VStr s => String.eqb s ""
  | _ => false
  end.

Definition isNumeric (val : value) : bool :=
  match val with
  | VNum _ => true
  | VStr s =>
      let clean := strip_non_numeric s in
      negb (is_nan (parseFloat clean)) && (0 <? String.length clean)%nat
  | _ => false
  end.

Definition isDate (val : value) : bool :=
  match val with
  | VDate _ => true
  | VStr s =>
      let hasDelimiter := test delimiter s in
      if negb hasDelimiter then false
      else
        let timestamp := Date_parse s in
        negb (is_nan timestamp)
  | _ => false
  end.

(** The time value of [new Date(val)]. *)
Definition new_Date (val : value) : float :=
  TimeClip
    match val with
    | VDate t => t
    | VStr s => Date_parse s
    | v => to_number v
    end.

Definition parseValue (val : value) (type : string) : value :=
  if blank val then VNull
  else if String.eqb type "number" then
    match val with
    | VNum _ => val
    | _ =>
        let clean := strip_non_numeric (strip_commas (to_string val)) in
        let num := parseFloat clean in
        if is_nan num then VNull else VNum num
    end
  else if String.eqb type "date" then
    let date := new_Date val in
    if is_nan date then VNull else VDate date
  else val.

(** [ColumnMetadata] *)
Record Meta : Type := {
  key : string;
  type : string;
  label : string
}.

(** SameValueZero, the equality of the members of a [Set]; two [Date]s
    are two objects. *)
Definition same_value_zero (a b : value) : bool :=
  match a, b with
  | VUndefined, VUndefined | VNull, VNull => true
  | VNum x, VNum y => (x =? y)%float || (is_nan x && is_nan y)
  | VStr s, VStr t => String.eqb s t
  | _, _ => false
  end.

(** [uniqueValues.add(val)] *)
Definition add_value (uniqueValues : list value) (val : value) : list value :=
  if existsb (same_value_zero val) uniqueValues then uniqueValues
  else uniqueValues ++ [val].

(** The counters of the loop of [analyzeColumnType]. *)
Record Tally : Type := {
  numericCount : nat;
  dateCount : nat;
  validCount : nat;
  uniqueValues : list value
}.

Definition analyze_cell (t : Tally) (val : value) : Tally :=
  if blank val then t
  else
    {| numericCount := (if isNumeric val then S (numericCount t) else numericCount t);
       dateCount := (if isDate val then S (dateCount t) else dateCount t);
       validCount := S (validCount t);
       uniqueValues := add_value (uniqueValues t) val |}.

Definition analyzeColumnType (data : list row) (key : string) : Meta :=
  let sampleSize := Nat.min (List.length data) 500 in
  let t :=
    fold_left analyze_cell
      (map (fun r => cell r key) (firstn sampleSize data))
      {| numericCount := 0; dateCount := 0; validCount := 0; uniqueValues := [] |} in
  if (validCount t =? 0)%nat
  then {| key := key; type := "text"; label := formatLabel key |}
  else
    let numericRatio := (num_of_nat (numericCount t) / num_of_nat (validCount t))%float in
    let dateRatio := (num_of_nat (dateCount t) / num_of_nat (validCount t))%float in
    let size := List.length (uniqueValues t) in
    let uniqueRatio := (num_of_nat size / num_of_nat (validCount t))%float in
    let type :=
      if (0.8 <? numericRatio)%float then "number"
      else if (0.8 <? dateRatio)%float then "date"
      else if (size <=? 20)%nat || ((uniqueRatio <? 0.2)%float && (size <? 50)%nat)
      then "category"
      else "text" in
    {| key := key; type := type; label := formatLabel key |}.

(** The result of [processData]. *)
Record Processed : Type := {
  data : list row;
  columns : list Column.t;
  rowCount : nat
}.

(** [Object.keys(row)] *)
Definition Object_keys (r : row) : list string := keys (entries r).

(** A row of [cleanData]. *)
Definition clean (columnMetadata : list Meta) (r : row) : row :=
  fold_left
    (fun newRow meta => obj_set newRow (key meta) (parseValue (cell r (key meta)) (type meta)))
    columnMetadata [].

Definition processData (rawData : option (list row)) : option Processed :=
  match rawData with
  | None | Some [] => None
  | Some ((first :: _) as rawData) =>
      let rawKeys := Object_keys first in
      let rowCount := List.length rawData in
      let columnMetadata := map (analyzeColumnType rawData) rawKeys in
      let cleanData := map (clean columnMetadata) rawData in
      let columns :=
        map (fun meta =>
               let values := map (fun r => cell r (key meta)) cleanData in
               processData_column (key meta) (type meta) (label meta) values)
            columnMetadata in
      Some {| data := cleanData; columns := columns; rowCount := rowCount |}
  end.

End WithReader.
End Ingest.

(** ** RecommendationEngine *)

Module Rec.
Record t : Type := {
  type : string;
  xAxis : string;
  yAxis : string;
  sizeAxis : option string;
  title : string;
  description : string;
  score : float;
  isHistogram : bool
}.
End Rec.

Module RecommendationEngine.
Import JS.

(** Comparisons of a statistic that may be absent ([undefined] compares as
    NaN: never greater, never below). *)
Definition exceeds (x : option float) (c : float) : bool :=
  match x with
  | Some f => (c <? f)%float
  | None => false
  end.

Definition count_exceeds (x : option nat) (c : nat) : bool :=
  match x with
  | Some n => (c <? n)%nat
  | None => false
  end.

Definition count_at_most (x : option nat) (c : nat) : bool :=
  match x with
  | Some n => (n <=? c)%nat
  | None => false
  end.

(** [numCol.stats.min >= 0] *)
Definition min_non_negative (c : Column.t) : bool :=
  match Stats.min (Column.stats c) with
  | Some (BNum f) => (0 <=? f)%float
  | Some (BDate t) => (0 <=? t)%float
  | None => false
  end.

Definition isNumber (c : Column.t) : bool := String.eqb (Column.type c) "number".
Definition isCategory (c : Column.t) : bool :=
  String.eqb (Column.type c) "category" || String.eqb (Column.type c) "text".
Definition isDate (c : Column.t) : bool := String.eqb (Column.type c) "date".

(** 1. Distribution *)
Definition distribution (col : Column.t) : list Rec.t :=
  if exceeds (Stats.stdDev (Column.stats col)) 0 then
    [ {| Rec.type := "bar";
         Rec.xAxis := Column.key col;
         Rec.yAxis := Column.key col;
         Rec.sizeAxis := None;
         Rec.title := "Distribution of " ++ Column.label col;
         Rec.description :=
           "Shows how " ++ Column.label col ++ " is spread across the dataset.";
         Rec.score :=
           (50 + (if exceeds (Stats.variance (Column.stats col)) 1000
                  then 20 else 0))%float;
         Rec.isHistogram := true |} ]
  else [].

(** 2. Trend *)
Definition trend (dateCol numCol : Column.t) : Rec.t :=
  {| Rec.type := "line";
     Rec.xAxis := Column.key dateCol;
     Rec.yAxis := Column.key numCol;
     Rec.sizeAxis := None;
     Rec.title := Column.label numCol ++ " over Time";
     Rec.description :=
       "Track " ++ Column.label numCol ++ " trends based on "
       ++ Column.label dateCol ++ ".";
     Rec.score := 90%float;
     Rec.isHistogram := false |}.

(** 3. Category comparison *)
Definition pie (catCol numCol : Column.t) : Rec.t :=
  {| Rec.type := "pie";
     Rec.xAxis := Column.key catCol;
     Rec.yAxis := Column.key numCol;
     Rec.sizeAxis := None;
     Rec.title := Column.label numCol ++ " Share by " ++ Column.label catCol;
     Rec.description := "Part-of-whole view for " ++ Column.label numCol ++ ".";
     Rec.score := 75%float;
     Rec.isHistogram := false |}.

Definition bar (catCol numCol : Column.t) : Rec.t :=
  {| Rec.type := "bar";
     Rec.xAxis := Column.key catCol;
     Rec.yAxis := Column.key numCol;
     Rec.sizeAxis := None;
     Rec.title := Column.label numCol ++ " by " ++ Column.label catCol;
     Rec.description :=
       "Compare " ++ Column.label numCol ++ " across different "
       ++ Column.label catCol ++ ".";
     Rec.score := 80%float;
     Rec.isHistogram := false |}.

Definition comparison (numericCols : list Column.t) (catCol : Column.t)
  : list Rec.t :=
  let uniqueCount := Stats.uniqueCount (Column.stats catCol) in
  if count_exceeds uniqueCount 50 then []
  else
    flat_map
      (fun numCol =>
         let isPieEligible :=
           count_at_most uniqueCount 6 && min_non_negative numCol in
         (if isPieEligible then [pie catCol numCol] else [])
         ++ [bar catCol numCol])
      numericCols.

Section WithHost.
Context {host : Host}.

(** 4. Correlation, 5. Multivariate: the body of the two nested loops for
    the pair [colA], [colB]. *)
Definition correlated (data : list row) (numericCols : list Column.t)
  (colA colB : Column.t) : list Rec.t :=
  let valsA := map (fun d => cell_number (cell d (Column.key colA))) data in
  let valsB := map (fun d => cell_number (cell d (Column.key colB))) data in
  let correlation := DataProcessor.calculateCorrelation valsA valsB in
  if (0.3 <=? PrimFloat.abs correlation)%float then
    let strength := if (0.7 <? PrimFloat.abs correlation)%float then "Strong" else "Moderate" in
    let direction := if (0 <? correlation)%float then "positive" else "negative" in
    {| Rec.type := "scatter";
       Rec.xAxis := Column.key colA;
       Rec.yAxis := Column.key colB;
       Rec.sizeAxis := None;
       Rec.title := Column.label colA ++ " vs " ++ Column.label colB;
       Rec.description :=
         strength ++ " " ++ direction ++ " correlation (r="
         ++ to_fixed 2 correlation ++ ").";
       Rec.score := (70 + PrimFloat.abs correlation * 30)%float;
       Rec.isHistogram := false |}
    :: match
         find (fun c =>
                 negb (String.eqb (Column.key c) (Column.key colA))
                 && negb (String.eqb (Column.key c) (Column.key colB))
                 && exceeds (Stats.variance (Column.stats c)) 0)
              numericCols
       with
       | Some sizeCol =>
           [ {| Rec.type := "bubble";
                Rec.xAxis := Column.key colA;
                Rec.yAxis := Column.key colB;
                Rec.sizeAxis := Some (Column.key sizeCol);
                Rec.title :=
                  "Multivariate: " ++ Column.label colA ++ " vs "
                  ++ Column.label colB ++ " vs " ++ Column.label sizeCol;
                Rec.description :=
                  "Complex system analysis: Relationship between "
                  ++ Column.label colA ++ " and " ++ Column.label colB
                  ++ ", sized by " ++ Column.label sizeCol ++ ".";
                Rec.score := (85 + PrimFloat.abs correlation * 10)%float;
                Rec.isHistogram := false |} ]
       | None => []
       end
  else [].

(** [for i] ... [for j = i + 1] ... over [cols], a suffix of the numeric
    columns. *)
Fixpoint pairs (data : list row) (numericCols cols : list Column.t)
  : list Rec.t :=
  match cols with
  | [] => []
  | colA :: rest =>
      flat_map (correlated data numericCols colA) rest
      ++ pairs data numericCols rest
  end.

(** The array [recommendations] as it stands before it is sorted. *)
Definition candidates (data : list row) (columns : list Column.t) : list Rec.t :=
  let numericCols := filter isNumber columns in
  let categoryCols := filter isCategory columns in
  let dateCols := filter isDate columns in
  flat_map distribution numericCols
  ++ match dateCols with
     | dateCol :: _ =>
         if (0 <? List.length numericCols)%nat
         then map (trend dateCol) numericCols else []
     | [] => []
     end
  ++ (if (0 <? List.length categoryCols)%nat && (0 <? List.length numericCols)%nat
      then flat_map (comparison numericCols) categoryCols else [])
  ++ (if (2 <=? List.length numericCols)%nat
      then pairs data numericCols numericCols else []).

(** Keep the first recommendation of each title. *)
Fixpoint unique (seenTitles : list string) (recs : list Rec.t) : list Rec.t :=
  match recs with
  | [] => []
  | rec :: recs' =>
      if existsb (String.eqb (Rec.title rec)) seenTitles then unique seenTitles recs'
      else rec :: unique (Rec.title rec :: seenTitles) recs'
  end.

Definition getRecommendations (data : list row) (columns : list Column.t)
  : list Rec.t :=
  let recommendations :=
    sort (fun a b => (Rec.score b - Rec.score a)%float) (candidates data columns) in
  firstn 4 (unique [] recommendations).

End WithHost.

End RecommendationEngine.

(** ** ManualExplorer *)

Module ManualExplorer.
Import JS ChartValidator DataProcessor.

(** The state [config] of the explorer. *)
Record Config : Type := {
  type : string;
  xAxis : string;
  yAxis : string;
  aggregation : string
}.

(** [columns.find(c => c.key === key)] *)
Definition find_column (columns : list Column.t) (key : string) : option Column.t :=
  find (fun c => String.eqb (Column.key c) key) columns.

Definition is_auto_fix (s : option Severity) : bool :=
  match s with
  | Some AUTO_FIX => true
  | _ => false
  end.

(** [handleAxisChange]: the new [config] and the new [hint]. *)
Definition handleAxisChange (columns : list Column.t) (config : Config)
  (axis value : string) : Config * string :=
  let newConfig :=
    if String.eqb axis "x"
    then {| type := type config; xAxis := value; yAxis := yAxis config;
            aggregation := aggregation config |}
    else {| type := type config; xAxis := xAxis config; yAxis := value;
            aggregation := aggregation config |} in
  let newXKey := if String.eqb axis "x" then value else xAxis config in
  let newYKey := if String.eqb axis "y" then value else yAxis config in
  let newXCol := find_column columns newXKey in
  let newYCol := find_column columns newYKey in
  match newXCol, newYCol with
  | Some _, Some _ =>
      match suggestSmartConfig newXCol newYCol with
      | Some smart =>
          let currentValidation := validateChart (type newConfig) newXCol newYCol in
          if String.eqb (type newConfig) ""
             || negb (valid currentValidation)
             || is_auto_fix (severity currentValidation)
          then
            ({| type := chartType smart;
                xAxis := xAxis newConfig;
                yAxis := yAxis newConfig;
                aggregation :=
                  match ChartValidator.aggregation smart with
                  | Some a => if String.eqb a "" then aggregation newConfig else a
                  | None => aggregation newConfig
                  end |},
             if String.eqb (chartType smart) "scatter"
             then "Auto-switched to Scatter because both axes are numeric."
             else if String.eqb (chartType smart) "line"
             then "Auto-switched to Line for time-series trend."
             else "")
          else (newConfig, "")
      | None => (newConfig, "")
      end
  | _, _ => (newConfig, "")
  end.

(** [['bar', 'line', 'pie', 'doughnut', 'scatter']] *)
Definition types : list string := ["bar"; "line"; "pie"; "doughnut"; "scatter"].

(** [typeAvailability]: the answer of [validateChart] for each type. *)
Definition typeAvailability (xCol yCol : option Column.t) : obj ValidationResult :=
  fold_left (fun acc t => obj_set acc t (validateChart t xCol yCol)) types [].

(** [isBlocked] for the button of a type. *)
Definition isBlocked (typeAvailability : obj ValidationResult) (type : string) : bool :=
  let status :=
    match own_get typeAvailability type with
    | Some status => status
    | None => accepted
    end in
  match severity status with
  | Some BLOCK | Some AUTO_FIX => true
  | _ => false
  end.

(** The buttons of the chart types, each with its [disabled]. *)
Definition buttons (xCol yCol : option Column.t) : list (string * bool) :=
  map (fun type => (type, isBlocked (typeAvailability xCol yCol) type)) types.

Definition is_block (s : option Severity) : bool :=
  match s with
  | Some BLOCK => true
  | _ => false
  end.

(** [xCol.stats.uniqueCount > 20] *)
Definition many_values (c : Column.t) : bool :=
  match Stats.uniqueCount (Column.stats c) with
  | Some n => (20 <? n)%nat
  | None => false
  end.

Section WithHost.
Context {host : Host}.

(** The rows to draw, [preparedData] in the memo of that name: [null]
    when nothing is to be drawn, the rows themselves, a random sample of
    them ([draws] are the indices drawn) or their aggregation. The row
    given to [sampleData] for an index outside the data is never read. *)
Definition preparedData (data : list row) (columns : list Column.t)
  (config : Config) (draws : list nat) : run (outcome (option (list row))) :=
  let xCol := find_column columns (xAxis config) in
  let yCol := find_column columns (yAxis config) in
  let validation := validateChart (type config) xCol yCol in
  match xCol, yCol with
  | Some x, Some _ =>
      if negb (valid validation) && is_block (severity validation)
      then Done (Returns None)
      else if String.eqb (type config) "scatter" then
        if (1000 <? List.length data)%nat then
          match sampleData (A := row) [] (Some data) 500 draws with
          | Done sampled => Done (Returns sampled)
          | Running => Running
          end
        else Done (Returns (Some data))
      else if negb (String.eqb (aggregation config) "")
              && negb (String.eqb (Column.type x) "number") then
        let limit := None in
        let limit :=
          if String.eqb (type config) "pie" || String.eqb (type config) "doughnut"
          then Some 6%Z else limit in
        let limit :=
          if String.eqb (type config) "bar" && many_values x
          then Some 20%Z else limit in
        match aggregateData data (xAxis config) (yAxis config) (aggregation config) limit with
        | Returns out => Done (Returns (Some out))
        | Throws e => Done (Throws e)
        end
      else Done (Returns (Some data))
  | _, _ => Done (Returns None)
  end.

End WithHost.

End ManualExplorer.

(** ** Sample data *)

Module Examples.
Import JS.

(** A host for the closed examples. Their rows have string keys and numeric
    cells, so that no conversion of the host is ever applied; each is given
    the answer it has on an unreadable input. *)
Definition plain_host : Host :=
  {| number_to_string := fun _ => "NaN";
     string_to_number := fun _ => nan;
     date_to_string := fun _ => "Invalid Date";
     to_fixed := fun _ _ => "NaN" |}.

Definition region_sales : list row :=
  [ [("region", VStr "A"); ("sales", VNum 10)];
    [("region", VStr "B"); ("sales", VNum 20)];
    [("region", VStr "A"); ("sales", VNum 30)] ].

(** A numeric column as [processData] describes it. *)
Definition sales : Column.t :=
  @DataProcessor.processData_column plain_host "sales" "number" "Sales"
    [VNum 10; VNum 20; VNum 30].

(** A date column as [processData] describes it. *)
Definition day : Column.t :=
  @DataProcessor.processData_column plain_host "day" "date" "Day"
    [VDate 0; VNull; VDate 86400000].

(** A category column with [n] distinct values. *)
Definition category (n : nat) : Column.t :=
  {| Column.key := "region"; Column.type := "category"; Column.label := "Region";
     Column.stats :=
       {| Stats.min := None; Stats.max := None; Stats.mean := None;
          Stats.median := None; Stats.sum := None; Stats.stdDev := None;
          Stats.variance := None; Stats.uniqueCount := Some n;
          Stats.top := Some []; Stats.nullCount := 0 |} |}.

(** A numeric column whose statistics carry a count of [n] distinct
    values. *)
Definition numeric (key : string) (n : nat) : Column.t :=
  {| Column.key := key; Column.type := "number"; Column.label := key;
     Column.stats :=
       {| Stats.min := Some (BNum 0); Stats.max := Some (BNum 0);
          Stats.mean := Some 0%float; Stats.median := Some 0%float;
          Stats.sum := Some 0%float; Stats.stdDev := Some 0%float;
          Stats.variance := Some 0%float; Stats.uniqueCount := Some n;
          Stats.top := None; Stats.nullCount := 0 |} |}.

(** A data set of one row, one date and five numbers, and its columns as
    [processData] describes them. *)
Definition one_row : list row :=
  [ [ ("day", VDate 0); ("n1", VNum 1); ("n2", VNum 1); ("n3", VNum 1);
      ("n4", VNum 1); ("n5", VNum 1) ] ].

Definition constant (key : string) : Column.t :=
  @DataProcessor.processData_column plain_host key "number" key [VNum 1].

Definition six_columns : list Column.t :=
  [ @DataProcessor.processData_column plain_host "day" "date" "Day" [VDate 0];
    constant "n1"; constant "n2"; constant "n3"; constant "n4"; constant "n5" ].


(** A reader for the closed examples, whose cells are numbers and plain
    words: it reads no number and no date in a string. *)
Definition plain_reader : Ingest.Reader :=
  {| Ingest.parseFloat := fun _ => nan;
     Ingest.Date_parse := fun _ => nan;
     Ingest.TimeClip := fun t => t;
     Ingest.toUpperCase := fun c => String c EmptyString |}.

(** The column [region] of [region_sales], as [processData] describes
    it. *)
Definition regions : Column.t :=
  @DataProcessor.processData_column plain_host "region" "category" "Region"
    (map (fun r => cell r "region") region_sales).

(** What [processData] makes of [region_sales]. *)
Definition processed : Ingest.Processed :=
  match @Ingest.processData plain_host plain_reader (Some region_sales) with
  | Some p => p
  | None => {| Ingest.data := []; Ingest.columns := []; Ingest.rowCount := 0 |}
  end.

End Examples.

(** * Properties *)

(** ** Binary64 arithmetic

    The facts on [float] used below, derived from the specification of the
    primitive operations over [spec_float]. *)

Module Binary64.
Local Open Scope Z_scope.

Lemma digits2_pos_bounds (m : positive) :
  2 ^ (Zpos (digits2_pos m) - 1) <= Zpos m < 2 ^ Zpos (digits2_pos m).
Proof.
  induction m as [p IH | p IH | ]; cbn [digits2_pos].
  - rewrite Pos2Z.inj_succ.
    replace (Z.succ (Zpos (digits2_pos p)) - 1) with (Z.succ (Zpos (digits2_pos p) - 1)) by lia.
    rewrite !Z.pow_succ_r by lia. lia.
  - rewrite Pos2Z.inj_succ.
    replace (Z.succ (Zpos (digits2_pos p)) - 1) with (Z.succ (Zpos (digits2_pos p) - 1)) by lia.
    rewrite !Z.pow_succ_r by lia. lia.
  - cbn. lia.
Qed.

Lemma shr_1_m (r : shr_record) :
  0 <= shr_m r -> shr_m (shr_1 r) = shr_m r / 2.
Proof.
  destruct r as [m b s]; cbn [shr_m]; intros Hm.
  rewrite <- Z.div2_div.
  destruct m as [ | [p | p | ] | p ]; cbn; try reflexivity; lia.
Qed.

Lemma pow2_xO (p : positive) : 2 ^ Zpos p~0 = 2 ^ Zpos p * 2 ^ Zpos p.
Proof. rewrite <- Z.pow_add_r by lia. f_equal. lia. Qed.

Lemma pow2_xI (p : positive) : 2 ^ Zpos p~1 = 2 * (2 ^ Zpos p * 2 ^ Zpos p).
Proof.
  replace (Zpos p~1) with (1 + (Zpos p + Zpos p)) by lia.
  rewrite !Z.pow_add_r by lia. reflexivity.
Qed.

Lemma iter_shr_1_m (p : positive) :
  forall r, 0 <= shr_m r ->
            shr_m (iter_pos shr_1 p r) = shr_m r / 2 ^ Zpos p.
Proof.
  induction p as [p IH | p IH | ]; intros r Hr; cbn [iter_pos].
  - assert (Hp : 0 < 2 ^ Zpos p) by (apply Z.pow_pos_nonneg; lia).
    assert (H1 : 0 <= shr_m (shr_1 r)).
    { rewrite shr_1_m by assumption. apply Z.div_pos; lia. }
    assert (H2 : 0 <= shr_m (iter_pos shr_1 p (shr_1 r))).
    { rewrite IH by assumption. apply Z.div_pos; assumption. }
    rewrite IH by assumption. rewrite IH by assumption. rewrite shr_1_m by assumption.
    rewrite !Z.div_div by lia. rewrite pow2_xI. reflexivity.
  - assert (Hp : 0 < 2 ^ Zpos p) by (apply Z.pow_pos_nonneg; lia).
    assert (H2 : 0 <= shr_m (iter_pos shr_1 p r)).
    { rewrite IH by assumption. apply Z.div_pos; assumption. }
    rewrite IH by assumption. rewrite IH by assumption.
    rewrite !Z.div_div by lia. rewrite pow2_xO. reflexivity.
  - rewrite shr_1_m by assumption. reflexivity.
Qed.

Lemma shr_record_of_loc_m m l : shr_m (shr_record_of_loc m l) = m.
Proof. destruct l as [ | [ | | ] ]; reflexivity. Qed.

Lemma shr_fexp_pos m e l :
  0 < m -> emin <= e ->
  0 < shr_m (fst (shr_fexp prec emax m e l)) /\ emin <= snd (shr_fexp prec emax m e l).
Proof.
  intros Hm He. unfold shr_fexp, shr.
  destruct m as [ | p | p ]; try lia.
  cbn [Zdigits2].
  pose proof (digits2_pos_bounds p) as Hd.
  set (d := Zpos (digits2_pos p)) in *.
  unfold fexp, SpecFloat.emin, prec, emax in *.
  destruct (Z.max (d + e - 53) (3 - 1024 - 53) - e) as [ | q | q ] eqn:En; cbn [fst snd].
  - rewrite shr_record_of_loc_m. lia.
  - rewrite iter_shr_1_m by (rewrite shr_record_of_loc_m; lia).
    rewrite shr_record_of_loc_m. split; [ | lia ].
    assert (Hq : Zpos q = d - 53) by lia.
    apply Z.div_str_pos. split; [ apply Z.pow_pos_nonneg; lia | ].
    transitivity (2 ^ (d - 1)); [ | lia ].
    apply Z.pow_le_mono_r; lia.
  - rewrite shr_record_of_loc_m. lia.
Qed.

Lemma round_nearest_even_ge m l : m <= round_nearest_even m l.
Proof.
  destruct l as [ | [ | | ] ]; cbn; try lia.
  destruct (Z.even m); lia.
Qed.

Lemma binary_round_aux_signed s m e l :
  0 < m -> emin <= e ->
  (exists m' e', binary_round_aux prec emax s m e l = S754_finite s m' e')
  \/ binary_round_aux prec emax s m e l = S754_infinity s.
Proof.
  intros Hm He. unfold binary_round_aux.
  destruct (shr_fexp_pos m e l Hm He) as [H1 H2].
  destruct (shr_fexp prec emax m e l) as [r1 e1]. cbn [fst snd] in *.
  assert (H3 : 0 < round_nearest_even (shr_m r1) (loc_of_shr_record r1)).
  { pose proof (round_nearest_even_ge (shr_m r1) (loc_of_shr_record r1)). lia. }
  destruct (shr_fexp_pos _ e1 loc_Exact H3 H2) as [H4 H5].
  destruct (shr_fexp prec emax _ e1 loc_Exact) as [r2 e2]. cbn [fst snd] in *.
  destruct (shr_m r2) as [ | q | q ]; try lia.
  destruct (e2 <=? emax - prec); [ left; eauto | right; reflexivity ].
Qed.

Lemma shl_align_fst mx ex ez :
  ez <= ex -> Zpos (fst (shl_align mx ex ez)) = Zpos mx * 2 ^ (ex - ez).
Proof.
  intros H. unfold shl_align.
  destruct (ez - ex) as [ | d | d ] eqn:E; cbn [fst]; try lia.
  - replace (ex - ez) with 0 by lia. lia.
  - replace (ex - ez) with (Zpos d) by lia.
    clear. revert mx. induction d as [ | d IH ] using Pos.peano_ind; intros mx.
    + cbn. lia.
    + rewrite Pos.iter_succ, Pos2Z.inj_succ, Z.pow_succ_r by lia.
      rewrite Pos2Z.inj_xO, IH. lia.
Qed.

Lemma shl_align_snd_ge mx ex ez :
  emin <= ex -> emin <= ez -> emin <= snd (shl_align mx ex ez).
Proof.
  intros H1 H2. unfold shl_align. destruct (ez - ex); cbn [snd]; assumption.
Qed.

Lemma binary_round_signed s m e :
  emin <= e ->
  (exists m' e', binary_round prec emax s m e = S754_finite s m' e')
  \/ binary_round prec emax s m e = S754_infinity s.
Proof.
  intros He. unfold binary_round.
  pose proof (shl_align_snd_ge m e (fexp prec emax (Zpos (digits2_pos m) + e)) He) as H.
  destruct (shl_align m e _) as [mz ez]. cbn [snd] in H.
  apply binary_round_aux_signed; [ lia | ].
  apply H. unfold fexp. apply Z.le_max_r.
Qed.

Lemma bounded_facts m e :
  bounded prec emax m e = true ->
  Zpos (digits2_pos m) <= prec /\ emin <= e /\ (emin < e -> Zpos (digits2_pos m) = prec).
Proof.
  unfold bounded, canonical_mantissa, fexp. intros H.
  apply andb_true_iff in H. destruct H as [H _]. apply Z.eqb_eq in H.
  unfold SpecFloat.emin, prec, emax in *. lia.
Qed.

Definition aligned (s : bool) (m : positive) (e ez : Z) : Z :=
  cond_Zopp s (Zpos (fst (shl_align m e ez))).

Lemma SFcompare_finite sx mx ex sy my ey :
  bounded prec emax mx ex = true -> bounded prec emax my ey = true ->
  SFcompare (S754_finite sx mx ex) (S754_finite sy my ey)
  = Some (aligned sx mx ex (Z.min ex ey) ?= aligned sy my ey (Z.min ex ey)).
Proof.
  intros Hx Hy.
  apply bounded_facts in Hx, Hy.
  destruct Hx as (Hx1 & Hx2 & Hx3), Hy as (Hy1 & Hy2 & Hy3).
  pose proof (digits2_pos_bounds mx) as Bx. pose proof (digits2_pos_bounds my) as By.
  unfold aligned. rewrite !shl_align_fst by lia.
  unfold prec, SpecFloat.emin, emax in *.
  assert (P52 : 2 ^ 52 * 2 = 2 ^ 53) by reflexivity.
  assert (G : forall k, 0 < k -> 2 <= 2 ^ k).
  { intros k Hk. change 2 with (2 ^ 1) at 1. apply Z.pow_le_mono_r; lia. }
  cbn [SFcompare].
  destruct (Z.compare_spec ex ey) as [E | E | E].
  - subst ey. rewrite Z.min_id, Z.sub_diag, Z.pow_0_r, !Z.mul_1_r.
    destruct sx, sy; reflexivity.
  - rewrite Z.min_l by lia. rewrite Z.sub_diag, Z.pow_0_r, Z.mul_1_r.
    rewrite Hy3 in By by lia. specialize (G (ey - ex) ltac:(lia)).
    assert (Zpos mx < Zpos my * 2 ^ (ey - ex)).
    { assert (Zpos mx < 2 ^ 53) by (eapply Z.lt_le_trans; [ apply Bx | apply Z.pow_le_mono_r; lia ]).
      change (2 ^ (53 - 1)) with (2 ^ 52) in By. nia. }
    destruct sx, sy; cbn [cond_Zopp]; f_equal; symmetry;
      first [ apply Z.compare_lt_iff | apply Z.compare_gt_iff ]; lia.
  - rewrite Z.min_r by lia. rewrite Z.sub_diag, Z.pow_0_r, Z.mul_1_r.
    rewrite Hx3 in Bx by lia. specialize (G (ex - ey) ltac:(lia)).
    assert (Zpos my < Zpos mx * 2 ^ (ex - ey)).
    { assert (Zpos my < 2 ^ 53) by (eapply Z.lt_le_trans; [ apply By | apply Z.pow_le_mono_r; lia ]).
      change (2 ^ (53 - 1)) with (2 ^ 52) in Bx. nia. }
    destruct sx, sy; cbn [cond_Zopp]; f_equal; symmetry;
      first [ apply Z.compare_lt_iff | apply Z.compare_gt_iff ]; lia.
Qed.

Lemma SFltb_zero_signed s (r : spec_float) :
  (exists m e, r = S754_finite s m e) \/ r = S754_infinity s ->
  SFltb (S754_zero false) r = negb s.
Proof.
  intros [(m & e & ->) | ->]; destruct s; reflexivity.
Qed.

Lemma SFsub_sign (x y : spec_float) :
  valid_binary x = true -> valid_binary y = true ->
  SFltb (S754_zero false) (SF64sub x y) = SFltb y x.
Proof.
  destruct x as [sx | sx | | sx mx ex], y as [sy | sy | | sy my ey];
    intros Vx Vy; try reflexivity;
    try (destruct sx; try destruct sy; reflexivity);
    try (destruct sy; reflexivity).
  cbn [valid_binary] in Vx, Vy.
  unfold SFltb at 2. rewrite (SFcompare_finite _ _ _ _ _ _ Vy Vx).
  unfold SF64sub, SFsub. rewrite (Z.min_comm ey ex).
  fold (aligned sx mx ex (Z.min ex ey)). fold (aligned sy my ey (Z.min ex ey)).
  set (X := aligned sx mx ex (Z.min ex ey)). set (Y := aligned sy my ey (Z.min ex ey)).
  assert (Hz : emin <= Z.min ex ey).
  { apply bounded_facts in Vx, Vy. lia. }
  unfold binary_normalize.
  destruct (X - Y) as [ | d | d ] eqn:D.
  - replace (Y ?= X) with Eq by (symmetry; apply Z.compare_eq_iff; lia). reflexivity.
  - replace (Y ?= X) with Lt by (symmetry; apply Z.compare_lt_iff; lia).
    apply (SFltb_zero_signed false). apply binary_round_signed, Hz.
  - replace (Y ?= X) with Gt by (symmetry; apply Z.compare_gt_iff; lia).
    apply (SFltb_zero_signed true). apply binary_round_signed, Hz.
Qed.

Lemma SFcompare_antisym (x y : spec_float) :
  SFcompare y x = option_map CompOpp (SFcompare x y).
Proof.
  destruct x as [sx | sx | | sx mx ex], y as [sy | sy | | sy my ey];
    try reflexivity;
    try (destruct sx; try destruct sy; reflexivity);
    try (destruct sy; reflexivity).
  cbn [SFcompare option_map]. rewrite (Z.compare_antisym ex ey).
  destruct sx, sy; try reflexivity;
    destruct (ex ?= ey); cbn [CompOpp]; try reflexivity;
    rewrite <- (Pos.compare_cont_antisym _ _ Eq); cbn [CompOpp]; reflexivity.
Qed.

Lemma SFcompare_refl (x : spec_float) :
  x <> S754_nan -> SFcompare x x = Some Eq.
Proof.
  destruct x as [s | s | | s m e]; intros H; try congruence;
    try (destruct s; reflexivity).
  cbn [SFcompare]. rewrite Z.compare_refl, Pos.compare_cont_refl.
  destruct s; reflexivity.
Qed.

(** *** Results that are numbers

    When an operation does not answer NaN, and when it does not overflow. *)

(** Shape of a value: not NaN. *)
Definition is_number (x : spec_float) : Prop := x <> S754_nan.

(** Zero or a finite non-zero value. *)
Definition is_bounded (x : spec_float) : Prop :=
  match x with
  | S754_zero _ | S754_finite _ _ _ => True
  | _ => False
  end.

Lemma shr_fexp_nonneg m e l :
  0 <= m -> 0 <= shr_m (fst (shr_fexp prec emax m e l)).
Proof.
  intros Hm. unfold shr_fexp, shr.
  destruct (fexp prec emax (Zdigits2 m + e) - e) as [ | q | q ]; cbn [fst];
    try (rewrite shr_record_of_loc_m; exact Hm).
  rewrite iter_shr_1_m by (rewrite shr_record_of_loc_m; exact Hm).
  rewrite shr_record_of_loc_m. apply Z.div_pos; [ exact Hm | ].
  apply Z.pow_pos_nonneg; lia.
Qed.

Lemma binary_round_aux_number s m e l :
  0 <= m -> is_number (binary_round_aux prec emax s m e l).
Proof.
  intros Hm. unfold binary_round_aux.
  pose proof (shr_fexp_nonneg m e l Hm) as H1.
  destruct (shr_fexp prec emax m e l) as [r1 e1]. cbn [fst] in H1.
  assert (H3 : 0 <= round_nearest_even (shr_m r1) (loc_of_shr_record r1)).
  { pose proof (round_nearest_even_ge (shr_m r1) (loc_of_shr_record r1)). lia. }
  pose proof (shr_fexp_nonneg _ e1 loc_Exact H3) as H4.
  destruct (shr_fexp prec emax _ e1 loc_Exact) as [r2 e2]. cbn [fst] in H4.
  destruct (shr_m r2) as [ | q | q ]; try lia; try discriminate.
  destruct (e2 <=? emax - prec); discriminate.
Qed.

Lemma binary_normalize_number z e :
  emin <= e -> is_number (binary_normalize prec emax z e false).
Proof.
  intros He. destruct z as [ | p | p ]; cbn [binary_normalize]; [ discriminate | | ].
  - destruct (binary_round_signed false p e He) as [ (m & e' & ->) | -> ]; discriminate.
  - destruct (binary_round_signed true p e He) as [ (m & e' & ->) | -> ]; discriminate.
Qed.

Lemma SFadd_number x y :
  valid_binary x = true -> valid_binary y = true ->
  is_number x -> is_bounded y -> is_number (SF64add x y).
Proof.
  destruct x as [sx | sx | | sx mx ex], y as [sy | sy | | sy my ey];
    intros Vx Vy Hx Hy; try contradiction; try (now elim Hx);
    try discriminate; try (destruct sx, sy; discriminate).
  cbn [valid_binary] in Vx, Vy. apply bounded_facts in Vx, Vy.
  unfold SF64add, SFadd. apply binary_normalize_number. lia.
Qed.


Lemma SFdiv_core_nonneg m1 e1 m2 e2 :
  0 <= fst (fst (SFdiv_core_binary prec emax (Zpos m1) e1 (Zpos m2) e2)).
Proof.
  unfold SFdiv_core_binary.
  set (s := _ - _ - _).
  set (m' := match s with Z0 => Zpos m1 | Zpos _ => Z.shiftl (Zpos m1) s | Zneg _ => 0 end).
  assert (Hm' : 0 <= m').
  { unfold m'. destruct s; try lia. apply Z.shiftl_nonneg. lia. }
  pose proof (Z_div_mod m' (Zpos m2) ltac:(lia)) as H.
  destruct (Z.div_eucl m' (Zpos m2)) as [q r]. cbn [fst]. nia.
Qed.

(** Division by a positive finite number. *)
Lemma SFdiv_number x my ey :
  is_number x -> is_number (SF64div x (S754_finite false my ey)).
Proof.
  destruct x as [sx | sx | | sx mx ex]; intros Hx; try (now elim Hx); try discriminate.
  unfold SF64div, SFdiv.
  pose proof (SFdiv_core_nonneg mx ex my ey) as H.
  destruct (SFdiv_core_binary prec emax (Zpos mx) ex (Zpos my) ey) as [[mz ez] lz].
  cbn [fst] in H. now apply binary_round_aux_number.
Qed.

Lemma digits2_pos_le (m : positive) (k : Z) :
  0 <= k -> Zpos m < 2 ^ k -> Zpos (digits2_pos m) <= k.
Proof.
  intros Hk H. pose proof (digits2_pos_bounds m) as [ B _ ].
  destruct (Z.le_gt_cases (Zpos (digits2_pos m)) k) as [ L | L ]; [ exact L | ].
  exfalso. assert (2 ^ k <= 2 ^ (Zpos (digits2_pos m) - 1)) by (apply Z.pow_le_mono_r; lia).
  lia.
Qed.

Lemma Zdigits2_le (m k : Z) :
  0 <= m -> 0 <= k -> m < 2 ^ k -> Zdigits2 m <= k.
Proof.
  intros Hm Hk H. destruct m as [ | p | p ]; cbn [Zdigits2]; try lia.
  now apply digits2_pos_le.
Qed.

(** The exponent and the mantissa after the shift of [shr_fexp]. *)
Lemma shr_fexp_shift m e l :
  0 <= m ->
  let e' := Z.max e (fexp prec emax (Zdigits2 m + e)) in
  snd (shr_fexp prec emax m e l) = e'
  /\ shr_m (fst (shr_fexp prec emax m e l)) = m / 2 ^ (e' - e).
Proof.
  intros Hm e'. unfold shr_fexp, shr. subst e'.
  destruct (fexp prec emax (Zdigits2 m + e) - e) as [ | q | q ] eqn:E; cbn [fst snd].
  - rewrite shr_record_of_loc_m. replace (Z.max _ _ - e) with 0 by lia.
    rewrite Z.pow_0_r, Z.div_1_r. split; lia.
  - rewrite iter_shr_1_m by (rewrite shr_record_of_loc_m; exact Hm).
    rewrite shr_record_of_loc_m. replace (Z.max _ _ - e) with (Zpos q) by lia.
    split; [ lia | reflexivity ].
  - rewrite shr_record_of_loc_m. replace (Z.max _ _ - e) with 0 by lia.
    rewrite Z.pow_0_r, Z.div_1_r. split; lia.
Qed.

Lemma round_nearest_even_le m l : round_nearest_even m l <= m + 1.
Proof.
  destruct l as [ | [ | | ] ]; cbn; try lia.
  destruct (Z.even m); lia.
Qed.

(** No overflow: a positive mantissa below [2 ^ (k - e)], with [k] within
    the exponent range, rounds to a finite number. *)
Lemma binary_round_aux_finite s m e l k :
  0 < m -> emin <= e -> e <= 971 -> e <= k -> k <= 1023 -> m < 2 ^ (k - e) ->
  exists m' e', binary_round_aux prec emax s m e l = S754_finite s m' e'.
Proof.
  intros Hm He He' Hk Hk' Hb.
  destruct (binary_round_aux_signed s m e l Hm He) as [ H | H ]; [ exact H | exfalso ].
  revert H. unfold binary_round_aux.
  destruct (shr_fexp_shift m e l ltac:(lia)) as [ E1 M1 ].
  pose proof (shr_fexp_pos m e l Hm He) as [ P1 _ ].
  destruct (shr_fexp prec emax m e l) as [r1 e1]. cbn [fst snd] in *.
  set (m2 := round_nearest_even (shr_m r1) (loc_of_shr_record r1)).
  assert (H2 : 0 < m2 <= shr_m r1 + 1).
  { pose proof (round_nearest_even_ge (shr_m r1) (loc_of_shr_record r1)).
    pose proof (round_nearest_even_le (shr_m r1) (loc_of_shr_record r1)).
    unfold m2. lia. }
  clearbody m2.
  assert (Hd : Zdigits2 m + e <= k).
  { assert (Zdigits2 m <= k - e) by (apply Zdigits2_le; lia). lia. }
  assert (He1 : e <= e1 <= Z.max e (k - 53)).
  { rewrite E1. unfold fexp, SpecFloat.emin, prec, emax in *. lia. }
  assert (Hm1 : shr_m r1 < 2 ^ (k - e1)).
  { rewrite M1, E1. fold (Z.max e (fexp prec emax (Zdigits2 m + e))). rewrite <- E1.
    apply Z.div_lt_upper_bound; [ apply Z.pow_pos_nonneg; lia | ].
    rewrite <- Z.pow_add_r by lia. replace (e1 - e + (k - e1)) with (k - e) by lia.
    exact Hb. }
  assert (Hd2 : Zdigits2 m2 + e1 <= k + 1).
  { assert (Zdigits2 m2 <= k - e1 + 1).
    { apply Zdigits2_le; try lia. rewrite Z.pow_add_r, Z.pow_1_r by lia.
      assert (0 < 2 ^ (k - e1)) by (apply Z.pow_pos_nonneg; lia).
      clear - H Hm1 H2. lia. }
    lia. }
  destruct (shr_fexp_shift m2 e1 loc_Exact ltac:(lia)) as [ E2 _ ].
  destruct (shr_fexp prec emax m2 e1 loc_Exact) as [r2 e2]. cbn [fst snd] in *.
  assert (He2 : e2 <= emax - prec).
  { rewrite E2. unfold fexp, SpecFloat.emin, prec, emax in *. lia. }
  apply Z.leb_le in He2. rewrite He2.
  destruct (shr_m r2); discriminate.
Qed.

Lemma binary_round_finite s (p : positive) :
  Zpos p < 2 ^ 63 ->
  exists m' e', binary_round prec emax s p 0 = S754_finite s m' e'.
Proof.
  intros Hp. unfold binary_round.
  pose proof (digits2_pos_le p 63 ltac:(lia) Hp) as Hd.
  pose proof (shl_align_fst p 0 (fexp prec emax (Zpos (digits2_pos p) + 0))) as F.
  pose proof (shl_align_snd_ge p 0 (fexp prec emax (Zpos (digits2_pos p) + 0))
                ltac:(unfold SpecFloat.emin, prec, emax; lia)
                ltac:(unfold fexp; apply Z.le_max_r)) as G.
  assert (S : snd (shl_align p 0 (fexp prec emax (Zpos (digits2_pos p) + 0))) <= 0
              /\ Zpos (fst (shl_align p 0 (fexp prec emax (Zpos (digits2_pos p) + 0))))
                 = Zpos p * 2 ^ (0 - snd (shl_align p 0 (fexp prec emax (Zpos (digits2_pos p) + 0))))).
  { unfold shl_align in *.
    destruct (fexp prec emax (Zpos (digits2_pos p) + 0) - 0) as [ | d | d ] eqn:E;
      cbn [fst snd] in *; try (split; [ lia | cbn; lia ]).
    split; [ lia | ]. apply F. lia. }
  destruct (shl_align p 0 _) as [mz ez]. cbn [fst snd] in *. destruct S as [ S1 S2 ].
  apply (binary_round_aux_finite s (Zpos mz) ez loc_Exact 63); try lia.
  rewrite S2. replace (63 - ez) with (63 + (0 - ez)) by lia.
  rewrite Z.pow_add_r by lia. apply Z.mul_lt_mono_pos_r; [ apply Z.pow_pos_nonneg; lia | exact Hp ].
Qed.

(** *** Signs

    [signed s x]: [x] is a zero, or a number of sign [s]. *)
Definition signed (s : bool) (x : spec_float) : Prop :=
  match x with
  | S754_zero _ => True
  | S754_infinity s' | S754_finite s' _ _ => s' = s
  | S754_nan => False
  end.

Lemma binary_round_aux_sign s m e l :
  0 <= m -> signed s (binary_round_aux prec emax s m e l).
Proof.
  intros Hm. unfold binary_round_aux.
  pose proof (shr_fexp_nonneg m e l Hm) as H1.
  destruct (shr_fexp prec emax m e l) as [r1 e1]. cbn [fst] in H1.
  assert (H3 : 0 <= round_nearest_even (shr_m r1) (loc_of_shr_record r1)).
  { pose proof (round_nearest_even_ge (shr_m r1) (loc_of_shr_record r1)). lia. }
  pose proof (shr_fexp_nonneg _ e1 loc_Exact H3) as H4.
  destruct (shr_fexp prec emax _ e1 loc_Exact) as [r2 e2]. cbn [fst] in H4.
  destruct (shr_m r2) as [ | q | q ]; try lia; cbn [signed]; auto.
  destruct (e2 <=? emax - prec); reflexivity.
Qed.

Lemma binary_round_sign s m e : signed s (binary_round prec emax s m e).
Proof.
  unfold binary_round. destruct (shl_align m e _) as [mz ez].
  apply binary_round_aux_sign. lia.
Qed.


Lemma SFadd_sign x y : signed false x -> signed false y -> signed false (SF64add x y).
Proof.
  destruct x as [sx | sx | | sx mx ex], y as [sy | sy | | sy my ey];
    cbn [signed]; intros Hx Hy; subst; try contradiction;
    unfold SF64add, SFadd; cbn [Bool.eqb signed]; auto.
  - destruct sx, sy; exact I.
  - cbn [cond_Zopp]. cbn [Z.add binary_normalize]. apply binary_round_sign.
Qed.



Lemma SFmul_sign x my ey :
  signed false x -> signed false (SF64mul x (S754_finite false my ey)).
Proof.
  destruct x as [sx | sx | | sx mx ex]; cbn [signed]; intros Hx; subst;
    try contradiction; unfold SF64mul, SFmul; cbn [signed xorb]; auto.
  apply binary_round_aux_sign. lia.
Qed.

Lemma SFabs_sign x : is_number x -> signed false (SFabs x).
Proof.
  destruct x; intros H; try (now elim H); cbn [SFabs signed]; auto.
Qed.

Lemma SFmul_comm (x y : spec_float) : SF64mul x y = SF64mul y x.
Proof.
  unfold SF64mul, SFmul.
  destruct x as [sx | sx | | sx mx ex], y as [sy | sy | | sy my ey];
    try reflexivity; try (rewrite xorb_comm; reflexivity).
  now rewrite xorb_comm, Pos.mul_comm, Z.add_comm.
Qed.

(** *** The order as an order on integers

    A number is ranked by its value counted in units of the least
    subnormal; the infinities are ranked beyond every finite value. On
    valid numbers the comparison is the comparison of the ranks. *)

Definition rank (x : spec_float) : Z :=
  match x with
  | S754_zero _ | S754_nan => 0
  | S754_infinity s => cond_Zopp s (2 ^ 2200)
  | S754_finite s m e => cond_Zopp s (Zpos m * 2 ^ (e - emin))
  end.

Lemma bounded_le m e : bounded prec emax m e = true -> e <= emax - prec.
Proof.
  unfold bounded. intros H. apply andb_prop in H. destruct H as [_ H].
  now apply Z.leb_le.
Qed.

Lemma rank_finite_bounds m e :
  bounded prec emax m e = true ->
  0 < Zpos m * 2 ^ (e - emin) < 2 ^ 2200.
Proof.
  intros H. pose proof (bounded_le _ _ H) as Hle.
  apply bounded_facts in H. destruct H as (H1 & H2 & _).
  pose proof (digits2_pos_bounds m) as [_ B].
  assert (P : 0 < 2 ^ (e - emin)) by (apply Z.pow_pos_nonneg; lia).
  split; [ lia | ].
  assert (Zpos m < 2 ^ prec).
  { eapply Z.lt_le_trans; [ exact B | apply Z.pow_le_mono_r; lia ]. }
  assert (2 ^ (e - emin) <= 2 ^ (emax - prec - emin)) by (apply Z.pow_le_mono_r; lia).
  assert (2 ^ prec * 2 ^ (emax - prec - emin) <= 2 ^ 2200).
  { rewrite <- Z.pow_add_r by (unfold prec, emax, SpecFloat.emin; lia).
    apply Z.pow_le_mono_r; unfold prec, emax, SpecFloat.emin; lia. }
  assert (0 < 2 ^ prec) by (apply Z.pow_pos_nonneg; unfold prec; lia).
  nia.
Qed.

Lemma SFcompare_rank x y :
  valid_binary x = true -> valid_binary y = true ->
  is_number x -> is_number y ->
  SFcompare x y = Some (rank x ?= rank y).
Proof.
  assert (P : 0 < 2 ^ 2200) by (apply Z.pow_pos_nonneg; lia).
  destruct x as [sx | sx | | sx mx ex], y as [sy | sy | | sy my ey];
    intros Vx Vy Hx Hy; try (now elim Hx); try (now elim Hy);
    cbn [valid_binary] in Vx, Vy;
    try pose proof (rank_finite_bounds _ _ Vx) as Bx;
    try pose proof (rank_finite_bounds _ _ Vy) as By;
    try (cbn [SFcompare rank]; f_equal; symmetry;
         destruct sx; try destruct sy; cbn [cond_Zopp];
         first [ apply Z.compare_eq_iff | apply Z.compare_lt_iff | apply Z.compare_gt_iff ];
         lia).
  rewrite (SFcompare_finite _ _ _ _ _ _ Vx Vy). f_equal.
  apply bounded_facts in Vx, Vy.
  unfold aligned, rank. rewrite !shl_align_fst by lia.
  set (ez := Z.min ex ey).
  assert (Q : 0 < 2 ^ (ez - emin)) by (apply Z.pow_pos_nonneg; lia).
  rewrite (Zmult_compare_compat_r _ _ (2 ^ (ez - emin))) by lia.
  assert (E : forall s m e, ez <= e ->
            cond_Zopp s (Zpos m * 2 ^ (e - ez)) * 2 ^ (ez - emin)
            = cond_Zopp s (Zpos m * 2 ^ (e - emin))).
  { intros s m e He. replace (e - emin) with ((e - ez) + (ez - emin)) by lia.
    rewrite Z.pow_add_r by lia. destruct s; cbn [cond_Zopp]; lia. }
  rewrite !E by lia. reflexivity.
Qed.

End Binary64.

(** Facts on the primitive binary64 operations, through their specification. *)
Module Float64.
Import Binary64.
Local Open Scope float_scope.

Lemma Prim2SF_not_nan (a : float) : is_nan a = false -> Prim2SF a <> S754_nan.
Proof.
  unfold is_nan. rewrite FloatAxioms.eqb_spec. intros H E. rewrite E in H. discriminate H.
Qed.

(** The sign of a difference decides the order: [a - b > 0] exactly when
    [b < a], for all binary64 values, NaN and the infinities included. *)
Lemma sub_pos_ltb (a b : float) : (0 <? a - b) = (b <? a).
Proof.
  rewrite !FloatAxioms.ltb_spec, FloatAxioms.sub_spec.
  change (Prim2SF 0) with (S754_zero false).
  apply SFsub_sign; apply Prim2SF_valid.
Qed.

Lemma ltb_false_leb (a b : float) :
  is_nan a = false -> is_nan b = false -> (b <? a) = false -> (a <=? b) = true.
Proof.
  intros Ha Hb. rewrite FloatAxioms.ltb_spec, FloatAxioms.leb_spec.
  apply Prim2SF_not_nan in Ha, Hb.
  unfold SFltb, SFleb. rewrite (SFcompare_antisym (Prim2SF a) (Prim2SF b)).
  destruct (Prim2SF a) as [sx | sx | | sx mx ex], (Prim2SF b) as [sy | sy | | sy my ey];
    try congruence;
    match goal with |- context [SFcompare ?u ?v] => destruct (SFcompare u v) as [[ | | ] | ] eqn:E end;
    cbn; try congruence; try discriminate E;
    destruct sx; try destruct sy; discriminate E.
Qed.

Lemma ltb_leb (a b : float) : (a <? b) = true -> (a <=? b) = true.
Proof.
  rewrite FloatAxioms.ltb_spec, FloatAxioms.leb_spec. unfold SFltb, SFleb.
  destruct (SFcompare _ _) as [[ | | ] | ]; congruence.
Qed.

Lemma is_nan_Prim2SF (a : float) : is_nan a = false <-> Prim2SF a <> S754_nan.
Proof.
  split; [ apply Prim2SF_not_nan | ].
  intros H. unfold is_nan. rewrite FloatAxioms.eqb_spec. unfold SFeqb.
  now rewrite SFcompare_refl.
Qed.

Lemma is_finite_Prim2SF (a : float) : is_finite a = true -> is_bounded (Prim2SF a).
Proof.
  unfold is_finite, is_infinity, is_nan.
  rewrite !FloatAxioms.eqb_spec, FloatAxioms.abs_spec.
  change (Prim2SF infinity) with (S754_infinity false).
  destruct (Prim2SF a) as [ s | [ | ] | | s m e ]; cbn;
    try discriminate; exact (fun _ => I).
Qed.

Lemma is_finite_not_nan (a : float) : is_finite a = true -> is_nan a = false.
Proof.
  unfold is_finite. destruct (is_nan a); [ discriminate | reflexivity ].
Qed.

Lemma add_number (a b : float) :
  is_nan a = false -> is_finite b = true -> is_nan (a + b) = false.
Proof.
  intros Ha Hb. apply is_nan_Prim2SF. rewrite FloatAxioms.add_spec.
  apply SFadd_number; try apply Prim2SF_valid.
  - now apply is_nan_Prim2SF.
  - now apply is_finite_Prim2SF.
Qed.


(** An array length, below [2 ^ 63], is a positive finite number. *)
Lemma num_of_nat_finite (n : nat) :
  (0 < Z.of_nat n < 2 ^ 63)%Z ->
  exists m e, Prim2SF (JS.num_of_nat n) = S754_finite false m e.
Proof.
  intros Hn. unfold JS.num_of_nat. rewrite FloatAxioms.of_uint63_spec.
  rewrite Uint63.of_Z_spec. rewrite Z.mod_small by (change Uint63.wB with (2 ^ 63)%Z; lia).
  destruct (Z.of_nat n) as [ | p | p ] eqn:E; try lia.
  cbn [binary_normalize]. apply binary_round_finite. lia.
Qed.

Lemma div_count_number (a : float) (n : nat) :
  (0 < Z.of_nat n < 2 ^ 63)%Z ->
  is_nan a = false -> is_nan (a / JS.num_of_nat n) = false.
Proof.
  intros Hn Ha. apply is_nan_Prim2SF. rewrite FloatAxioms.div_spec.
  destruct (num_of_nat_finite n Hn) as (m & e & ->).
  apply SFdiv_number. now apply is_nan_Prim2SF.
Qed.

Lemma div_two_number (a : float) : is_nan a = false -> is_nan (a / 2) = false.
Proof.
  intros Ha. apply is_nan_Prim2SF. rewrite FloatAxioms.div_spec.
  change (Prim2SF 2) with (S754_finite false 4503599627370496 (-51)).
  apply SFdiv_number. now apply is_nan_Prim2SF.
Qed.

Lemma num_of_nat_number (n : nat) : is_nan (JS.num_of_nat n) = false.
Proof.
  apply is_nan_Prim2SF. unfold JS.num_of_nat. rewrite FloatAxioms.of_uint63_spec.
  apply binary_normalize_number. unfold SpecFloat.emin, prec, emax. lia.
Qed.

(** Non-negative numbers, and the order through the ranks. *)
Definition nonneg (a : float) : Prop := signed false (Prim2SF a).



Lemma add_nonneg (a b : float) : nonneg a -> nonneg b -> nonneg (a + b).
Proof.
  intros Ha Hb. unfold nonneg. rewrite FloatAxioms.add_spec. now apply SFadd_sign.
Qed.


Definition rank (a : float) : Z := Binary64.rank (Prim2SF a).

Lemma leb_rank (a b : float) :
  is_nan a = false -> is_nan b = false -> (a <=? b) = (rank a <=? rank b)%Z.
Proof.
  intros Ha Hb. rewrite FloatAxioms.leb_spec. unfold SFleb, rank.
  rewrite SFcompare_rank; try apply Prim2SF_valid; try now apply is_nan_Prim2SF.
  rewrite Z.leb_compare. now destruct (_ ?= _)%Z.
Qed.


Lemma leb_numbers (a b : float) :
  (a <=? b) = true -> is_nan a = false /\ is_nan b = false.
Proof.
  rewrite FloatAxioms.leb_spec, !is_nan_Prim2SF. unfold SFleb.
  destruct (Prim2SF a), (Prim2SF b); cbn [SFcompare]; intros H;
    try discriminate H; split; discriminate.
Qed.

Lemma leb_trans (a b c : float) :
  (a <=? b) = true -> (b <=? c) = true -> (a <=? c) = true.
Proof.
  intros Hab Hbc.
  destruct (leb_numbers _ _ Hab) as [Ha Hb], (leb_numbers _ _ Hbc) as [_ Hc].
  rewrite leb_rank in * by assumption.
  apply Z.leb_le. apply Z.leb_le in Hab, Hbc. lia.
Qed.

Lemma abs_nonneg (a : float) : is_nan a = false -> nonneg (PrimFloat.abs a).
Proof.
  intros H. unfold nonneg. rewrite FloatAxioms.abs_spec.
  now apply SFabs_sign, is_nan_Prim2SF.
Qed.

Lemma abs_number (a : float) : is_nan (PrimFloat.abs a) = false -> is_nan a = false.
Proof.
  rewrite !is_nan_Prim2SF, FloatAxioms.abs_spec.
  destruct (Prim2SF a); cbn [SFabs]; congruence.
Qed.

Lemma nonneg_number (a : float) : nonneg a -> is_nan a = false.
Proof.
  intros H. apply is_nan_Prim2SF. unfold nonneg in H.
  intros E. rewrite E in H. exact H.
Qed.

Lemma mul_nonneg (a c : float) (m : positive) (e : Z) :
  Prim2SF c = S754_finite false m e -> nonneg a -> nonneg (a * c).
Proof.
  intros Hc Ha. unfold nonneg. rewrite FloatAxioms.mul_spec, Hc. now apply SFmul_sign.
Qed.

(** [0 <= a] excludes [a < 0]. *)
Lemma leb_not_ltb (a b : float) : (a <=? b) = true -> (b <? a) = false.
Proof.
  rewrite FloatAxioms.leb_spec, FloatAxioms.ltb_spec. unfold SFleb, SFltb.
  rewrite (SFcompare_antisym (Prim2SF a) (Prim2SF b)).
  destruct (SFcompare (Prim2SF a) (Prim2SF b)) as [ [ | | ] | ]; cbn; congruence.
Qed.

Lemma mul_comm (a b : float) : a * b = b * a.
Proof.
  rewrite <- (SF2Prim_Prim2SF (a * b)), <- (SF2Prim_Prim2SF (b * a)).
  now rewrite !FloatAxioms.mul_spec, SFmul_comm.
Qed.



End Float64.


(** ** The host language: sorting and objects *)

Module JSFacts.
Import JS.

Section SortFacts.
Context {A : Type}.
Variable cmp : A -> A -> float.

Lemma insert_perm (x : A) (l : list A) : Permutation (insert cmp x l) (x :: l).
Proof.
  induction l as [ | e l IH ]; cbn [insert]; [ reflexivity | ].
  destruct (0 <? cmp x e)%float; [ | reflexivity ].
  rewrite IH. apply perm_swap.
Qed.

Lemma sort_perm (l : list A) : Permutation (sort cmp l) l.
Proof.
  induction l as [ | x l IH ]; cbn [sort]; [ reflexivity | ].
  rewrite insert_perm. now apply perm_skip.
Qed.

Lemma sort_length (l : list A) : List.length (sort cmp l) = List.length l.
Proof. apply Permutation_length, sort_perm. Qed.

Lemma sort_In (l : list A) (x : A) : In x (sort cmp l) <-> In x l.
Proof.
  split; apply Permutation_in; [ | symmetry ]; apply sort_perm.
Qed.

Lemma sort_Forall (P : A -> Prop) (l : list A) :
  Forall P l -> Forall P (sort cmp l).
Proof.
  intros H. eapply Permutation_Forall; [ symmetry; apply sort_perm | exact H ].
Qed.

End SortFacts.

(** A comparator [(a, b) => key(b) - key(a)] sorts in descending order of
    [key], as long as no key is NaN. *)
Section Descending.
Context {A : Type}.
Variable key : A -> float.

Definition descending (a b : A) : Prop := (key b <=? key a)%float = true.
Definition comparable (a : A) : Prop := is_nan (key a) = false.

Let by_key (a b : A) : float := (key b - key a)%float.

Lemma insert_descending (x : A) (l : list A) :
  comparable x -> Forall comparable l ->
  Sorted descending l -> Sorted descending (insert by_key x l).
Proof.
  intros Hx Hl Hs. induction l as [ | e l IH ]; cbn [insert].
  - repeat constructor.
  - inversion Hl as [ | ? ? He Hl' ]; subst.
    inversion Hs as [ | ? ? Hs' Hhd ]; subst.
    unfold by_key at 1. rewrite Float64.sub_pos_ltb.
    destruct (key x <? key e)%float eqn:E.
    + constructor; [ now apply IH | ].
      destruct l as [ | e' l ]; cbn [insert].
      * constructor. now apply Float64.ltb_leb.
      * destruct (0 <? by_key x e')%float; constructor.
        -- now inversion Hhd.
        -- now apply Float64.ltb_leb.
    + constructor; [ assumption | ].
      constructor. now apply Float64.ltb_false_leb.
Qed.

Lemma sort_descending (l : list A) :
  Forall comparable l -> Sorted descending (sort by_key l).
Proof.
  induction l as [ | x l IH ]; intros H; cbn [sort]; [ constructor | ].
  inversion H; subst.
  apply insert_descending; auto.
  now apply sort_Forall.
Qed.

Lemma firstn_sorted (R : A -> A -> Prop) (n : nat) (l : list A) :
  Sorted R l -> Sorted R (firstn n l).
Proof.
  revert l. induction n as [ | n IH ]; intros l H; [ constructor | ].
  destruct l as [ | x l ]; [ constructor | ].
  inversion H as [ | ? ? Hs Hhd ]; subst. cbn [firstn].
  constructor; [ now apply IH | ].
  destruct l as [ | y l ]; [ rewrite firstn_nil; constructor | ].
  destruct n; [ constructor | ]. constructor. now inversion Hhd.
Qed.

End Descending.

Lemma firstn_In {A : Type} (n : nat) (l : list A) (x : A) :
  In x (firstn n l) -> In x l.
Proof.
  revert l. induction n as [ | n IH ]; intros [ | y l ]; cbn; try tauto.
  intros [ H | H ]; [ now left | right; now apply IH ].
Qed.

Lemma firstn_NoDup {A : Type} (n : nat) (l : list A) : NoDup l -> NoDup (firstn n l).
Proof.
  revert l. induction n as [ | n IH ]; intros l H; [ constructor | ].
  destruct l as [ | x l ]; [ constructor | ].
  inversion H as [ | ? ? Hx Hl ]; subst. cbn [firstn]. constructor; [ | now apply IH ].
  intros Hin. apply Hx. now apply firstn_In in Hin.
Qed.

(** Sums and medians of finite numbers are numbers. *)
Definition finite (x : float) : Prop := is_finite x = true.

Lemma sum_number (l : list float) :
  Forall finite l -> is_nan (JS.sum l) = false.
Proof.
  unfold JS.sum. assert (H0 : is_nan 0 = false) by reflexivity. revert H0.
  generalize 0%float as acc. induction l as [ | x l IH ]; intros acc Hacc H;
    cbn [fold_left]; [ exact Hacc | ].
  inversion H; subst. apply IH; [ | assumption ]. now apply Float64.add_number.
Qed.

Lemma nth_finite (l : list float) (i : nat) :
  Forall finite l -> i < List.length l -> finite (nth i l nan).
Proof.
  intros H Hi. apply (proj1 (Forall_forall finite l) H). now apply nth_In.
Qed.

Lemma middle_number (l : list float) :
  l <> [] -> Forall finite l -> is_nan (middle l) = false.
Proof.
  intros Hl H. unfold middle.
  assert (Hlen : 0 < List.length l) by (destruct l; [ congruence | cbn; lia ]).
  destruct (Nat.odd (List.length l)) eqn:O.
  - apply Float64.is_finite_not_nan, nth_finite; [ exact H | ].
    apply Nat.div_lt; lia.
  - assert (2 <= List.length l).
    { destruct (List.length l) as [ | [ | n ] ]; [ lia | discriminate O | lia ]. }
    assert (List.length l / 2 < List.length l) by (apply Nat.div_lt; lia).
    apply Float64.div_two_number, Float64.add_number.
    + apply Float64.is_finite_not_nan, nth_finite; [ exact H | lia ].
    + now apply nth_finite.
Qed.

(** Numbers in order: [Math.min], [Math.max] and the ascending sort. *)
Section Order.
Local Open Scope float_scope.




















End Order.

(** Objects: the keys stay distinct, and [entries] only reorders. *)
Section ObjectFacts.
Context {A : Type}.

Lemma own_get_In (o : obj A) (k : string) (a : A) :
  own_get o k = Some a -> In (k, a) o.
Proof.
  induction o as [ | [k' a'] o IH ]; cbn [own_get]; [ discriminate | ].
  destruct (String.eqb k' k) eqn:E.
  - apply String.eqb_eq in E. intros [= ->]. subst. now left.
  - intros H. right. now apply IH.
Qed.

Lemma keys_obj_set (o : obj A) (k : string) (a : A) :
  keys (obj_set o k a) = if in_dec string_dec k (keys o) then keys o else keys o ++ [k].
Proof.
  induction o as [ | [k' a'] o IH ]; cbn [obj_set keys map fst]; [ reflexivity | ].
  destruct (String.eqb k' k) eqn:E.
  - apply String.eqb_eq in E. subst.
    destruct (in_dec string_dec k (k :: map fst o)) as [ _ | n ]; [ reflexivity | ].
    exfalso. apply n. now left.
  - apply String.eqb_neq in E. cbn [map fst]. fold (keys (obj_set o k a)). rewrite IH.
    fold (keys o).
    destruct (in_dec string_dec k (keys o)) as [ i | n ];
      destruct (in_dec string_dec k (k' :: keys o)) as [ i' | n' ]; try reflexivity.
    + exfalso. apply n'. now right.
    + destruct i' as [ -> | i' ]; [ now elim E | now elim n ].
Qed.

Lemma keys_obj_set_NoDup (o : obj A) (k : string) (a : A) :
  NoDup (keys o) -> NoDup (keys (obj_set o k a)).
Proof.
  intros H. rewrite keys_obj_set.
  destruct (in_dec string_dec k (keys o)) as [ i | n ]; [ assumption | ].
  apply NoDup_app; [ assumption | repeat constructor; intros [] | ].
  intros x Hx [ <- | [] ]. now apply n.
Qed.

Lemma keys_obj_set_incl (o : obj A) (k : string) (a : A) (x : string) :
  In x (keys (obj_set o k a)) -> x = k \/ In x (keys o).
Proof.
  rewrite keys_obj_set.
  destruct (in_dec string_dec k (keys o)); [ now right | ].
  rewrite in_app_iff. cbn. intuition.
Qed.

Lemma own_get_obj_set_same (o : obj A) (k : string) (a : A) :
  own_get (obj_set o k a) k = Some a.
Proof.
  induction o as [ | [k' a'] o IH ]; cbn [obj_set own_get].
  - now rewrite String.eqb_refl.
  - destruct (String.eqb k' k) eqn:E; cbn [own_get]; rewrite E; [ reflexivity | exact IH ].
Qed.

Lemma own_get_obj_set_other (o : obj A) (k k' : string) (a : A) :
  k <> k' -> own_get (obj_set o k a) k' = own_get o k'.
Proof.
  intros Hk. induction o as [ | [k0 a0] o IH ]; cbn [obj_set own_get].
  - apply String.eqb_neq in Hk. now rewrite Hk.
  - destruct (String.eqb k0 k) eqn:E; cbn [own_get].
    + apply String.eqb_eq in E. subst k0.
      apply String.eqb_neq in Hk. now rewrite Hk.
    + now rewrite IH.
Qed.

Lemma In_obj_set (o : obj A) (k k' : string) (a a' : A) :
  In (k', a') (obj_set o k a) -> a' = a \/ In (k', a') o.
Proof.
  induction o as [ | [k0 a0] o IH ]; cbn [obj_set].
  - intros [ [= _ <-] | [] ]. now left.
  - destruct (String.eqb k0 k); cbn [In].
    + intros [ [= _ <-] | H ]; [ now left | right; now right ].
    + intros [ H | H ]; [ right; now left | ].
      destruct (IH H) as [ -> | H' ]; [ now left | right; now right ].
Qed.

Lemma insert_index_perm (kv : string * A) (l : list (string * A)) :
  Permutation (insert_index kv l) (kv :: l).
Proof.
  induction l as [ | kv' l IH ]; cbn [insert_index]; [ reflexivity | ].
  destruct (index_of (fst kv) <? index_of (fst kv'))%N; [ reflexivity | ].
  rewrite IH. apply perm_swap.
Qed.

Lemma sort_index_perm (l : list (string * A)) : Permutation (sort_index l) l.
Proof.
  induction l as [ | kv l IH ]; cbn; [ reflexivity | ].
  rewrite insert_index_perm. now apply perm_skip.
Qed.

Lemma filter_split_perm {B : Type} (f : B -> bool) (l : list B) :
  Permutation (filter f l ++ filter (fun x => negb (f x)) l) l.
Proof.
  induction l as [ | x l IH ]; cbn [filter]; [ reflexivity | ].
  destruct (f x); cbn [negb app].
  - now apply perm_skip.
  - rewrite <- Permutation_middle. now apply perm_skip.
Qed.

Lemma entries_perm (o : obj A) : Permutation (entries o) o.
Proof.
  unfold entries. rewrite sort_index_perm. apply filter_split_perm.
Qed.

End ObjectFacts.

End JSFacts.

(** ** ChartValidator *)

Module ChartValidatorSpec.
Import ChartValidator.

(** C1. When both columns are of type number, [validateChart] answers
    [valid = false], severity [AUTO_FIX] and the suggestion [scatter] for every
    chart type other than scatter, and [valid = true] for scatter: the rule
    comes before every other one. *)
Theorem validateChart_both_numeric (type : string) (xCol yCol : Column.t) :
  Column.type xCol = "number" ->
  Column.type yCol = "number" ->
  (type <> "scatter" ->
   validateChart type (Some xCol) (Some yCol)
   = {| valid := false; severity := Some AUTO_FIX;
        reason := Some "Both axes are numeric. Switching to Scatter Plot.";
        suggestedType := Some "scatter" |})
  /\ (type = "scatter" ->
      validateChart type (Some xCol) (Some yCol)
      = {| valid := true; severity := None; reason := None;
           suggestedType := None |}).
Proof.
  intros Hx Hy. unfold validateChart, isNumeric. rewrite Hx, Hy. cbn [String.eqb Ascii.eqb Bool.eqb andb].
  split; intros H.
  - apply String.eqb_neq in H. rewrite H. reflexivity.
  - subst type. reflexivity.
Qed.

(** [validateChart('bar', numeric x with 30 distinct values, numeric y)] is an
    [AUTO_FIX] to scatter. *)
Lemma validateChart_both_numeric_bar :
  validateChart "bar" (Some (Examples.numeric "price" 30)) (Some Examples.sales)
  = {| valid := false; severity := Some AUTO_FIX;
       reason := Some "Both axes are numeric. Switching to Scatter Plot.";
       suggestedType := Some "scatter" |}.
Proof.
  refine (proj1 (validateChart_both_numeric "bar" _ _ _ _) _);
    [ reflexivity | reflexivity | discriminate ].
Defined.

(** C2. For a pie or doughnut chart over a non-numeric x column and a y
    column whose minimum is not negative, [validateChart] blocks the chart
    with a "Too many slices" reason exactly when the distinct-value count of
    x exceeds 6, and accepts it when the count is at most 6. *)
Theorem validateChart_pie_slices (type : string) (xCol yCol : Column.t) (n : nat) :
  type = "pie" \/ type = "doughnut" ->
  Column.type xCol <> "number" ->
  hasNegatives yCol = false ->
  Stats.uniqueCount (Column.stats xCol) = Some n ->
  (6 < n ->
   validateChart type (Some xCol) (Some yCol)
   = {| valid := false; severity := Some BLOCK;
        reason := Some ("Too many slices (" ++ JS.nat_to_string n ++ " > 6).")%string;
        suggestedType := None |})
  /\ (n <= 6 ->
      validateChart type (Some xCol) (Some yCol)
      = {| valid := true; severity := None; reason := None;
           suggestedType := None |})
  /\ (valid (validateChart type (Some xCol) (Some yCol)) = false <-> 6 < n).
Proof.
  intros Ht Hx Hy Hn.
  assert (E : validateChart type (Some xCol) (Some yCol)
              = if (6 <? n)%nat
                then blocked ("Too many slices (" ++ JS.nat_to_string n ++ " > 6).")
                else accepted).
  { unfold validateChart, isNumeric, uniqueX. rewrite Hy, Hn.
    apply String.eqb_neq in Hx. rewrite Hx. cbn [andb negb orb].
    destruct Ht as [ -> | -> ]; reflexivity. }
  rewrite E. destruct (Nat.ltb_spec 6 n) as [ H | H ]; cbn [valid blocked accepted].
  - repeat split; try reflexivity; intros; try lia; assumption.
  - repeat split; try reflexivity; intros; try lia; discriminate.
Qed.

(** [validateChart('pie', category x with 7 distinct values, numeric y)] is
    blocked: too many slices. *)
Lemma validateChart_pie_slices_seven :
  validateChart "pie" (Some (Examples.category 7)) (Some Examples.sales)
  = {| valid := false; severity := Some BLOCK;
       reason := Some "Too many slices (7 > 6).";
       suggestedType := None |}.
Proof.
  refine (proj1 (validateChart_pie_slices "pie" (Examples.category 7) Examples.sales 7
                   _ _ _ _) _);
    [ left; reflexivity | discriminate | reflexivity | reflexivity | lia ].
Defined.

End ChartValidatorSpec.

(** ** ChartValidator on the columns of [processData] *)

Module ProcessedColumnSpec.
Import ChartValidator DataProcessor.

Section WithHost.
Context {host : JS.Host}.

Lemma calculateStats_number_uniqueCount (values : list JS.value) :
  Stats.uniqueCount (calculateStats values "number") = None.
Proof.
  unfold calculateStats.
  destruct (List.length (filter (fun v => negb (JS.nullish v)) values) =? 0)%nat;
    reflexivity.
Qed.

Lemma calculateStats_date_uniqueCount (values : list JS.value) :
  Stats.uniqueCount (calculateStats values "date") = None.
Proof.
  unfold calculateStats.
  destruct (List.length (filter (fun v => negb (JS.nullish v)) values) =? 0)%nat;
    reflexivity.
Qed.

(** C9. [validateChart] reads a missing [uniqueCount] as 0, and the
    statistics that [calculateStats] gives a number or date column carry
    none. Hence a pie or doughnut chart over a date column of [processData]
    and a y column whose minimum is not negative is accepted, and on a column
    of [processData] the bar rule never answers with its numeric-x
    [AUTO_FIX]. *)
Theorem validateChart_missing_uniqueCount :
  (forall xCol : Column.t,
      Stats.uniqueCount (Column.stats xCol) = None -> uniqueX xCol = 0)
  /\ (forall values : list JS.value,
         Stats.uniqueCount (calculateStats values "number") = None
         /\ Stats.uniqueCount (calculateStats values "date") = None)
  /\ (forall (type key label : string) (values : list JS.value) (yCol : Column.t),
         type = "pie" \/ type = "doughnut" ->
         hasNegatives yCol = false ->
         validateChart type (Some (processData_column key "date" label values))
                       (Some yCol)
         = {| valid := true; severity := None; reason := None;
              suggestedType := None |})
  /\ (forall (key type label : string) (values : list JS.value) (yCol : Column.t),
         validateChart "bar" (Some (processData_column key type label values))
                       (Some yCol)
         <> {| valid := false; severity := Some AUTO_FIX;
               reason := Some "Continuous numeric X-axis. Switching to Scatter.";
               suggestedType := Some "scatter" |}).
Proof.
  split; [ | split; [ | split ] ].
  - intros xCol H. unfold uniqueX. now rewrite H.
  - intros values. split;
      [ apply calculateStats_number_uniqueCount | apply calculateStats_date_uniqueCount ].
  - intros type key label values yCol Ht Hy.
    unfold validateChart, isNumeric, uniqueX, processData_column.
    cbn [Column.type Column.stats]. rewrite calculateStats_date_uniqueCount, Hy.
    destruct Ht as [ -> | -> ]; reflexivity.
  - intros key type label values yCol.
    unfold validateChart, isNumeric, uniqueX, processData_column.
    cbn [Column.type Column.stats].
    destruct (String.eqb type "number") eqn:Ex.
    + apply String.eqb_eq in Ex. subst type.
      rewrite calculateStats_number_uniqueCount.
      destruct (String.eqb (Column.type yCol) "number"); cbn; discriminate.
    + cbn [andb negb orb String.eqb Ascii.eqb Bool.eqb].
      destruct (20 <? _)%nat; discriminate.
Qed.

End WithHost.

(** A pie chart of the numeric column [sales] by the date column [day],
    both described by [processData], is accepted. *)
Lemma validateChart_missing_uniqueCount_day :
  validateChart "pie" (Some Examples.day) (Some Examples.sales)
  = {| valid := true; severity := None; reason := None; suggestedType := None |}.
Proof.
  refine (proj1 (proj2 (proj2 (@validateChart_missing_uniqueCount Examples.plain_host)))
            "pie" "day" "Day" _ Examples.sales _ _);
    [ left; reflexivity | reflexivity ].
Defined.

End ProcessedColumnSpec.

(** ** DataProcessor: [aggregateData] *)

Module AggregateSpec.
Import JS JSFacts DataProcessor.

Section WithHost.
Context {host : Host}.
Variables groupByCol metricCol : string.

(** A row that takes part in the grouping. *)
Definition grouping (r : row) : Prop :=
  nullish (cell r groupByCol) = false /\ nullish (cell r metricCol) = false.

Lemma fold_group_row_Throws (data : list row) (e : string) :
  fold_left (group_row groupByCol metricCol) data (Throws e) = Throws e.
Proof. induction data as [ | r data IH ]; [ reflexivity | exact IH ]. Qed.

Lemma push_group_inv (groups groups' : obj (list float)) (k : string) (v : float) :
  push_group groups k v = Returns groups' ->
  (NoDup (keys groups) -> NoDup (keys groups'))
  /\ (forall x, In x (keys groups') -> x = k \/ In x (keys groups)).
Proof.
  unfold push_group. destruct (own_get groups k) as [ values | ] eqn:E.
  - intros [= <-]. split; [ apply keys_obj_set_NoDup | apply keys_obj_set_incl ].
  - destruct (inherited k); [ discriminate | ]. intros [= <-].
    split; [ apply keys_obj_set_NoDup | apply keys_obj_set_incl ].
Qed.

(** The keys of [groups] are distinct, and each is the string form of the
    group cell of a row that takes part. *)
Lemma fold_group_row_keys (data : list row) :
  forall acc groups : obj (list float),
    fold_left (group_row groupByCol metricCol) data (Returns acc) = Returns groups ->
    (NoDup (keys acc) -> NoDup (keys groups))
    /\ (forall k, In k (keys groups) ->
                  In k (keys acc)
                  \/ exists r, In r data /\ grouping r
                               /\ k = to_string (cell r groupByCol)).
Proof.
  induction data as [ | r data IH ]; intros acc groups H; cbn [fold_left] in H.
  - injection H as <-. split; [ auto | intros k Hk; now left ].
  - unfold group_row at 2 in H.
    destruct (nullish (cell r groupByCol) || nullish (cell r metricCol)) eqn:N.
    + destruct (IH _ _ H) as [ H1 H2 ]. split; [ exact H1 | ].
      intros k Hk. destruct (H2 k Hk) as [ Hacc | (r' & Hr' & Hg & ->) ];
        [ now left | right; exists r'; cbn [In]; auto ].
    + apply orb_false_iff in N.
      destruct (push_group acc (to_string (cell r groupByCol))
                  (to_number (cell r metricCol))) as [ acc' | e ] eqn:P.
      * destruct (push_group_inv _ _ _ _ P) as [ P1 P2 ].
        destruct (IH _ _ H) as [ H1 H2 ]. split; [ auto | ].
        intros k Hk. destruct (H2 k Hk) as [ Hacc | (r' & Hr' & Hg & ->) ].
        -- destruct (P2 k Hacc) as [ -> | Hacc' ]; [ | now left ].
           right. exists r. cbn [In]. unfold grouping. auto.
        -- right. exists r'. cbn [In]. auto.
      * rewrite fold_group_row_Throws in H. discriminate H.
Qed.

(** The grouping ends without an error when no group key names an
    inherited property. *)
Lemma fold_group_row_returns (data : list row) :
  (forall r, In r data -> grouping r ->
             inherited (to_string (cell r groupByCol)) = false) ->
  forall acc, exists groups,
    fold_left (group_row groupByCol metricCol) data (Returns acc) = Returns groups.
Proof.
  induction data as [ | r data IH ]; intros Hd acc; cbn [fold_left].
  - now exists acc.
  - assert (Hd' : forall r', In r' data -> grouping r' ->
                             inherited (to_string (cell r' groupByCol)) = false).
    { intros r' Hr'. apply Hd. now right. }
    unfold group_row at 2.
    destruct (nullish (cell r groupByCol) || nullish (cell r metricCol)) eqn:N;
      [ now apply IH | ].
    apply orb_false_iff in N.
    unfold push_group. rewrite (Hd r (or_introl eq_refl) N).
    destruct (own_get acc _); now apply IH.
Qed.

Lemma metric_entry (k : string) (v : float) :
  metric metricCol (entry groupByCol metricCol k v) = v.
Proof.
  unfold metric, cell, entry. now rewrite own_get_obj_set_same.
Qed.

Lemma cell_entry (k : string) (v : float) :
  groupByCol <> metricCol ->
  cell (entry groupByCol metricCol k v) groupByCol = VStr k.
Proof.
  intros H. unfold cell, entry.
  rewrite own_get_obj_set_other by congruence.
  now rewrite own_get_obj_set_same.
Qed.

Lemma summarised_length (groups : obj (list float)) (method : string) :
  List.length (summarised groups groupByCol metricCol method) = List.length (keys groups).
Proof.
  unfold summarised, keys. rewrite !length_map.
  apply Permutation_length, entries_perm.
Qed.

Lemma summarised_In (groups : obj (list float)) (method : string) (e : row) :
  In e (summarised groups groupByCol metricCol method) ->
  exists k values, In (k, values) groups
                   /\ e = entry groupByCol metricCol k (aggregate method values).
Proof.
  unfold summarised. rewrite in_map_iff. intros ([k values] & <- & Hin).
  exists k, values. split; [ | reflexivity ].
  eapply Permutation_in; [ apply entries_perm | exact Hin ].
Qed.

(** What [aggregateData] returns, once the grouping has returned. *)
Lemma aggregateData_unfold (data : list row) (method : string) (limit : option Z)
  (groups : obj (list float)) :
  grouped data groupByCol metricCol = Returns groups ->
  let sorted :=
    sort (fun a b => (metric metricCol b - metric metricCol a)%float)
         (summarised groups groupByCol metricCol method) in
  aggregateData data groupByCol metricCol method limit
  = Returns
      match limit with
      | Some l =>
          if ((0 <? l) && (l <? Z.of_nat (List.length sorted)))%Z
          then firstn (Z.to_nat l) sorted else sorted
      | None => sorted
      end.
Proof.
  intros H sorted. unfold aggregateData. rewrite H. fold sorted.
  destruct limit as [ l | ]; [ | reflexivity ].
  destruct ((0 <? l) && (l <? Z.of_nat (List.length sorted)))%Z; reflexivity.
Qed.

Lemma aggregateData_grouped (data : list row) (method : string) (limit : option Z)
  (out : list row) :
  aggregateData data groupByCol metricCol method limit = Returns out ->
  exists groups, grouped data groupByCol metricCol = Returns groups.
Proof.
  unfold aggregateData.
  destruct (grouped data groupByCol metricCol) as [ groups | e ]; [ eauto | discriminate ].
Qed.

(** Each group holds at least one value, and no more values than there are
    rows; they are finite when the metric cells of the rows that take part
    read as finite numbers. *)
Definition well_filled (n : nat) (groups : obj (list float)) : Prop :=
  forall k values, In (k, values) groups ->
                   values <> [] /\ Forall finite values /\ List.length values <= n.

Lemma fold_group_row_values (data : list row) :
  (forall r, In r data -> grouping r -> finite (to_number (cell r metricCol))) ->
  forall (n : nat) (acc groups : obj (list float)),
    well_filled n acc ->
    fold_left (group_row groupByCol metricCol) data (Returns acc) = Returns groups ->
    well_filled (n + List.length data) groups.
Proof.
  induction data as [ | r data IH ]; intros Hd n acc groups Hacc H; cbn [fold_left] in H.
  - injection H as <-. cbn. now rewrite Nat.add_0_r.
  - assert (Hd' : forall r', In r' data -> grouping r' ->
                             finite (to_number (cell r' metricCol))).
    { intros r' Hr'. apply Hd. now right. }
    cbn [List.length]. rewrite <- Nat.add_succ_comm.
    unfold group_row at 2 in H.
    destruct (nullish (cell r groupByCol) || nullish (cell r metricCol)) eqn:N.
    + apply (IH Hd' (S n) acc groups); [ | exact H ].
      intros k values Hk. destruct (Hacc k values Hk) as (H1 & H2 & H3). auto.
    + apply orb_false_iff in N.
      pose proof (Hd r (or_introl eq_refl) N) as Hfin.
      unfold push_group in H.
      destruct (own_get acc (to_string (cell r groupByCol))) as [ old | ] eqn:G.
      * refine (IH Hd' (S n) _ groups _ H).
        intros k values Hk. apply In_obj_set in Hk. destruct Hk as [ -> | Hk ].
        -- apply own_get_In in G. destruct (Hacc _ _ G) as (H1 & H2 & H3).
           split; [ now destruct old | ]. split.
           ++ apply Forall_app. split; [ exact H2 | now constructor ].
           ++ rewrite length_app. cbn. lia.
        -- destruct (Hacc k values Hk) as (H1 & H2 & H3). auto.
      * destruct (inherited (to_string (cell r groupByCol)));
          [ rewrite fold_group_row_Throws in H; discriminate H | ].
        refine (IH Hd' (S n) _ groups _ H).
        intros k values Hk. apply In_obj_set in Hk. destruct Hk as [ -> | Hk ].
        -- split; [ discriminate | ]. split; [ now constructor | cbn; lia ].
        -- destruct (Hacc k values Hk) as (H1 & H2 & H3). auto.
Qed.

Lemma aggregate_number (method : string) (values : list float) :
  values <> [] -> Forall finite values ->
  (Z.of_nat (List.length values) < 2 ^ 63)%Z ->
  is_nan (aggregate method values) = false.
Proof.
  intros Hne Hfin Hlen. unfold aggregate.
  destruct (String.eqb method "count"); [ apply Float64.num_of_nat_number | ].
  destruct (String.eqb method "sum"); [ now apply sum_number | ].
  destruct (String.eqb method "mean").
  { apply Float64.div_count_number; [ | now apply sum_number ].
    destruct values; [ congruence | cbn [List.length] in *; lia ]. }
  destruct (String.eqb method "median"); [ | reflexivity ].
  apply middle_number; [ | now apply sort_Forall ].
  intros E. apply (f_equal (@List.length float)) in E.
  rewrite sort_length in E. destruct values; [ congruence | discriminate E ].
Qed.

(** C5, as amended. Whenever [aggregateData] returns - and it does when no
    group key names a property inherited from [Object.prototype] - the
    sequence it returns has at most as many entries as there are distinct
    non-null group values, at most [limit] entries when a positive limit is
    given, and is sorted in descending order of the aggregated value
    provided that no group's aggregated value is NaN; none is when the
    metric cell of every grouped row reads as a finite number. *)
Theorem aggregateData_sorted_and_bounded (data : list row) (method : string)
  (limit : option Z) :
  ((forall r, In r data -> grouping r ->
              inherited (to_string (cell r groupByCol)) = false) ->
   exists out, aggregateData data groupByCol metricCol method limit = Returns out)
  /\ forall out : list row,
      aggregateData data groupByCol metricCol method limit = Returns out ->
      ((forall groups k values,
           grouped data groupByCol metricCol = Returns groups ->
           In (k, values) groups -> is_nan (aggregate method values) = false) ->
       Sorted (descending (metric metricCol)) out)
      /\ ((forall r, In r data -> grouping r ->
                     is_finite (to_number (cell r metricCol)) = true) ->
          (Z.of_nat (List.length data) < 2 ^ 63)%Z ->
          Sorted (descending (metric metricCol)) out)
      /\ (forall ks : list value,
             (forall r, In r data -> nullish (cell r groupByCol) = false ->
                        In (cell r groupByCol) ks) ->
             List.length out <= List.length ks)
      /\ (forall l : Z, limit = Some l -> (0 < l)%Z ->
                        (Z.of_nat (List.length out) <= l)%Z).
Proof.
  split.
  - intros Hd. destruct (fold_group_row_returns data Hd []) as [ groups Hg ].
    eexists. apply (aggregateData_unfold data method limit groups Hg).
  - intros out Hout.
    destruct (aggregateData_grouped _ _ _ _ Hout) as [ groups Hg ].
    rewrite (aggregateData_unfold data method limit groups Hg) in Hout.
    injection Hout as <-.
    set (sorted := sort _ (summarised groups groupByCol metricCol method)).
    assert (Hlen : List.length sorted = List.length (keys groups)).
    { unfold sorted. now rewrite sort_length, summarised_length. }
    assert (Hsorted :
              (forall k values, In (k, values) groups ->
                                is_nan (aggregate method values) = false) ->
              Sorted (descending (metric metricCol))
                match limit with
                | Some l =>
                    if ((0 <? l) && (l <? Z.of_nat (List.length sorted)))%Z
                    then firstn (Z.to_nat l) sorted else sorted
                | None => sorted
                end).
    { intros Hnan.
      assert (Hs : Sorted (descending (metric metricCol)) sorted).
      { apply sort_descending. apply Forall_forall. intros e He.
        apply summarised_In in He. destruct He as (k & values & Hin & ->).
        unfold comparable. rewrite metric_entry. now apply (Hnan k values). }
      destruct limit as [ l | ]; [ | exact Hs ].
      destruct ((0 <? l) && (l <? Z.of_nat (List.length sorted)))%Z;
        [ now apply firstn_sorted | exact Hs ]. }
    split; [ | split; [ | split ] ].
    + intros Hnan. apply Hsorted. intros k values. now apply Hnan.
    + intros Hfin Hdata. apply Hsorted. intros k values Hk.
      assert (Hw : well_filled (0 + List.length data) groups).
      { apply (fold_group_row_values data Hfin 0 [] groups); [ intros ? ? [] | exact Hg ]. }
      destruct (Hw k values Hk) as (H1 & H2 & H3).
      apply aggregate_number; [ exact H1 | exact H2 | cbn in H3; lia ].
    + intros ks Hks.
      assert (Hbound : List.length sorted <= List.length ks).
      { rewrite Hlen, <- (length_map to_string ks).
        destruct (fold_group_row_keys data [] groups Hg) as [ Hnd Hin ].
        apply NoDup_incl_length; [ apply Hnd; constructor | ].
        intros k Hk. destruct (Hin k Hk) as [ [] | (r & Hr & [ Hg1 _ ] & ->) ].
        apply in_map. now apply Hks. }
      destruct limit as [ l | ]; [ | exact Hbound ].
      destruct ((0 <? l) && (l <? Z.of_nat (List.length sorted)))%Z; [ | exact Hbound ].
      rewrite length_firstn. lia.
    + intros l -> Hl.
      destruct ((0 <? l) && (l <? Z.of_nat (List.length sorted)))%Z eqn:E.
      * rewrite length_firstn. lia.
      * apply andb_false_iff in E. destruct E as [ E | E ]; lia.
Qed.

(** C10, as amended. When the group column and the metric column have
    different names, the group field of every entry that [aggregateData]
    returns holds a string: the string form of the group cell of a row that
    takes part, whatever the type of that cell. *)
Theorem aggregateData_group_key_string (data : list row) (method : string)
  (limit : option Z) (out : list row) :
  groupByCol <> metricCol ->
  aggregateData data groupByCol metricCol method limit = Returns out ->
  forall e, In e out ->
            exists r, In r data /\ grouping r
                      /\ cell e groupByCol = VStr (to_string (cell r groupByCol)).
Proof.
  intros Hne Hout e He.
  destruct (aggregateData_grouped _ _ _ _ Hout) as [ groups Hg ].
  rewrite (aggregateData_unfold data method limit groups Hg) in Hout.
  injection Hout as <-.
  assert (Hin : In e (summarised groups groupByCol metricCol method)).
  { apply (sort_In (fun a b => (metric metricCol b - metric metricCol a)%float)).
    destruct limit as [ l | ]; [ | exact He ].
    destruct ((0 <? l) && _)%Z; [ now apply firstn_In in He | exact He ]. }
  apply summarised_In in Hin. destruct Hin as (k & values & Hk & ->).
  destruct (fold_group_row_keys data [] groups Hg) as [ _ Hkeys ].
  destruct (Hkeys k) as [ [] | (r & Hr & Hgr & ->) ].
  { unfold keys. change k with (fst (k, values)). now apply in_map. }
  exists r. split; [ exact Hr | ]. split; [ exact Hgr | ]. now apply cell_entry.
Qed.

End WithHost.

(** C3, as amended. On the three rows of the specification, the sum of
    [sales] by [region] is the group [A] (40) followed by the group [B]
    (20): the descending order. *)
Theorem aggregateData_region_sales (host : Host) :
  aggregateData Examples.region_sales "region" "sales" "sum" None
  = Returns [ [("region", VStr "A"); ("sales", VNum 40)];
              [("region", VStr "B"); ("sales", VNum 20)] ].
Proof. reflexivity. Qed.

(** C3, as stated, fails: the entry of [B] does not come first. *)
Lemma aggregateData_region_sales_not_B_first :
  (forall host : Host,
      aggregateData Examples.region_sales "region" "sales" "sum" None
      = Returns [ [("region", VStr "A"); ("sales", VNum 40)];
                  [("region", VStr "B"); ("sales", VNum 20)] ])
  /\ Returns [ [("region", VStr "A"); ("sales", VNum 40)];
               [("region", VStr "B"); ("sales", VNum 20)] ]
     <> Returns [ [("region", VStr "B"); ("sales", VNum 20)];
                  [("region", VStr "A"); ("sales", VNum 40)] ].
Proof. split; [ intros host; reflexivity | discriminate ]. Qed.

(** C5, as stated, fails: a NaN among the aggregated values is left where
    the groups were met, here in front of a larger value. *)
Lemma aggregateData_nan_unsorted :
  (forall host : Host,
      aggregateData [ [("k", VStr "a"); ("v", VNum nan)];
                      [("k", VStr "b"); ("v", VNum 1)] ] "k" "v" "sum" None
      = Returns [ [("k", VStr "a"); ("v", VNum nan)];
                  [("k", VStr "b"); ("v", VNum 1)] ])
  /\ (forall host : Host,
         ~ Sorted (descending (metric "v"))
             [ [("k", VStr "a"); ("v", VNum nan)];
               [("k", VStr "b"); ("v", VNum 1)] ]).
Proof.
  split; intros host; [ reflexivity | ].
  intros H. inversion H as [ | ? ? _ Hhd ]; subst.
  inversion Hhd as [ | ? ? Hd ]; subst. discriminate Hd.
Qed.

(** C10, as stated, fails: with one column as group and metric, the
    field holds the aggregated number. *)
Lemma aggregateData_same_column :
  (forall host : Host,
      aggregateData [ [("a", VStr "x")]; [("a", VStr "x")] ] "a" "a" "count" None
      = Returns [ [("a", VNum 2)] ])
  /\ cell [("a", VNum 2)] "a" <> VStr "x".
Proof. split; [ intros host; reflexivity | discriminate ]. Qed.

(** The sum of [sales] by [region], under a limit of one entry: the
    grouping returns, and the one entry it keeps is bounded by the limit. *)
Lemma aggregateData_sorted_and_bounded_region_sales :
  (exists out,
      @aggregateData Examples.plain_host Examples.region_sales "region" "sales"
        "sum" (Some 1%Z) = Returns out)
  /\ Sorted (descending (@metric Examples.plain_host "sales"))
       [ [("region", VStr "A"); ("sales", VNum 40)] ]
  /\ (Z.of_nat 1 <= 1)%Z.
Proof.
  pose proof (@aggregateData_sorted_and_bounded Examples.plain_host
                "region" "sales" Examples.region_sales "sum" (Some 1%Z)) as [ H1 H2 ].
  split.
  - apply H1. intros r [ <- | [ <- | [ <- | [] ] ] ] _; reflexivity.
  - specialize (H2 [ [("region", VStr "A"); ("sales", VNum 40)] ] eq_refl).
    destruct H2 as (_ & Hs & _ & Hl). split.
    + apply Hs; [ | cbn; lia ].
      intros r [ <- | [ <- | [ <- | [] ] ] ] _; reflexivity.
    + apply (Hl 1%Z eq_refl). lia.
Defined.

(** In the sum of [sales] by [region], the group field of the first entry
    is the string of a region. *)
Lemma aggregateData_group_key_string_region_sales :
  exists r, In r Examples.region_sales
            /\ @grouping "region" "sales" r
            /\ cell [("region", VStr "A"); ("sales", VNum 40)] "region"
               = VStr (@to_string Examples.plain_host (cell r "region")).
Proof.
  apply (@aggregateData_group_key_string Examples.plain_host "region" "sales"
           Examples.region_sales "sum" None
           [ [("region", VStr "A"); ("sales", VNum 40)];
             [("region", VStr "B"); ("sales", VNum 20)] ]);
    [ discriminate | reflexivity | left; reflexivity ].
Defined.

End AggregateSpec.

(** ** DataProcessor: [sampleData] *)

Module SampleSpec.
Import DataProcessor.

Section Sampling.
Context {A : Type}.
Variable undefined : A.

Lemma set_add_In (i : nat) (indices : list nat) (x : nat) :
  In x (set_add i indices) <-> x = i \/ In x indices.
Proof.
  unfold set_add. destruct (existsb (Nat.eqb i) indices) eqn:E.
  - apply existsb_exists in E. destruct E as (y & Hy & Ey).
    apply Nat.eqb_eq in Ey. subst y. split; [ now right | ].
    intros [ -> | H ]; assumption.
  - rewrite in_app_iff. cbn. intuition.
Qed.

Lemma set_add_NoDup (i : nat) (indices : list nat) :
  NoDup indices -> NoDup (set_add i indices).
Proof.
  intros H. unfold set_add. destruct (existsb (Nat.eqb i) indices) eqn:E; [ exact H | ].
  apply NoDup_app; [ exact H | repeat constructor; intros [] | ].
  intros x Hx [ Hi | [] ]. subst x.
  assert (T : existsb (Nat.eqb i) indices = true);
    [ apply existsb_exists; exists i; split; [ exact Hx | apply Nat.eqb_refl ] | congruence ].
Qed.

Lemma set_add_length (i : nat) (indices : list nat) :
  List.length (set_add i indices) <= S (List.length indices).
Proof.
  unfold set_add. destruct (existsb (Nat.eqb i) indices); [ lia | ].
  rewrite length_app. cbn. lia.
Qed.

(** When the loop ends, it has gathered [limit] distinct indices, each of
    them drawn or already there. *)
Lemma draw_inv (limit : nat) (P : nat -> Prop) (draws : list nat) :
  forall indices out,
    draw limit indices draws = Some out ->
    NoDup indices -> Forall P indices -> Forall P draws ->
    List.length indices <= limit ->
    NoDup out /\ Forall P out /\ List.length out = limit.
Proof.
  induction draws as [ | idx draws IH ]; intros indices out H Hnd HP Hd Hlen;
    cbn [draw] in H; destruct (Nat.ltb_spec (List.length indices) limit) as [ L | L ];
    try discriminate H.
  - injection H as <-. repeat split; [ assumption | assumption | lia ].
  - inversion Hd; subst.
    apply (IH _ _ H); [ now apply set_add_NoDup | | assumption | ].
    + apply Forall_forall. intros x Hx. apply set_add_In in Hx.
      destruct Hx as [ -> | Hx ]; [ assumption | ].
      now apply (proj1 (Forall_forall P indices) HP).
    + pose proof (set_add_length idx indices). lia.
  - injection H as <-. repeat split; [ assumption | assumption | lia ].
Qed.

Lemma nodup_length_incl (l l' : list nat) :
  incl l l' ->
  List.length (nodup Nat.eq_dec l) <= List.length (nodup Nat.eq_dec l').
Proof.
  intros H. apply NoDup_incl_length; [ apply NoDup_nodup | ].
  intros x Hx. apply nodup_In. apply H. now apply nodup_In in Hx.
Qed.

Lemma nodup_length_le (l : list nat) :
  List.length (nodup Nat.eq_dec l) <= List.length l.
Proof.
  apply NoDup_incl_length; [ apply NoDup_nodup | ].
  intros x Hx. now apply nodup_In in Hx.
Qed.

(** The loop ends as soon as the draws have shown [limit] distinct
    indices. *)
Lemma draw_ends (limit : nat) (draws : list nat) :
  forall indices,
    limit <= List.length (nodup Nat.eq_dec (indices ++ draws)) ->
    exists out, draw limit indices draws = Some out.
Proof.
  induction draws as [ | idx draws IH ]; intros indices H; cbn [draw];
    destruct (Nat.ltb_spec (List.length indices) limit) as [ L | L ]; eauto.
  - rewrite app_nil_r in H. pose proof (nodup_length_le indices). lia.
  - apply IH. etransitivity; [ exact H | ]. apply nodup_length_incl.
    intros x Hx. apply in_app_iff in Hx. apply in_app_iff.
    rewrite set_add_In. cbn [In] in Hx. intuition.
Qed.

(** C8. [sampleData] returns the rows themselves when there are at most
    [limit] of them. Otherwise it returns, as soon as the random draws have
    shown [limit] distinct indices, exactly [limit] elements: the rows at
    [limit] pairwise distinct indices. *)
Theorem sampleData_spec (rows : list A) (limit : nat) (draws : list nat) :
  (List.length rows <= limit ->
   sampleData undefined (Some rows) limit draws = Done (Some rows))
  /\ (limit < List.length rows ->
      Forall (fun i => i < List.length rows) draws ->
      (limit <= List.length (nodup Nat.eq_dec draws) ->
       exists out, sampleData undefined (Some rows) limit draws = Done (Some out))
      /\ forall out,
          sampleData undefined (Some rows) limit draws = Done (Some out) ->
          List.length out = limit
          /\ exists indices,
              NoDup indices
              /\ Forall (fun i => i < List.length rows) indices
              /\ List.length indices = limit
              /\ out = map (fun i => nth i rows undefined) indices).
Proof.
  unfold sampleData. split.
  - intros H. apply Nat.leb_le in H. now rewrite H.
  - intros H Hd. apply Nat.leb_gt in H. rewrite H. split.
    + intros Hn. destruct (draw_ends limit draws [] Hn) as [ indices Hi ].
      rewrite Hi. eauto.
    + intros out Hout.
      destruct (draw limit [] draws) as [ indices | ] eqn:Hi; [ | discriminate ].
      injection Hout as <-.
      destruct (draw_inv limit (fun i => i < List.length rows) draws [] indices Hi)
        as (H1 & H2 & H3);
        [ constructor | constructor | exact Hd | cbn; lia | ].
      split; [ now rewrite length_map | ].
      exists indices. auto.
Qed.

End Sampling.

(** Three of five rows, from draws that repeat themselves. *)
Lemma sampleData_spec_three_of_five :
  sampleData 0 (Some [10; 20; 30; 40; 50]) 3 [4; 4; 1; 4; 0; 2]
  = Done (Some [50; 20; 10])
  /\ List.length [50; 20; 10] = 3.
Proof.
  pose proof (proj2 (sampleData_spec 0 [10; 20; 30; 40; 50] 3 [4; 4; 1; 4; 0; 2]))
    as H.
  split; [ reflexivity | ].
  refine (proj1 (proj2 (H _ _) [50; 20; 10] eq_refl)).
  - cbn. lia.
  - repeat constructor; cbn; lia.
Defined.

End SampleSpec.

(** ** RecommendationEngine *)

Module RecommendationSpec.
Import JS JSFacts RecommendationEngine.

Definition is_line (r : Rec.t) : bool := String.eqb (Rec.type r) "line".

(** A candidate of the distribution or of the category rule: not a line
    chart, and scored below the 90 of a trend. *)
Definition low (r : Rec.t) : Prop :=
  is_line r = false
  /\ (Rec.score r = 50%float \/ Rec.score r = 70%float
      \/ Rec.score r = 75%float \/ Rec.score r = 80%float).

Lemma filter_none {A : Type} (f : A -> bool) (l : list A) :
  Forall (fun x => f x = false) l -> filter f l = [].
Proof.
  induction 1 as [ | x l Hx _ IH ]; cbn [filter]; [ reflexivity | ].
  now rewrite Hx.
Qed.

Lemma filter_all {A : Type} (f : A -> bool) (l : list A) :
  Forall (fun x => f x = true) l -> filter f l = l.
Proof.
  induction 1 as [ | x l Hx _ IH ]; cbn [filter]; [ reflexivity | ].
  now rewrite Hx, IH.
Qed.

Lemma distribution_low (col : Column.t) : Forall low (distribution col).
Proof.
  unfold distribution. destruct (exceeds (Stats.stdDev _) 0); [ | constructor ].
  constructor; [ | constructor ]. split; [ reflexivity | ]. cbn [Rec.score].
  destruct (exceeds (Stats.variance _) 1000); [ right; left | left ]; reflexivity.
Qed.

Lemma comparison_low (numericCols : list Column.t) (catCol : Column.t) :
  Forall low (comparison numericCols catCol).
Proof.
  unfold comparison. destruct (count_exceeds _ 50); [ constructor | ].
  apply Forall_flat_map, Forall_forall. intros numCol _.
  apply Forall_app. split.
  - destruct (count_at_most _ 6 && min_non_negative numCol); [ | constructor ].
    constructor; [ | constructor ].
    split; [ reflexivity | right; right; left; reflexivity ].
  - constructor; [ | constructor ].
    split; [ reflexivity | right; right; right; reflexivity ].
Qed.

Section WithHost.
Context {host : Host}.

Lemma correlated_not_line (data : list row) (numericCols : list Column.t)
  (colA colB : Column.t) :
  Forall (fun r => is_line r = false) (correlated data numericCols colA colB).
Proof.
  unfold correlated. destruct (0.3 <=? _)%float; [ | constructor ].
  constructor; [ reflexivity | ].
  destruct (find _ numericCols); repeat constructor.
Qed.

Lemma pairs_not_line (data : list row) (numericCols cols : list Column.t) :
  Forall (fun r => is_line r = false) (pairs data numericCols cols).
Proof.
  induction cols as [ | colA rest IH ]; cbn [pairs]; [ constructor | ].
  apply Forall_app. split; [ | exact IH ].
  apply Forall_flat_map, Forall_forall. intros colB _. apply correlated_not_line.
Qed.

Definition by_score (a b : Rec.t) : float := (Rec.score b - Rec.score a)%float.

Lemma insert_low_after_trend (dateCol numCol : Column.t) (x : Rec.t) (l : list Rec.t) :
  low x ->
  insert by_score x (trend dateCol numCol :: l)
  = trend dateCol numCol :: insert by_score x l.
Proof.
  intros [ _ H ]. cbn [insert]. unfold by_score at 1. cbn [Rec.score trend].
  destruct H as [ -> | [ -> | [ -> | -> ] ] ]; reflexivity.
Qed.

Lemma insert_trend_first (dateCol numCol : Column.t) (l : list Rec.t) :
  Forall low l ->
  insert by_score (trend dateCol numCol) l = trend dateCol numCol :: l.
Proof.
  intros H. destruct H as [ | e l [ _ He ] _ ]; cbn [insert]; [ reflexivity | ].
  unfold by_score. cbn [Rec.score trend].
  destruct He as [ -> | [ -> | [ -> | -> ] ] ]; reflexivity.
Qed.

(** A single trend among low candidates is sorted to the front. *)
Lemma sort_trend_first (dateCol numCol : Column.t) (l1 l2 : list Rec.t) :
  Forall low l1 -> Forall low l2 ->
  sort by_score (l1 ++ trend dateCol numCol :: l2)
  = trend dateCol numCol :: sort by_score (l1 ++ l2).
Proof.
  intros H1 H2. induction H1 as [ | x l1 Hx _ IH ].
  - cbn [app]. change (sort by_score (trend dateCol numCol :: l2))
      with (insert by_score (trend dateCol numCol) (sort by_score l2)).
    apply insert_trend_first. now apply sort_Forall.
  - change (sort by_score ((x :: l1) ++ trend dateCol numCol :: l2))
      with (insert by_score x (sort by_score (l1 ++ trend dateCol numCol :: l2))).
    rewrite IH. now apply insert_low_after_trend.
Qed.

Lemma unique_In (seen : list string) (recs : list Rec.t) (r : Rec.t) :
  In r (unique seen recs) -> In r recs.
Proof.
  revert seen. induction recs as [ | x recs IH ]; intros seen; cbn [unique]; [ tauto | ].
  destruct (existsb _ seen); cbn [In]; [ right; eauto | ].
  intros [ H | H ]; [ now left | right; eauto ].
Qed.

Lemma getRecommendations_In (data : list row) (columns : list Column.t) (r : Rec.t) :
  In r (getRecommendations data columns) -> In r (candidates data columns).
Proof.
  unfold getRecommendations. intros H.
  apply firstn_In, unique_In in H. exact (proj1 (sort_In _ _ _) H).
Qed.

(** C4, as amended. With at least one date column and at least one numeric
    column, the candidates that [getRecommendations] builds hold exactly one
    line chart per numeric column, each with score 90 and the first date
    column as x-axis; what it returns is drawn from the candidates, cut to
    the four best after the removal of repeated titles. With exactly one
    numeric column the result holds exactly one line chart, in front. *)
Theorem getRecommendations_trend (data : list row) (columns : list Column.t)
  (dateCol : Column.t) (dateCols : list Column.t) :
  filter isDate columns = dateCol :: dateCols ->
  filter isNumber columns <> [] ->
  filter is_line (candidates data columns)
  = map (trend dateCol) (filter isNumber columns)
  /\ (forall numCol,
         Rec.type (trend dateCol numCol) = "line"
         /\ Rec.score (trend dateCol numCol) = 90%float
         /\ Rec.xAxis (trend dateCol numCol) = Column.key dateCol
         /\ Rec.yAxis (trend dateCol numCol) = Column.key numCol)
  /\ (forall r, In r (getRecommendations data columns) ->
                In r (candidates data columns))
  /\ (forall numCol,
         filter isNumber columns = [numCol] ->
         exists rest,
           getRecommendations data columns = trend dateCol numCol :: rest
           /\ Forall (fun r => is_line r = false) rest).
Proof.
  intros Hd Hn. split; [ | split; [ | split ] ].
  - unfold candidates. rewrite Hd.
    set (nums := filter isNumber columns) in *.
    assert (L : (0 <? List.length nums)%nat = true)
      by (destruct nums; [ congruence | reflexivity ]).
    rewrite L. rewrite !filter_app.
    rewrite (filter_none is_line (flat_map distribution nums)).
    2:{ apply Forall_flat_map, Forall_forall. intros col _.
        eapply Forall_impl; [ | apply distribution_low ]. now intros r [ H _ ]. }
    rewrite (filter_all is_line (map (trend dateCol) nums)).
    2:{ apply Forall_map, Forall_forall. reflexivity. }
    rewrite (filter_none is_line (if _ && true then _ else [])).
    2:{ destruct (_ && true); [ | constructor ].
        apply Forall_flat_map, Forall_forall. intros col _.
        eapply Forall_impl; [ | apply comparison_low ]. now intros r [ H _ ]. }
    rewrite (filter_none is_line (if (2 <=? List.length nums)%nat then _ else [])).
    2:{ destruct (2 <=? List.length nums)%nat; [ apply pairs_not_line | constructor ]. }
    now rewrite app_nil_r.
  - intros numCol. repeat split.
  - intros r. apply getRecommendations_In.
  - intros numCol En. unfold getRecommendations, candidates. rewrite Hd, En.
    cbn [List.length Nat.ltb Nat.leb map flat_map pairs app].
    rewrite !app_nil_r.
    set (cats := if _ && true then _ else []).
    assert (Hc : Forall low cats).
    { unfold cats. destruct (_ && true); [ | constructor ].
      apply Forall_flat_map, Forall_forall. intros col _. apply comparison_low. }
    fold by_score.
    change ([trend dateCol numCol] ++ cats) with (trend dateCol numCol :: cats).
    rewrite (sort_trend_first dateCol numCol (distribution numCol) cats
               (distribution_low numCol) Hc).
    cbn [unique existsb]. rewrite firstn_cons.
    eexists. split; [ reflexivity | ].
    apply Forall_forall. intros r Hr.
    apply firstn_In, unique_In in Hr.
    apply (proj1 (sort_In by_score _ _)) in Hr.
    apply in_app_iff in Hr.
    destruct Hr as [ Hr | Hr ];
      [ apply (proj1 (Forall_forall _ _) (distribution_low numCol)) in Hr
      | apply (proj1 (Forall_forall _ _) Hc) in Hr ];
      now destruct Hr.
Qed.

End WithHost.

(** C4, as stated, fails: of five numeric columns beside a date column,
    only four get their line chart among the four recommendations; none is
    on the fifth. *)
Lemma getRecommendations_four_of_five :
  (forall host : Host,
      map (fun r => (Rec.type r, Rec.xAxis r, Rec.yAxis r, Rec.score r))
        (getRecommendations Examples.one_row Examples.six_columns)
      = [ ("line", "day", "n1", 90%float); ("line", "day", "n2", 90%float);
          ("line", "day", "n3", 90%float); ("line", "day", "n4", 90%float) ])
  /\ map Column.key (filter isNumber Examples.six_columns)
     = [ "n1"; "n2"; "n3"; "n4"; "n5" ]
  /\ (forall host : Host,
         filter (fun r => String.eqb (Rec.yAxis r) "n5")
           (getRecommendations Examples.one_row Examples.six_columns) = []).
Proof. repeat split; intros host; reflexivity. Qed.

(** The date column [day] and the numeric column [sales]: the line chart
    of [sales] over time comes first, and alone. *)
Lemma getRecommendations_trend_day_sales :
  exists rest,
    @getRecommendations Examples.plain_host [] [Examples.day; Examples.sales]
    = trend Examples.day Examples.sales :: rest
    /\ Forall (fun r => is_line r = false) rest.
Proof.
  refine (proj2 (proj2 (proj2
            (@getRecommendations_trend Examples.plain_host []
               [Examples.day; Examples.sales] Examples.day [] _ _)))
            Examples.sales _);
    [ reflexivity | discriminate | reflexivity ].
Defined.

End RecommendationSpec.

(** ** DataProcessor: statistics on binary64 numbers *)

Module NumericSpec.
Import JS DataProcessor JSFacts.
Local Open Scope float_scope.

(** C6 on three equal values 0.1. Their computed mean is
    0.10000000000000002: the deviations are not zero, the denominator is not
    zero, and the correlation of the constant sequence with itself is 1, not
    the 0 of the zero-denominator convention. Against [1, 2, 4] it is about
    1.19e-16. *)
Theorem calculateCorrelation_constant_tenths :
  (JS.sum [0.1; 0.1; 0.1] / num_of_nat 3)%float = 0.10000000000000002%float
  /\ calculateCorrelation [0.1; 0.1; 0.1]%float [0.1; 0.1; 0.1]%float = 1%float
  /\ calculateCorrelation [0.1; 0.1; 0.1]%float [1; 2; 4]%float
     = 1.1868783374443499e-16%float.
Proof. repeat split. Qed.

(** C6 on a sequence that is not constant: the squared deviations of
    [0, 1e200] overflow, and the correlation of the sequence with itself is
    NaN, not 1. *)
Lemma calculateCorrelation_overflow :
  is_nan (calculateCorrelation [0; 1e200]%float [0; 1e200]%float) = true.
Proof. reflexivity. Qed.

(** C7 on two equal values 1e308: their sum overflows, and the median, the
    mean of the two middle values, is infinite: above the maximum. *)
Theorem calculateStats_median_overflow (host : Host) :
  let stats := calculateStats [VNum 1e308; VNum 1e308] "number" in
  Stats.min stats = Some (BNum 1e308)
  /\ Stats.max stats = Some (BNum 1e308)
  /\ Stats.median stats = Some infinity
  /\ (infinity <=? 1e308)%float = false.
Proof. repeat split. Qed.





Section WithHost.
Context {host : Host}.


End WithHost.


End NumericSpec.

(** ** ChartValidator: the answers and the default chart *)

Module ValidatorSpec.
Import ChartValidator.

(** The four shapes of an answer. *)
Lemma validateChart_shapes (type : string) (xCol yCol : option Column.t) :
  validateChart type xCol yCol = accepted
  \/ (exists why, validateChart type xCol yCol = blocked why)
  \/ (exists why, validateChart type xCol yCol = auto_fixed why "scatter")
  \/ (exists why, validateChart type xCol yCol = warned why).
Proof.
  unfold validateChart.
  destruct xCol as [ xCol | ], yCol as [ yCol | ]; eauto.
  repeat match goal with
         | |- context [if ?b then _ else _] => destruct b
         end; eauto.
Qed.

(** Every answer of [validateChart] is of one of four kinds. It is
    invalid exactly when its severity is [BLOCK] or [AUTO_FIX], valid
    exactly when it has no severity or the severity [WARN]; it suggests a
    type, always scatter, exactly when the severity is [AUTO_FIX]; and it
    gives a reason exactly when it has a severity. *)
Theorem validateChart_answer (type : string) (xCol yCol : option Column.t) :
  (valid (validateChart type xCol yCol) = false
   <-> severity (validateChart type xCol yCol) = Some BLOCK
       \/ severity (validateChart type xCol yCol) = Some AUTO_FIX)
  /\ (valid (validateChart type xCol yCol) = true
      <-> severity (validateChart type xCol yCol) = None
          \/ severity (validateChart type xCol yCol) = Some WARN)
  /\ (severity (validateChart type xCol yCol) = Some AUTO_FIX
      <-> suggestedType (validateChart type xCol yCol) = Some "scatter")
  /\ (severity (validateChart type xCol yCol) <> Some AUTO_FIX
      <-> suggestedType (validateChart type xCol yCol) = None)
  /\ (severity (validateChart type xCol yCol) = None
      <-> reason (validateChart type xCol yCol) = None).
Proof.
  destruct (validateChart_shapes type xCol yCol)
    as [ -> | [ (why & ->) | [ (why & ->) | (why & ->) ] ] ];
    cbn [accepted blocked auto_fixed warned valid severity suggestedType reason];
    repeat split; intros; try discriminate; try congruence; auto;
    try (destruct H; discriminate).
Qed.

Lemma suggestSmartConfig_numeric (xCol yCol : Column.t) :
  suggestSmartConfig (Some xCol) (Some yCol) <> None
  <-> Column.type yCol = "number".
Proof.
  unfold suggestSmartConfig.
  destruct (String.eqb_spec (Column.type yCol) "number") as [ Hy | Hy ].
  - rewrite !andb_true_r.
    destruct (String.eqb (Column.type xCol) "number"),
      (String.eqb (Column.type xCol) "date"); cbn [negb];
      (split; [ auto | discriminate ]).
  - rewrite !andb_false_r. split; [ congruence | contradiction ].
Qed.

Lemma suggestSmartConfig_valid (xCol yCol : Column.t) (smart : SmartConfig) :
  suggestSmartConfig (Some xCol) (Some yCol) = Some smart ->
  valid (validateChart (chartType smart) (Some xCol) (Some yCol)) = true.
Proof.
  unfold suggestSmartConfig, validateChart, isNumeric.
  destruct (String.eqb (Column.type yCol) "number");
    [ | rewrite !andb_false_r; discriminate ].
  destruct (String.eqb (Column.type xCol) "number");
    [ | destruct (String.eqb (Column.type xCol) "date") ];
    cbn [andb negb orb]; intros [= <-];
    cbn [chartType String.eqb Ascii.eqb Bool.eqb andb orb negb]; try reflexivity.
  destruct (20 <? uniqueX xCol)%nat; reflexivity.
Qed.

(** The default chart of [suggestSmartConfig]: there is one exactly when
    both columns are given and the y column is numeric, and
    [validateChart] accepts it, with a warning at most. *)
Theorem suggestSmartConfig_validates (xCol yCol : Column.t) :
  (suggestSmartConfig (Some xCol) (Some yCol) <> None
   <-> Column.type yCol = "number")
  /\ (forall x, suggestSmartConfig x None = None)
  /\ (forall y, suggestSmartConfig None y = None)
  /\ forall smart, suggestSmartConfig (Some xCol) (Some yCol) = Some smart ->
       valid (validateChart (chartType smart) (Some xCol) (Some yCol)) = true.
Proof.
  split; [ apply suggestSmartConfig_numeric | ].
  split; [ intros [ x | ]; reflexivity | ].
  split; [ reflexivity | ].
  apply suggestSmartConfig_valid.
Qed.

(** After an [AUTO_FIX] the suggested type is scatter, and [validateChart]
    accepts scatter exactly when the y column is numeric: the suggestion
    made for a bar chart over a numeric x column and another y column is
    one it blocks. *)
Theorem validateChart_auto_fix (type : string) (xCol yCol : Column.t) :
  severity (validateChart type (Some xCol) (Some yCol)) = Some AUTO_FIX ->
  suggestedType (validateChart type (Some xCol) (Some yCol)) = Some "scatter"
  /\ Column.type xCol = "number"
  /\ validateChart "scatter" (Some xCol) (Some yCol)
     = if isNumeric yCol then accepted
       else blocked "Scatter plots require both axes to be numeric.".
Proof.
  unfold validateChart, isNumeric.
  destruct (String.eqb_spec (Column.type xCol) "number") as [ Hx | Hx ];
    destruct (String.eqb (Column.type yCol) "number");
    cbn [andb negb orb String.eqb Ascii.eqb Bool.eqb];
    repeat match goal with
           | |- context [if ?b then _ else _] => destruct b
           end;
    cbn [severity accepted blocked auto_fixed warned suggestedType];
    intros H; try discriminate H; auto.
Qed.

(** A bar chart over a numeric x column of 30 distinct values and a
    category y column: the scatter plot that is suggested is blocked. *)
Lemma validateChart_auto_fix_bar :
  suggestedType
    (validateChart "bar" (Some (Examples.numeric "price" 30)) (Some (Examples.category 3)))
  = Some "scatter"
  /\ Column.type (Examples.numeric "price" 30) = "number"
  /\ validateChart "scatter" (Some (Examples.numeric "price" 30))
       (Some (Examples.category 3))
     = blocked "Scatter plots require both axes to be numeric.".
Proof.
  apply (validateChart_auto_fix "bar" (Examples.numeric "price" 30) (Examples.category 3)).
  reflexivity.
Defined.

End ValidatorSpec.

(** ** ManualExplorer: the change of an axis *)

Module ExplorerSpec.
Import ChartValidator ManualExplorer.

(** A valid answer is an acceptance or a warning. *)
Lemma validateChart_valid_shapes (type : string) (xCol yCol : option Column.t) :
  valid (validateChart type xCol yCol) = true ->
  validateChart type xCol yCol = accepted
  \/ exists why, validateChart type xCol yCol = warned why.
Proof.
  destruct (ValidatorSpec.validateChart_shapes type xCol yCol)
    as [ V | [ (why & V) | [ (why & V) | (why & V) ] ] ]; rewrite V;
    cbn [valid blocked auto_fixed]; intros H; try discriminate H; eauto.
Qed.

(** After a change of axis, when both axes name columns and the y column
    is numeric (the only ones its menu offers), the chart type of the new
    configuration is one that [validateChart] accepts for these columns
    without correcting it; the axis that was not changed is kept. *)
Theorem handleAxisChange_valid (columns : list Column.t) (config : Config)
  (axis value : string) (xCol yCol : Column.t) :
  axis = "x" \/ axis = "y" ->
  let config' := fst (handleAxisChange columns config axis value) in
  find_column columns (xAxis config') = Some xCol ->
  find_column columns (yAxis config') = Some yCol ->
  Column.type yCol = "number" ->
  valid (validateChart (type config') (Some xCol) (Some yCol)) = true
  /\ severity (validateChart (type config') (Some xCol) (Some yCol)) <> Some AUTO_FIX
  /\ xAxis config' = (if String.eqb axis "x" then value else xAxis config)
  /\ yAxis config' = (if String.eqb axis "y" then value else yAxis config).
Proof.
  intros Haxis config'.
  assert (E : xAxis config' = (if String.eqb axis "x" then value else xAxis config)
              /\ yAxis config' = (if String.eqb axis "y" then value else yAxis config)).
  { subst config'. unfold handleAxisChange.
    destruct Haxis as [ -> | -> ]; cbn [String.eqb Ascii.eqb Bool.eqb];
      repeat match goal with
             | |- context [match ?b with _ => _ end] => destruct b
             end; cbn [fst xAxis yAxis]; auto. }
  destruct E as [ Ex Ey ]. rewrite Ex, Ey. intros Hx Hy Hnum.
  assert (V : valid (validateChart (type config') (Some xCol) (Some yCol)) = true).
  { pose proof (proj2 (ValidatorSpec.suggestSmartConfig_numeric xCol yCol) Hnum) as Hs.
    destruct (suggestSmartConfig (Some xCol) (Some yCol)) as [ smart | ] eqn:S;
      [ | congruence ].
    pose proof (ValidatorSpec.suggestSmartConfig_valid xCol yCol smart S) as Hv.
    subst config'. unfold handleAxisChange.
    destruct Haxis as [ -> | -> ]; cbn [String.eqb Ascii.eqb Bool.eqb] in *;
      rewrite Hx, Hy, S; cbn [type];
      destruct (String.eqb (type config) ""); cbn [orb fst type]; try exact Hv;
      destruct (ValidatorSpec.validateChart_shapes (type config) (Some xCol) (Some yCol))
        as [ V | [ (why & V) | [ (why & V) | (why & V) ] ] ]; rewrite V;
      cbn [valid severity accepted blocked auto_fixed warned negb is_auto_fix orb fst type];
      rewrite ?V; try exact Hv; reflexivity. }
  split; [ exact V | ]. split; [ | split; reflexivity ].
  destruct (validateChart_valid_shapes _ _ _ V) as [ -> | (why & ->) ]; discriminate.
Qed.

(** From a scatter plot of [sales], the choice of [region] as x axis: the
    chart becomes a bar chart, which is accepted. *)
Lemma handleAxisChange_valid_region :
  valid (validateChart "bar" (Some (Examples.category 3)) (Some Examples.sales)) = true
  /\ severity (validateChart "bar" (Some (Examples.category 3)) (Some Examples.sales))
     <> Some AUTO_FIX
  /\ "region" = "region"
  /\ "sales" = "sales".
Proof.
  apply (handleAxisChange_valid [Examples.category 3; Examples.sales]
           {| type := "scatter"; xAxis := ""; yAxis := "sales"; aggregation := "mean" |}
           "x" "region" (Examples.category 3) Examples.sales);
    [ left; reflexivity | reflexivity | reflexivity | reflexivity ].
Defined.

(** The buttons of the chart types. A button is disabled exactly when
    [validateChart] finds the type invalid. With both columns chosen at
    least one button is enabled: scatter alone when both are numeric, bar
    when the x column is not numeric, line when the x column alone is
    numeric; scatter is enabled only when both are numeric. Without one of
    the columns every button is disabled. *)
Theorem buttons_enabled (xCol yCol : option Column.t) :
  buttons xCol yCol
  = map (fun type => (type, negb (valid (validateChart type xCol yCol)))) types
  /\ (forall x y, xCol = Some x -> yCol = Some y ->
      (exists type, In (type, false) (buttons xCol yCol))
      /\ (In ("scatter", false) (buttons xCol yCol)
          <-> Column.type x = "number" /\ Column.type y = "number")
      /\ (Column.type x = "number" -> Column.type y = "number" ->
          forall type, In (type, false) (buttons xCol yCol) -> type = "scatter")
      /\ (Column.type x <> "number" -> In ("bar", false) (buttons xCol yCol))
      /\ (Column.type x = "number" -> Column.type y <> "number" ->
          In ("line", false) (buttons xCol yCol)))
  /\ (xCol = None \/ yCol = None ->
      forall type, In type types -> In (type, true) (buttons xCol yCol)).
Proof.
  assert (B : buttons xCol yCol
              = map (fun type => (type, negb (valid (validateChart type xCol yCol))))
                  types).
  { unfold buttons, typeAvailability, types, isBlocked.
    cbn [map fold_left JS.obj_set JS.own_get String.eqb Ascii.eqb Bool.eqb].
    repeat f_equal;
      match goal with
      | |- context [validateChart ?t xCol yCol] =>
          destruct (ValidatorSpec.validateChart_shapes t xCol yCol)
            as [ V | [ (why & V) | [ (why & V) | (why & V) ] ] ]; rewrite V; reflexivity
      end. }
  split; [ exact B | ]. rewrite B. split.
  - intros x y -> ->. unfold types, validateChart, isNumeric.
    cbn [map String.eqb Ascii.eqb Bool.eqb andb orb negb].
    destruct (String.eqb_spec (Column.type x) "number") as [ Hx | Hx ];
      destruct (String.eqb_spec (Column.type y) "number") as [ Hy | Hy ];
      cbn [andb orb negb valid accepted blocked auto_fixed warned].
    all: (split; [ | split; [ | split; [ | split ] ] ]).
    all: try (intros; exfalso; congruence).
    all: rewrite ?andb_false_r; cbn [In negb valid accepted].
    all: try (exists "scatter"; tauto).
    all: try (exists "line"; tauto).
    all: try tauto.
    all: try (split; [ | tauto ];
              intros [ H | [ H | [ H | [ H | [ H | [] ] ] ] ] ]; try discriminate H;
              revert H; destruct (20 <? uniqueX x)%nat; discriminate).
    all: try (intros _ _ type0 [ H | [ H | [ H | [ H | [ H | [] ] ] ] ] ];
              now inversion H).
    all: try (exists "bar"; destruct (20 <? uniqueX x)%nat; left; reflexivity).
    all: try (intros _; destruct (20 <? uniqueX x)%nat; left; reflexivity).
  - intros H type Ht.
    assert (V : forall t, validateChart t xCol yCol = blocked "Select axes first").
    { intros t. destruct H as [ -> | -> ]; [ | destruct xCol ]; reflexivity. }
    apply in_map_iff. exists type. rewrite V. split; [ reflexivity | exact Ht ].
Qed.

End ExplorerSpec.

(** ** DataProcessor: the groups of [aggregateData] *)

Module GroupingSpec.
Import JS JSFacts DataProcessor AggregateSpec.

Section WithHost.
Context {host : Host}.
Variables groupByCol metricCol : string.

(** [key === undefined || key === null || val === undefined || val === null]
    does not hold. *)
Definition takes_part (r : row) : bool :=
  negb (nullish (cell r groupByCol)) && negb (nullish (cell r metricCol)).

Lemma takes_part_grouping (r : row) :
  takes_part r = true <-> grouping groupByCol metricCol r.
Proof.
  unfold takes_part, grouping. rewrite andb_true_iff, !negb_true_iff. tauto.
Qed.

Lemma group_row_skip (acc : outcome (obj (list float))) (r : row) :
  takes_part r = false -> group_row groupByCol metricCol acc r = acc.
Proof.
  unfold takes_part, group_row. intros H. destruct acc as [ groups | e ]; [ | reflexivity ].
  destruct (nullish (cell r groupByCol)), (nullish (cell r metricCol));
    try reflexivity; discriminate H.
Qed.

Lemma grouped_filter (data : list row) (acc : outcome (obj (list float))) :
  fold_left (group_row groupByCol metricCol) (filter takes_part data) acc
  = fold_left (group_row groupByCol metricCol) data acc.
Proof.
  revert acc. induction data as [ | r data IH ]; intros acc; cbn [filter fold_left];
    [ reflexivity | ].
  destruct (takes_part r) eqn:T; cbn [fold_left].
  - apply IH.
  - rewrite group_row_skip by exact T. apply IH.
Qed.

(** The rows whose group cell or metric cell is [null] or [undefined]
    have no part in the result: leaving them out of the data changes
    nothing. *)
Theorem aggregateData_skips_empty_cells (data : list row) (method : string)
  (limit : option Z) :
  aggregateData (filter takes_part data) groupByCol metricCol method limit
  = aggregateData data groupByCol metricCol method limit.
Proof.
  unfold aggregateData, grouped. now rewrite grouped_filter.
Qed.

(** A limit keeps the first entries of what is returned without one; a
    limit that is not positive keeps them all. *)
Theorem aggregateData_limit_prefix (data : list row) (method : string) (l : Z) :
  aggregateData data groupByCol metricCol method (Some l)
  = match aggregateData data groupByCol metricCol method None with
    | Returns out => Returns (if (0 <? l)%Z then firstn (Z.to_nat l) out else out)
    | Throws e => Throws e
    end.
Proof.
  unfold aggregateData.
  destruct (grouped data groupByCol metricCol) as [ groups | e ]; [ | reflexivity ].
  set (sorted := sort _ _).
  destruct (Z.ltb_spec 0 l) as [ Hl | Hl ]; cbn [andb]; [ | reflexivity ].
  destruct (Z.ltb_spec l (Z.of_nat (List.length sorted))) as [ H | H ]; [ reflexivity | ].
  rewrite firstn_all2 by lia. reflexivity.
Qed.

(** The keys of [groups] are never inherited names. *)
Lemma fold_group_row_own (data : list row) :
  forall acc groups : obj (list float),
    (forall k, In k (keys acc) -> inherited k = false) ->
    fold_left (group_row groupByCol metricCol) data (Returns acc) = Returns groups ->
    forall k, In k (keys groups) -> inherited k = false.
Proof.
  induction data as [ | r data IH ]; intros acc groups Hacc H; cbn [fold_left] in H.
  - now injection H as <-.
  - unfold group_row at 2 in H.
    destruct (nullish (cell r groupByCol) || nullish (cell r metricCol));
      [ now apply (IH acc) | ].
    unfold push_group in H.
    destruct (own_get acc (to_string (cell r groupByCol))) as [ old | ] eqn:G.
    + refine (IH _ groups _ H).
      intros k Hk. apply keys_obj_set_incl in Hk. destruct Hk as [ -> | Hk ]; [ | auto ].
      apply Hacc. apply own_get_In in G. unfold keys.
      change (to_string (cell r groupByCol)) with (fst (to_string (cell r groupByCol), old)).
      now apply in_map.
    + destruct (inherited (to_string (cell r groupByCol))) eqn:I;
        [ rewrite fold_group_row_Throws in H; discriminate H | ].
      refine (IH _ groups _ H).
      intros k Hk. apply keys_obj_set_incl in Hk. destruct Hk as [ -> | Hk ]; auto.
Qed.

Lemma own_get_keys {A : Type} (o : obj A) (k : string) (a : A) :
  own_get o k = Some a -> In k (keys o).
Proof.
  intros H. apply own_get_In in H. unfold keys.
  change k with (fst (k, a)). now apply in_map.
Qed.

(** The grouping throws as soon as a row that takes part has an inherited
    name for key. *)
Lemma fold_group_row_throws (data : list row) :
  forall acc : obj (list float),
    (forall k, In k (keys acc) -> inherited k = false) ->
    (exists r, In r data /\ takes_part r = true
               /\ inherited (to_string (cell r groupByCol)) = true) ->
    fold_left (group_row groupByCol metricCol) data (Returns acc)
    = Throws "TypeError: groups[key].push is not a function".
Proof.
  induction data as [ | r data IH ]; intros acc Hacc (r0 & Hin & Ht & Hi);
    [ destruct Hin | ].
  cbn [fold_left]. unfold group_row at 2.
  destruct (takes_part r) eqn:T.
  - pose proof T as T'. unfold takes_part in T'.
    apply andb_true_iff in T'. rewrite !negb_true_iff in T'. destruct T' as [ -> -> ].
    cbn [orb]. unfold push_group.
    destruct (own_get acc (to_string (cell r groupByCol))) as [ old | ] eqn:G.
    + pose proof (Hacc _ (own_get_keys _ _ _ G)) as Hown.
      destruct Hin as [ -> | Hin ]; [ congruence | ].
      apply IH; [ | eauto ].
      intros k Hk. apply keys_obj_set_incl in Hk. destruct Hk as [ -> | Hk ]; auto.
    + destruct (inherited (to_string (cell r groupByCol))) eqn:I;
        [ apply fold_group_row_Throws | ].
      destruct Hin as [ -> | Hin ]; [ congruence | ].
      apply IH; [ | eauto ].
      intros k Hk. apply keys_obj_set_incl in Hk. destruct Hk as [ -> | Hk ]; auto.
  - assert (N : nullish (cell r groupByCol) || nullish (cell r metricCol) = true).
    { unfold takes_part in T.
      destruct (nullish (cell r groupByCol)), (nullish (cell r metricCol));
        try reflexivity; discriminate T. }
    rewrite N. destruct Hin as [ -> | Hin ]; [ congruence | ].
    apply IH; eauto.
Qed.

(** [aggregateData] throws, a [TypeError], exactly when a row that takes
    part has for group key the name of a property every object inherits
    ([constructor], [toString], [__proto__], ...). *)
Theorem aggregateData_throws_iff (data : list row) (method : string)
  (limit : option Z) :
  (exists e, aggregateData data groupByCol metricCol method limit = Throws e)
  <-> exists r, In r data /\ takes_part r = true
                /\ inherited (to_string (cell r groupByCol)) = true.
Proof.
  split.
  - intros (e & He).
    destruct (existsb (fun r => takes_part r
                                && inherited (to_string (cell r groupByCol))) data) eqn:E.
    + apply existsb_exists in E. destruct E as (r & Hr & E).
      apply andb_true_iff in E. exists r. tauto.
    + exfalso.
      assert (Hd : forall r, In r data -> grouping groupByCol metricCol r ->
                             inherited (to_string (cell r groupByCol)) = false).
      { intros r Hr Hg. apply takes_part_grouping in Hg.
        destruct (inherited (to_string (cell r groupByCol))) eqn:I; [ | reflexivity ].
        assert (X : existsb (fun r => takes_part r
                                      && inherited (to_string (cell r groupByCol))) data
                    = true).
        { apply existsb_exists. exists r. rewrite Hg, I. auto. }
        congruence. }
      destruct (fold_group_row_returns groupByCol metricCol data Hd []) as [ groups Hg ].
      rewrite (aggregateData_unfold groupByCol metricCol data method limit groups Hg) in He.
      discriminate He.
  - intros H.
    assert (G : grouped data groupByCol metricCol
                = Throws "TypeError: groups[key].push is not a function").
    { apply fold_group_row_throws; [ intros k [] | exact H ]. }
    eexists. unfold aggregateData. rewrite G. reflexivity.
Qed.


(** The keys met so far stay, and each row that takes part leaves its
    key. *)
Lemma fold_group_row_complete (data : list row) :
  forall acc groups : obj (list float),
    fold_left (group_row groupByCol metricCol) data (Returns acc) = Returns groups ->
    (forall k, In k (keys acc) -> In k (keys groups))
    /\ (forall r, In r data -> takes_part r = true ->
                  In (to_string (cell r groupByCol)) (keys groups)).
Proof.
  induction data as [ | r data IH ]; intros acc groups H; cbn [fold_left] in H.
  - injection H as <-. split; [ auto | intros r [] ].
  - destruct (takes_part r) eqn:T.
    + pose proof T as T'. unfold takes_part in T'.
      apply andb_true_iff in T'. rewrite !negb_true_iff in T'. destruct T' as [ N1 N2 ].
      unfold group_row at 2 in H. rewrite N1, N2 in H. cbn [orb] in H.
      destruct (push_group acc (to_string (cell r groupByCol))
                  (to_number (cell r metricCol))) as [ acc' | e ] eqn:P;
        [ | rewrite fold_group_row_Throws in H; discriminate H ].
      destruct (IH _ _ H) as [ I1 I2 ].
      assert (K : forall k, k = to_string (cell r groupByCol) \/ In k (keys acc) ->
                            In k (keys acc')).
      { intros k Hk. unfold push_group in P.
        destruct (own_get acc (to_string (cell r groupByCol))) as [ old | ] eqn:G;
          [ | destruct (inherited (to_string (cell r groupByCol))); [ discriminate P | ] ];
          injection P as <-; rewrite keys_obj_set;
          destruct (in_dec string_dec _ (keys acc)) as [ i | n ];
          try rewrite in_app_iff; cbn [In];
          destruct Hk as [ -> | Hk ]; auto. }
      split.
      * intros k Hk. apply I1, K. now right.
      * intros r' [ <- | Hr' ] T'; [ apply I1, K; now left | now apply I2 ].
    + rewrite group_row_skip in H by exact T.
      destruct (IH _ _ H) as [ I1 I2 ]. split; [ exact I1 | ].
      intros r' [ <- | Hr' ] T'; [ congruence | now apply I2 ].
Qed.

Lemma entry_fields (k : string) (v : float) :
  groupByCol <> metricCol ->
  entry groupByCol metricCol k v = [ (groupByCol, VStr k); (metricCol, VNum v) ].
Proof.
  intros H. unfold entry. cbn [obj_set].
  apply String.eqb_neq in H. now rewrite H.
Qed.

Lemma NoDup_map_fst_inj {A B : Type} (f : string * A -> B) (l : list (string * A)) :
  (forall x y, In x l -> In y l -> f x = f y -> fst x = fst y) ->
  NoDup (map fst l) -> NoDup (map f l).
Proof.
  induction l as [ | x l IH ]; intros Hf Hnd; cbn [map] in *; [ constructor | ].
  inversion Hnd as [ | ? ? Hx Hl ]; subst. constructor.
  - rewrite in_map_iff. intros (y & Hy & Hin). apply Hx.
    rewrite (Hf x y (or_introl eq_refl) (or_intror Hin) (eq_sym Hy)).
    now apply in_map.
  - apply IH; [ | exact Hl ]. intros a b Ha Hb. apply Hf; now right.
Qed.

(** Without a limit, and for a group column other than the metric column,
    the result has one entry for each distinct group key of the rows that
    take part, and nothing else: every entry holds the group field and the
    metric field only, no two entries have the same group, and every row
    that takes part finds its group among them. *)
Theorem aggregateData_groups (data : list row) (method : string) (out : list row) :
  groupByCol <> metricCol ->
  aggregateData data groupByCol metricCol method None = Returns out ->
  NoDup (map (fun e => cell e groupByCol) out)
  /\ (forall e, In e out ->
        exists r v, In r data /\ takes_part r = true
                    /\ e = [ (groupByCol, VStr (to_string (cell r groupByCol)));
                             (metricCol, VNum v) ])
  /\ (forall r, In r data -> takes_part r = true ->
        exists e, In e out /\ cell e groupByCol = VStr (to_string (cell r groupByCol))).
Proof.
  intros Hne Hout.
  destruct (aggregateData_grouped _ _ _ _ _ _ Hout) as [ groups Hg ].
  rewrite (aggregateData_unfold groupByCol metricCol data method None groups Hg) in Hout.
  injection Hout as <-.
  set (cmp := fun a b : row => (metric metricCol b - metric metricCol a)%float).
  destruct (fold_group_row_keys groupByCol metricCol data [] groups Hg) as [ Hnd Hkeys ].
  destruct (fold_group_row_complete data [] groups Hg) as [ _ Hall ].
  split; [ | split ].
  - eapply Permutation_NoDup.
    { apply Permutation_map. symmetry. apply sort_perm. }
    unfold summarised. rewrite map_map.
    apply NoDup_map_fst_inj.
    + intros [k1 v1] [k2 v2] _ _. rewrite !cell_entry by exact Hne. now intros [= ->].
    + eapply Permutation_NoDup.
      { apply Permutation_map. symmetry. apply entries_perm. }
      apply Hnd. constructor.
  - intros e He. apply (proj1 (sort_In cmp _ _)) in He. apply summarised_In in He.
    destruct He as (k & values & Hk & ->).
    destruct (Hkeys k) as [ [] | (r & Hr & Hgr & ->) ].
    { unfold keys. change k with (fst (k, values)). now apply in_map. }
    exists r, (aggregate method values). split; [ exact Hr | ].
    split; [ now apply takes_part_grouping | now apply entry_fields ].
  - intros r Hr Ht. specialize (Hall r Hr Ht).
    unfold keys in Hall. apply in_map_iff in Hall. destruct Hall as ([k values] & Hk & Hin).
    cbn [fst] in Hk. subst k.
    exists (entry groupByCol metricCol (to_string (cell r groupByCol))
              (aggregate method values)).
    split; [ | now apply cell_entry ].
    apply (sort_In cmp). unfold summarised. apply in_map_iff.
    exists (to_string (cell r groupByCol), values). split; [ reflexivity | ].
    eapply Permutation_in; [ symmetry; apply entries_perm | exact Hin ].
Qed.

(** The number of values held by the groups. *)
Fixpoint held (groups : obj (list float)) : nat :=
  match groups with
  | [] => 0
  | (_, values) :: groups' => List.length values + held groups'
  end.

Lemma held_sum (groups : obj (list float)) :
  held groups = list_sum (map (fun kv => List.length (snd kv)) groups).
Proof.
  induction groups as [ | [k values] groups IH ]; [ reflexivity | ].
  cbn [held map snd]. rewrite IH. reflexivity.
Qed.

Lemma held_obj_set_Some (o : obj (list float)) (k : string) (old : list float) (v : float) :
  own_get o k = Some old -> held (obj_set o k (old ++ [v])) = S (held o).
Proof.
  induction o as [ | [k' a] o IH ]; cbn [own_get obj_set]; [ discriminate | ].
  destruct (String.eqb k' k).
  - intros [= ->]. cbn [held]. rewrite length_app. cbn. lia.
  - intros H. cbn [held]. rewrite (IH H). lia.
Qed.

Lemma held_obj_set_None (o : obj (list float)) (k : string) (v : float) :
  own_get o k = None -> held (obj_set o k [v]) = S (held o).
Proof.
  induction o as [ | [k' a] o IH ]; cbn [own_get obj_set]; [ reflexivity | ].
  destruct (String.eqb k' k); [ discriminate | ].
  intros H. cbn [held]. rewrite (IH H). lia.
Qed.

Lemma fold_group_row_held (data : list row) :
  forall acc groups : obj (list float),
    fold_left (group_row groupByCol metricCol) data (Returns acc) = Returns groups ->
    held groups = held acc + List.length (filter takes_part data).
Proof.
  induction data as [ | r data IH ]; intros acc groups H; cbn [fold_left filter] in *.
  - injection H as <-. cbn. lia.
  - destruct (takes_part r) eqn:T.
    + pose proof T as T'. unfold takes_part in T'.
      apply andb_true_iff in T'. rewrite !negb_true_iff in T'. destruct T' as [ N1 N2 ].
      unfold group_row at 2 in H. rewrite N1, N2 in H. cbn [orb] in H.
      unfold push_group in H. cbn [List.length].
      destruct (own_get acc (to_string (cell r groupByCol))) as [ old | ] eqn:G.
      * rewrite (IH _ _ H), (held_obj_set_Some _ _ _ _ G). lia.
      * destruct (inherited (to_string (cell r groupByCol)));
          [ rewrite fold_group_row_Throws in H; discriminate H | ].
        rewrite (IH _ _ H), (held_obj_set_None _ _ _ G). lia.
    + rewrite group_row_skip in H by exact T. now apply IH.
Qed.

Lemma fold_group_row_nonempty (data : list row) :
  forall acc groups : obj (list float),
    (forall k values, In (k, values) acc -> values <> []) ->
    fold_left (group_row groupByCol metricCol) data (Returns acc) = Returns groups ->
    forall k values, In (k, values) groups -> values <> [].
Proof.
  induction data as [ | r data IH ]; intros acc groups Hacc H; cbn [fold_left] in H.
  - now injection H as <-.
  - unfold group_row at 2 in H.
    destruct (nullish (cell r groupByCol) || nullish (cell r metricCol));
      [ now apply (IH acc) | ].
    unfold push_group in H.
    destruct (own_get acc (to_string (cell r groupByCol))) as [ old | ] eqn:G;
      [ | destruct (inherited (to_string (cell r groupByCol)));
          [ rewrite fold_group_row_Throws in H; discriminate H | ] ];
      refine (IH _ groups _ H); intros k values Hk;
      apply In_obj_set in Hk; (destruct Hk as [ -> | Hk ]; [ | now apply (Hacc k) ]).
    + now destruct old.
    + discriminate.
Qed.

Lemma list_sum_perm (l l' : list nat) : Permutation l l' -> list_sum l = list_sum l'.
Proof.
  unfold list_sum.
  induction 1 as [ | x l l' _ IH | x y l | l l' l'' _ IH1 _ IH2 ]; cbn [fold_right]; lia.
Qed.

(** With the method [count] and no limit, the entries hold the sizes of
    the groups: counts of at least one row each, which add up to the
    number of rows that take part. *)
Theorem aggregateData_count_total (data : list row) (out : list row) :
  aggregateData data groupByCol metricCol "count" None = Returns out ->
  exists counts : list nat,
    map (metric metricCol) out = map num_of_nat counts
    /\ Forall (fun n => 1 <= n) counts
    /\ list_sum counts = List.length (filter takes_part data).
Proof.
  intros Hout.
  destruct (aggregateData_grouped _ _ _ _ _ _ Hout) as [ groups Hg ].
  rewrite (aggregateData_unfold groupByCol metricCol data "count" None groups Hg) in Hout.
  injection Hout as <-.
  set (cmp := fun a b : row => (metric metricCol b - metric metricCol a)%float).
  pose proof (sort_perm cmp (summarised groups groupByCol metricCol "count")) as P.
  unfold summarised in P at 2.
  apply Permutation_map_inv in P. destruct P as (E & HE & PE).
  fold cmp. rewrite HE.
  assert (PG : Permutation groups E).
  { rewrite <- PE. symmetry. apply entries_perm. }
  exists (map (fun kv => List.length (snd kv)) E). split; [ | split ].
  - rewrite !map_map. apply map_ext. intros [k values].
    rewrite metric_entry. reflexivity.
  - apply Forall_forall. intros n Hn. apply in_map_iff in Hn.
    destruct Hn as ([k values] & <- & Hin). cbn [snd].
    assert (Hv : values <> []).
    { apply (fold_group_row_nonempty data [] groups) with (k := k);
        [ intros ? ? [] | exact Hg | ].
      eapply Permutation_in; [ symmetry; exact PG | exact Hin ]. }
    destruct values; [ congruence | cbn; lia ].
  - pose proof (fold_group_row_held data [] groups Hg) as H. cbn [held plus] in H.
    rewrite <- H, held_sum. apply list_sum_perm. apply Permutation_map. now symmetry.
Qed.


End WithHost.

(** The sum of [sales] by [region]: the groups [A] and [B]. *)
Lemma aggregateData_groups_region_sales :
  NoDup (map (fun e => cell e "region")
           [ [("region", VStr "A"); ("sales", VNum 40)];
             [("region", VStr "B"); ("sales", VNum 20)] ])
  /\ (forall e,
        In e [ [("region", VStr "A"); ("sales", VNum 40)];
               [("region", VStr "B"); ("sales", VNum 20)] ] ->
        exists r v, In r Examples.region_sales
                    /\ takes_part "region" "sales" r = true
                    /\ e = [ ("region",
                              VStr (@to_string Examples.plain_host (cell r "region")));
                             ("sales", VNum v) ])
  /\ (forall r, In r Examples.region_sales -> takes_part "region" "sales" r = true ->
        exists e,
          In e [ [("region", VStr "A"); ("sales", VNum 40)];
                 [("region", VStr "B"); ("sales", VNum 20)] ]
          /\ cell e "region" = VStr (@to_string Examples.plain_host (cell r "region"))).
Proof.
  apply (@aggregateData_groups Examples.plain_host "region" "sales"
           Examples.region_sales "sum");
    [ discriminate | reflexivity ].
Defined.

(** The count of the rows by [region]: two rows for [A], one for [B]. *)
Lemma aggregateData_count_total_region_sales :
  exists counts : list nat,
    map (@metric Examples.plain_host "sales")
      [ [("region", VStr "A"); ("sales", VNum 2)];
        [("region", VStr "B"); ("sales", VNum 1)] ]
    = map num_of_nat counts
    /\ Forall (fun n => 1 <= n) counts
    /\ list_sum counts
       = List.length (filter (takes_part "region" "sales") Examples.region_sales).
Proof.
  apply (@aggregateData_count_total Examples.plain_host "region" "sales"
           Examples.region_sales).
  reflexivity.
Defined.


End GroupingSpec.

(** ** DataProcessor: the correlation *)

Module CorrelationSpec.
Import JS DataProcessor.
Local Open Scope float_scope.

Definition step (xMean yMean : float)
  : float * float * float -> float * float -> float * float * float :=
  fun '(numerator, xDenom, yDenom) '(x, y) =>
    let xDiff := x - xMean in
    let yDiff := y - yMean in
    (numerator + xDiff * yDiff, xDenom + xDiff * xDiff, yDenom + yDiff * yDiff).

Definition swap (acc : float * float * float) : float * float * float :=
  let '(numerator, xDenom, yDenom) := acc in (numerator, yDenom, xDenom).

Lemma fold_step_swap (xMean yMean : float) (xs ys : list float) :
  forall acc,
    fold_left (step yMean xMean) (combine ys xs) (swap acc)
    = swap (fold_left (step xMean yMean) (combine xs ys) acc).
Proof.
  revert ys. induction xs as [ | x xs IH ]; intros [ | y ys ] acc;
    cbn [combine fold_left]; try reflexivity.
  rewrite <- IH. f_equal.
  destruct acc as [[n dx] dy]. cbn [step swap].
  now rewrite (Float64.mul_comm (y - yMean) (x - xMean)).
Qed.

Lemma calculateCorrelation_step (xValues yValues : list float) :
  calculateCorrelation xValues yValues
  = let n := List.length xValues in
    if negb (n =? List.length yValues)%nat || (n =? 0)%nat then 0
    else
      let xMean := JS.sum xValues / num_of_nat n in
      let yMean := JS.sum yValues / num_of_nat n in
      let '(numerator, xDenom, yDenom) :=
        fold_left (step xMean yMean) (combine xValues yValues) (0, 0, 0) in
      let denominator := PrimFloat.sqrt (xDenom * yDenom) in
      if denominator =? 0 then 0 else numerator / denominator.
Proof. reflexivity. Qed.

(** The correlation does not depend on the order of its two arguments:
    both calls return the same number, bit for bit. *)
Theorem calculateCorrelation_symmetric (xValues yValues : list float) :
  calculateCorrelation yValues xValues = calculateCorrelation xValues yValues.
Proof.
  rewrite !calculateCorrelation_step. cbv zeta.
  rewrite (Nat.eqb_sym (List.length yValues) (List.length xValues)).
  destruct (Nat.eqb_spec (List.length xValues) (List.length yValues)) as [ E | E ];
    [ | reflexivity ].
  rewrite <- E. cbn [negb orb].
  destruct (List.length xValues =? 0)%nat; [ reflexivity | ].
  change (0, 0, 0) with (swap (0, 0, 0)) at 1.
  rewrite fold_step_swap.
  destruct (fold_left _ (combine xValues yValues) _) as [[n dx] dy]. cbn [swap].
  now rewrite (Float64.mul_comm dy dx).
Qed.

End CorrelationSpec.

(** ** DataProcessor: date and category statistics *)

Module DateSpec.
Import JS JSFacts DataProcessor.
Local Open Scope float_scope.



Section WithHost.
Context {host : Host}.


End WithHost.


End DateSpec.

Module CategorySpec.
Import JS JSFacts DataProcessor.

Section TallyFacts.

(** What [counts] holds once the strings [seen] have been counted. *)
Definition counted (seen : list string) (counts : obj (option nat)) : Prop :=
  NoDup (keys counts)
  /\ forall k, own_get counts k
               = match count_occ string_dec seen k with
                 | 0 => None
                 | S n => Some (Some (S n))
                 end.

Lemma inherited_proto : inherited "__proto__" = true.
Proof. reflexivity. Qed.

Lemma count_occ_snoc (seen : list string) (k k' : string) :
  count_occ string_dec (seen ++ [k]) k'
  = count_occ string_dec seen k' + (if string_dec k k' then 1 else 0).
Proof.
  rewrite count_occ_app. cbn [count_occ]. destruct (string_dec k k'); reflexivity.
Qed.

Lemma tally_counted (seen : list string) (counts : obj (option nat)) (k : string) :
  inherited k = false -> counted seen counts -> counted (seen ++ [k]) (tally counts k).
Proof.
  intros Hk [ Hnd Hget ].
  assert (Hp : String.eqb k "__proto__" = false).
  { apply String.eqb_neq. intros ->. rewrite inherited_proto in Hk. discriminate Hk. }
  assert (E : tally counts k
              = obj_set counts k (Some (S (count_occ string_dec seen k)))).
  { unfold tally. rewrite (Hget k), Hp, Hk.
    destruct (count_occ string_dec seen k); reflexivity. }
  rewrite E. split; [ now apply keys_obj_set_NoDup | ].
  intros k'. rewrite count_occ_snoc.
  destruct (string_dec k k') as [ <- | Hne ].
  - rewrite own_get_obj_set_same, Nat.add_1_r. reflexivity.
  - rewrite own_get_obj_set_other by exact Hne. rewrite Nat.add_0_r. apply Hget.
Qed.

Lemma fold_tally_counted (strs : list string) :
  (forall s, In s strs -> inherited s = false) ->
  forall seen counts, counted seen counts ->
    counted (seen ++ strs) (fold_left tally strs counts).
Proof.
  induction strs as [ | s strs IH ]; intros Hs seen counts Hc; cbn [fold_left].
  - now rewrite app_nil_r.
  - replace (seen ++ s :: strs) with ((seen ++ [s]) ++ strs)
      by (rewrite <- app_assoc; reflexivity).
    apply IH; [ intros s' Hs'; apply Hs; now right | ].
    apply tally_counted; [ apply Hs; now left | exact Hc ].
Qed.

Lemma own_get_NoDup {A : Type} (o : obj A) (k : string) (a : A) :
  NoDup (keys o) -> In (k, a) o -> own_get o k = Some a.
Proof.
  induction o as [ | [k' a'] o IH ]; cbn [keys map fst own_get]; intros Hnd Hin;
    [ destruct Hin | ].
  destruct Hin as [ H | H ].
  - injection H as -> ->. now rewrite String.eqb_refl.
  - inversion Hnd as [ | ? ? Hk Ho ]; subst.
    destruct (String.eqb_spec k' k) as [ -> | Hne ].
    + exfalso. apply Hk. change k with (fst (k, a)). now apply in_map.
    + now apply IH.
Qed.

Lemma own_get_Some_keys {A : Type} (o : obj A) (k : string) :
  In k (keys o) -> exists a, own_get o k = Some a.
Proof.
  induction o as [ | [k' a'] o IH ]; cbn [keys map fst own_get]; intros Hin;
    [ destruct Hin | ].
  destruct Hin as [ H | H ].
  - subst. rewrite String.eqb_refl. eauto.
  - destruct (String.eqb k' k); eauto.
Qed.

Lemma counted_keys (seen : list string) (counts : obj (option nat)) :
  counted seen counts -> forall k, In k (keys counts) <-> In k seen.
Proof.
  intros [ Hnd Hget ] k. split.
  - intros H. apply (count_occ_In string_dec).
    apply own_get_Some_keys in H. destruct H as [ a H ].
    rewrite Hget in H. destruct (count_occ string_dec seen k); [ discriminate | lia ].
  - intros H. apply (count_occ_In string_dec) in H. specialize (Hget k).
    destruct (count_occ string_dec seen k) as [ | n ]; [ lia | ].
    apply own_get_In in Hget. change k with (fst (k, Some (S n))). now apply in_map.
Qed.

End TallyFacts.

Lemma fold_left_map {A B C : Type} (f : C -> B -> C) (g : A -> B) (l : list A) (c : C) :
  fold_left (fun c a => f c (g a)) l c = fold_left f (map g l) c.
Proof.
  revert c. induction l as [ | a l IH ]; intros c; [ reflexivity | apply IH ].
Qed.

Section WithHost.
Context {host : Host}.

(** The frequency table of a category or text column, when no value reads
    as the name of a property that every object inherits: [uniqueCount] is
    the number of distinct values (as strings); [top] lists at most ten of
    them, each once, each with the number of cells that hold it, in
    descending order of these counts; it lists them all when there are at
    most ten. *)
Theorem calculateStats_frequencies (values : list value) (type : string) :
  let strs := map to_string (filter (fun v => negb (nullish v)) values) in
  type = "category" \/ type = "text" ->
  strs <> [] ->
  (forall s, In s strs -> inherited s = false) ->
  exists top,
    Stats.top (calculateStats values type) = Some top
    /\ Stats.uniqueCount (calculateStats values type)
       = Some (List.length (nodup string_dec strs))
    /\ List.length top = Nat.min 10 (List.length (nodup string_dec strs))
    /\ NoDup (map fst top)
    /\ (forall k c, In (k, c) top ->
          In k strs /\ c = Some (count_occ string_dec strs k))
    /\ Sorted (fun a b => (count_number (snd b) <=? count_number (snd a))%float = true) top
    /\ (List.length (nodup string_dec strs) <= 10 ->
        forall k, In k strs -> In (k, Some (count_occ string_dec strs k)) top).
Proof.
  intros strs Ht Hne Hs.
  set (valid := filter (fun v => negb (nullish v)) values) in *.
  set (counts := fold_left (fun c v => tally c (to_string v)) valid []).
  assert (Hc : counted strs counts).
  { unfold counts. rewrite (fold_left_map tally to_string). fold strs.
    apply (fold_tally_counted strs Hs [] []). split; [ constructor | reflexivity ]. }
  set (cmp := fun a b : string * option nat =>
                (count_number (snd b) - count_number (snd a))%float).
  set (sorted := sort cmp (entries counts)).
  assert (E : calculateStats values type
              = {| Stats.min := None; Stats.max := None; Stats.mean := None;
                   Stats.median := None; Stats.sum := None; Stats.stdDev := None;
                   Stats.variance := None;
                   Stats.uniqueCount := Some (List.length sorted);
                   Stats.top := Some (firstn 10 sorted);
                   Stats.nullCount := List.length values - List.length valid |}).
  { unfold calculateStats. fold valid.
    assert (L : List.length valid = List.length strs) by (unfold strs; now rewrite length_map).
    destruct (Nat.eqb_spec (List.length valid) 0) as [ Z | _ ].
    { destruct strs; [ congruence | rewrite L in Z; discriminate Z ]. }
    destruct Ht as [ -> | -> ]; reflexivity. }
  rewrite E. cbn [Stats.top Stats.uniqueCount].
  assert (Pc : Permutation sorted counts).
  { unfold sorted. rewrite sort_perm. apply entries_perm. }
  destruct Hc as [ Hnd Hget ].
  assert (Hkeys : forall k, In k (keys counts) <-> In k strs).
  { apply counted_keys. now split. }
  assert (Hlen : List.length sorted = List.length (nodup string_dec strs)).
  { rewrite (Permutation_length Pc), <- (length_map fst counts).
    apply Permutation_length, NoDup_Permutation; [ exact Hnd | apply NoDup_nodup | ].
    intros k. rewrite nodup_In. apply Hkeys. }
  assert (Hentry : forall k c, In (k, c) sorted ->
                     In k strs /\ c = Some (count_occ string_dec strs k)).
  { intros k c Hin. apply (Permutation_in _ Pc) in Hin.
    pose proof (own_get_NoDup _ _ _ Hnd Hin) as G. rewrite Hget in G.
    assert (Hk : In k strs).
    { apply Hkeys. change k with (fst (k, c)). now apply in_map. }
    split; [ exact Hk | ].
    destruct (count_occ string_dec strs k); [ discriminate G | now injection G as <- ]. }
  exists (firstn 10 sorted). split; [ reflexivity | ]. split; [ now rewrite Hlen | ].
  split; [ rewrite length_firstn, Hlen; reflexivity | ].
  split; [ | split; [ | split ] ].
  - rewrite <- firstn_map. apply firstn_NoDup.
    eapply Permutation_NoDup; [ apply Permutation_map; symmetry; exact Pc | exact Hnd ].
  - intros k c Hin. apply Hentry. now apply firstn_In in Hin.
  - apply firstn_sorted.
    apply (sort_descending (fun kv : string * option nat => count_number (snd kv))).
    apply Forall_forall. intros [k c] Hin.
    apply (Permutation_in _ (entries_perm counts)) in Hin.
    pose proof (own_get_NoDup _ _ _ Hnd Hin) as G. rewrite Hget in G.
    unfold comparable. cbn [snd].
    destruct (count_occ string_dec strs k); [ discriminate G | ].
    injection G as <-. apply Float64.num_of_nat_number.
  - intros Hten k Hk. rewrite firstn_all2 by lia.
    apply (Permutation_in _ (Permutation_sym Pc)).
    apply own_get_In. rewrite Hget.
    apply (count_occ_In string_dec) in Hk.
    destruct (count_occ string_dec strs k); [ lia | reflexivity ].
Qed.

End WithHost.

(** The category column [a, b, null, a]. *)
Lemma calculateStats_frequencies_letters :
  exists top,
    Stats.top (@calculateStats Examples.plain_host
                 [VStr "a"; VStr "b"; VNull; VStr "a"] "category") = Some top
    /\ Stats.uniqueCount (@calculateStats Examples.plain_host
                            [VStr "a"; VStr "b"; VNull; VStr "a"] "category")
       = Some 2
    /\ List.length top = 2
    /\ NoDup (map fst top)
    /\ (forall k c, In (k, c) top ->
          In k ["a"; "b"; "a"]
          /\ c = Some (count_occ string_dec ["a"; "b"; "a"] k))
    /\ Sorted (fun a b => (count_number (snd b) <=? count_number (snd a))%float = true) top
    /\ (2 <= 10 ->
        forall k, In k ["a"; "b"; "a"] ->
                  In (k, Some (count_occ string_dec ["a"; "b"; "a"] k)) top).
Proof.
  apply (@calculateStats_frequencies Examples.plain_host
           [VStr "a"; VStr "b"; VNull; VStr "a"] "category").
  - left; reflexivity.
  - discriminate.
  - intros s [ <- | [ <- | [ <- | [] ] ] ]; reflexivity.
Defined.

End CategorySpec.

(** ** RecommendationEngine: ranking and validation *)

Module RankingSpec.
Import JS JSFacts RecommendationEngine RecommendationSpec ChartValidator.

(** A score that can be compared. *)
Definition scored (r : Rec.t) : Prop := is_nan (Rec.score r) = false.

Lemma distribution_scored (col : Column.t) : Forall scored (distribution col).
Proof.
  unfold distribution. destruct (exceeds _ 0); [ | constructor ].
  repeat constructor. unfold scored. cbn [Rec.score].
  destruct (exceeds _ 1000); reflexivity.
Qed.

Lemma comparison_scored (numericCols : list Column.t) (catCol : Column.t) :
  Forall scored (comparison numericCols catCol).
Proof.
  unfold comparison. destruct (count_exceeds _ 50); [ constructor | ].
  apply Forall_flat_map, Forall_forall. intros numCol _.
  destruct (_ && _); repeat constructor.
Qed.

Section WithHost.
Context {host : Host}.

Lemma correlated_scored (data : list row) (numericCols : list Column.t)
  (colA colB : Column.t) :
  Forall scored (correlated data numericCols colA colB).
Proof.
  unfold correlated.
  set (r := DataProcessor.calculateCorrelation _ _).
  destruct (0.3 <=? PrimFloat.abs r)%float eqn:E; [ | constructor ].
  apply Float64.leb_numbers in E. destruct E as [ _ E ].
  pose proof (Float64.abs_nonneg r (Float64.abs_number r E)) as Hr.
  assert (H30 : scored {| Rec.type := ""; Rec.xAxis := ""; Rec.yAxis := "";
                          Rec.sizeAxis := None; Rec.title := ""; Rec.description := "";
                          Rec.score := (70 + PrimFloat.abs r * 30)%float;
                          Rec.isHistogram := false |}).
  { unfold scored. cbn [Rec.score]. apply Float64.nonneg_number, Float64.add_nonneg.
    - now vm_compute.
    - refine (Float64.mul_nonneg _ 30%float _ _ _ Hr). vm_compute. reflexivity. }
  assert (H10 : scored {| Rec.type := ""; Rec.xAxis := ""; Rec.yAxis := "";
                          Rec.sizeAxis := None; Rec.title := ""; Rec.description := "";
                          Rec.score := (85 + PrimFloat.abs r * 10)%float;
                          Rec.isHistogram := false |}).
  { unfold scored. cbn [Rec.score]. apply Float64.nonneg_number, Float64.add_nonneg.
    - now vm_compute.
    - refine (Float64.mul_nonneg _ 10%float _ _ _ Hr). vm_compute. reflexivity. }
  constructor; [ exact H30 | ].
  destruct (find _ numericCols); constructor; [ exact H10 | constructor ].
Qed.

Lemma pairs_scored (data : list row) (numericCols cols : list Column.t) :
  Forall scored (pairs data numericCols cols).
Proof.
  induction cols as [ | colA rest IH ]; cbn [pairs]; [ constructor | ].
  apply Forall_app. split; [ | exact IH ].
  apply Forall_flat_map, Forall_forall. intros colB _. apply correlated_scored.
Qed.

Lemma candidates_scored (data : list row) (columns : list Column.t) :
  Forall scored (candidates data columns).
Proof.
  unfold candidates. repeat (apply Forall_app; split).
  - apply Forall_flat_map, Forall_forall. intros c _. apply distribution_scored.
  - destruct (filter isDate columns); [ constructor | ].
    destruct (0 <? _)%nat; [ | constructor ].
    apply Forall_map, Forall_forall. intros c _. reflexivity.
  - destruct (_ && _); [ | constructor ].
    apply Forall_flat_map, Forall_forall. intros c _. apply comparison_scored.
  - destruct (2 <=? _)%nat; [ apply pairs_scored | constructor ].
Qed.

Lemma descending_trans (a b c : Rec.t) :
  descending Rec.score a b -> descending Rec.score b c -> descending Rec.score a c.
Proof.
  unfold descending. intros H1 H2. now apply Float64.leb_trans with (Rec.score b).
Qed.

Lemma unique_strongly_sorted (R : Rec.t -> Rec.t -> Prop) (recs : list Rec.t) :
  StronglySorted R recs -> forall seen, StronglySorted R (unique seen recs).
Proof.
  induction 1 as [ | x recs Hs IH Hx ]; intros seen; cbn [unique]; [ constructor | ].
  destruct (existsb _ seen); [ apply IH | ].
  constructor; [ apply IH | ].
  apply Forall_forall. intros y Hy. apply unique_In in Hy.
  now apply (proj1 (Forall_forall _ _) Hx).
Qed.

Lemma unique_titles (recs : list Rec.t) :
  forall seen,
    NoDup (map Rec.title (unique seen recs))
    /\ forall r, In r (unique seen recs) -> ~ In (Rec.title r) seen.
Proof.
  induction recs as [ | x recs IH ]; intros seen; cbn [unique map].
  - split; [ constructor | intros r [] ].
  - destruct (existsb (String.eqb (Rec.title x)) seen) eqn:E; [ apply IH | ].
    destruct (IH (Rec.title x :: seen)) as [ I1 I2 ]. split.
    + cbn [map]. constructor; [ | exact I1 ].
      rewrite in_map_iff. intros (y & Hy & Hin).
      apply (I2 y Hin). left. now symmetry.
    + intros r [ <- | Hr ].
      * intros Hin. assert (X : existsb (String.eqb (Rec.title x)) seen = true).
        { apply existsb_exists. exists (Rec.title x). split; [ exact Hin | apply String.eqb_refl ]. }
        congruence.
      * intros Hin. apply (I2 r Hr). now right.
Qed.

(** What [getRecommendations] returns: at most four recommendations, with
    distinct titles, in descending order of their scores, none of which
    is NaN. *)
Theorem getRecommendations_ranked (data : list row) (columns : list Column.t) :
  List.length (getRecommendations data columns) <= 4
  /\ NoDup (map Rec.title (getRecommendations data columns))
  /\ Sorted (descending Rec.score) (getRecommendations data columns)
  /\ Forall scored (getRecommendations data columns).
Proof.
  unfold getRecommendations.
  set (sorted := sort _ (candidates data columns)).
  assert (Hsc : Forall scored sorted).
  { apply sort_Forall, candidates_scored. }
  split; [ | split; [ | split ] ].
  - rewrite length_firstn. lia.
  - rewrite <- firstn_map. apply firstn_NoDup, unique_titles.
  - apply firstn_sorted, StronglySorted_Sorted, unique_strongly_sorted.
    apply Sorted_StronglySorted; [ intros a b c; apply descending_trans | ].
    apply (sort_descending Rec.score). apply candidates_scored.
  - apply Forall_forall. intros r Hr. apply firstn_In, unique_In in Hr.
    now apply (proj1 (Forall_forall _ _) Hsc).
Qed.

(** Without a numeric column there is nothing to recommend. *)
Theorem getRecommendations_no_numeric (data : list row) (columns : list Column.t) :
  (forall c, In c columns -> Column.type c <> "number") ->
  getRecommendations data columns = [].
Proof.
  intros H.
  assert (E : filter isNumber columns = []).
  { apply filter_none, Forall_forall. intros c Hc. unfold isNumber. apply String.eqb_neq. now apply H. }
  unfold getRecommendations, candidates. rewrite E. cbn [flat_map List.length Nat.ltb Nat.leb map].
  rewrite andb_false_r.
  destruct (filter isDate columns); reflexivity.
Qed.

End WithHost.

(** A recommendation over two columns of the data set, the second one
    numeric, on which [validateChart] agrees: it accepts the chart, unless
    it is a histogram or a bubble chart, which it would turn into a scatter
    plot. *)
Definition agreed (columns : list Column.t) (r : Rec.t) : Prop :=
  exists xCol yCol,
    In xCol columns /\ In yCol columns
    /\ Column.key xCol = Rec.xAxis r /\ Column.key yCol = Rec.yAxis r
    /\ Column.type yCol = "number"
    /\ validateChart (Rec.type r) (Some xCol) (Some yCol)
       = if Rec.isHistogram r || String.eqb (Rec.type r) "bubble"
         then auto_fixed "Both axes are numeric. Switching to Scatter Plot." "scatter"
         else if String.eqb (Rec.type r) "bar" && (20 <? uniqueX xCol)%nat
         then warned ("High cardinality (" ++ JS.nat_to_string (uniqueX xCol)
                      ++ "). Will show Top 20 items.")
         else accepted.

Lemma isNumber_In (columns : list Column.t) (c : Column.t) :
  In c (filter isNumber columns) -> In c columns /\ Column.type c = "number".
Proof.
  intros H. apply filter_In in H. destruct H as [ H1 H2 ].
  split; [ exact H1 | now apply String.eqb_eq ].
Qed.

Lemma distribution_agreed (columns : list Column.t) (col : Column.t) :
  In col (filter isNumber columns) -> Forall (agreed columns) (distribution col).
Proof.
  intros H. apply isNumber_In in H. destruct H as [ Hin Ht ].
  unfold distribution. destruct (exceeds _ 0); [ | constructor ].
  repeat constructor. exists col, col. cbn [Rec.xAxis Rec.yAxis Rec.type Rec.isHistogram].
  repeat (split; [ first [ assumption | reflexivity ] | ]).
  unfold validateChart, isNumeric. rewrite Ht. reflexivity.
Qed.

Lemma trend_agreed (columns : list Column.t) (dateCol numCol : Column.t) :
  In dateCol (filter isDate columns) -> In numCol (filter isNumber columns) ->
  agreed columns (trend dateCol numCol).
Proof.
  intros Hd Hn. apply isNumber_In in Hn. destruct Hn as [ Hin Ht ].
  apply filter_In in Hd. destruct Hd as [ Hdin Hdt ]. apply String.eqb_eq in Hdt.
  exists dateCol, numCol. cbn [trend Rec.xAxis Rec.yAxis Rec.type Rec.isHistogram].
  repeat (split; [ first [ assumption | reflexivity ] | ]).
  unfold validateChart, isNumeric. rewrite Ht, Hdt. reflexivity.
Qed.

Lemma min_non_negative_hasNegatives (c : Column.t) :
  min_non_negative c = true -> hasNegatives c = false.
Proof.
  unfold min_non_negative, hasNegatives.
  destruct (Stats.min (Column.stats c)) as [ [ f | t ] | ]; [ | | reflexivity ];
    apply Float64.leb_not_ltb.
Qed.

Lemma comparison_agreed (columns : list Column.t) (catCol : Column.t) :
  In catCol (filter isCategory columns) ->
  Forall (agreed columns) (comparison (filter isNumber columns) catCol).
Proof.
  intros Hc. apply filter_In in Hc. destruct Hc as [ Hcin Hct ].
  assert (Hx : String.eqb (Column.type catCol) "number" = false).
  { unfold isCategory in Hct. apply orb_true_iff in Hct.
    destruct Hct as [ E | E ]; apply String.eqb_eq in E; rewrite E; reflexivity. }
  unfold comparison. destruct (count_exceeds _ 50); [ constructor | ].
  apply Forall_flat_map, Forall_forall. intros numCol Hn.
  apply isNumber_In in Hn. destruct Hn as [ Hin Ht ].
  assert (Hbar : agreed columns (bar catCol numCol)).
  { exists catCol, numCol. cbn [bar Rec.xAxis Rec.yAxis Rec.type Rec.isHistogram].
    repeat (split; [ first [ assumption | reflexivity ] | ]).
    unfold validateChart, isNumeric. rewrite Ht, Hx.
    cbn [andb orb negb String.eqb Ascii.eqb Bool.eqb].
    destruct (20 <? uniqueX catCol)%nat; reflexivity. }
  destruct (count_at_most _ 6 && min_non_negative numCol) eqn:P;
    [ | repeat constructor; exact Hbar ].
  apply andb_true_iff in P. destruct P as [ P1 P2 ].
  constructor; [ | repeat constructor; exact Hbar ].
  exists catCol, numCol. cbn [pie Rec.xAxis Rec.yAxis Rec.type Rec.isHistogram].
  repeat (split; [ first [ assumption | reflexivity ] | ]).
  unfold validateChart, isNumeric. rewrite Ht, Hx.
  rewrite (min_non_negative_hasNegatives numCol P2).
  cbn [andb orb negb String.eqb Ascii.eqb Bool.eqb].
  unfold count_at_most in P1. unfold uniqueX.
  destruct (Stats.uniqueCount (Column.stats catCol)) as [ n | ]; [ | discriminate P1 ].
  apply Nat.leb_le in P1.
  destruct (Nat.ltb_spec 6 n); [ lia | reflexivity ].
Qed.

Section WithHost.
Context {host : Host}.

Lemma correlated_agreed (data : list row) (columns : list Column.t)
  (colA colB : Column.t) :
  In colA (filter isNumber columns) -> In colB (filter isNumber columns) ->
  Forall (agreed columns)
    (correlated data (filter isNumber columns) colA colB).
Proof.
  intros Ha Hb. apply isNumber_In in Ha, Hb.
  destruct Ha as [ Hain Hat ], Hb as [ Hbin Hbt ].
  unfold correlated. destruct (0.3 <=? _)%float; [ | constructor ].
  constructor.
  - exists colA, colB. cbn [Rec.xAxis Rec.yAxis Rec.type Rec.isHistogram].
    repeat (split; [ first [ assumption | reflexivity ] | ]).
    unfold validateChart, isNumeric. rewrite Hat, Hbt. reflexivity.
  - destruct (find _ _); constructor; [ | constructor ].
    exists colA, colB. cbn [Rec.xAxis Rec.yAxis Rec.type Rec.isHistogram].
    repeat (split; [ first [ assumption | reflexivity ] | ]).
    unfold validateChart, isNumeric. rewrite Hat, Hbt. reflexivity.
Qed.

Lemma pairs_agreed (data : list row) (columns cols : list Column.t) :
  incl cols (filter isNumber columns) ->
  Forall (agreed columns) (pairs data (filter isNumber columns) cols).
Proof.
  induction cols as [ | colA rest IH ]; intros Hincl; cbn [pairs]; [ constructor | ].
  apply Forall_app. split.
  - apply Forall_flat_map, Forall_forall. intros colB HB.
    apply correlated_agreed; apply Hincl; [ now left | now right ].
  - apply IH. intros c Hc. apply Hincl. now right.
Qed.

(** Every chart that [getRecommendations] returns is drawn over two
    columns of the data set, the y column a numeric one, and
    [validateChart] accepts it for them (with the high-cardinality warning
    for a bar chart over more than twenty categories), with two
    exceptions: the histograms, bar charts of a numeric column against
    itself, and the bubble charts are charts it corrects into a scatter
    plot. *)
Theorem getRecommendations_validated (data : list row) (columns : list Column.t) :
  Forall (agreed columns) (getRecommendations data columns).
Proof.
  apply Forall_forall. intros r Hr. apply getRecommendations_In in Hr.
  revert r Hr. apply Forall_forall.
  unfold candidates. repeat (apply Forall_app; split).
  - apply Forall_flat_map, Forall_forall. intros c Hc. now apply distribution_agreed.
  - destruct (filter isDate columns) as [ | dateCol dates ] eqn:D; [ constructor | ].
    destruct (0 <? _)%nat; [ | constructor ].
    apply Forall_map, Forall_forall. intros c Hc. apply trend_agreed; [ | exact Hc ].
    rewrite D. now left.
  - destruct (_ && _); [ | constructor ].
    apply Forall_flat_map, Forall_forall. intros c Hc. now apply comparison_agreed.
  - destruct (2 <=? _)%nat; [ | constructor ].
    apply pairs_agreed. apply incl_refl.
Qed.

End WithHost.

(** A category column and a date column, no number: nothing is
    recommended. *)
Lemma getRecommendations_no_numeric_region_day :
  @getRecommendations Examples.plain_host Examples.region_sales
    [Examples.category 3; Examples.day] = [].
Proof.
  apply (@getRecommendations_no_numeric Examples.plain_host).
  intros c [ <- | [ <- | [] ] ]; discriminate.
Defined.

End RankingSpec.

(** ** DataProcessor: [processData] *)

Module IngestSpec.
Import JS JSFacts DataProcessor Ingest.

Section WithReader.
Context {host : Host} {reader : Reader}.

(** A cell as [parseValue] leaves it in a column of the given type. *)
Definition cleaned (type : string) (v : value) : Prop :=
  v <> VUndefined /\ v <> VStr ""
  /\ (type = "number" -> v = VNull \/ exists f, v = VNum f)
  /\ (type = "date" -> v = VNull \/ exists t, v = VDate t /\ is_nan t = false).

Lemma parseValue_blank (val : value) (type : string) :
  blank val = true -> parseValue val type = VNull.
Proof. unfold parseValue. now intros ->. Qed.

Lemma parseValue_cleaned_cell (val : value) (type : string) :
  cleaned type (parseValue val type).
Proof.
  unfold cleaned, parseValue.
  destruct (blank val) eqn:B.
  { repeat split; try discriminate; intros _; now left. }
  destruct (String.eqb_spec type "number") as [ -> | Hn ].
  { destruct val as [ | | f | s | t ]; try discriminate B;
      try (destruct (is_nan (parseFloat _)));
      repeat split; try discriminate; intros _; eauto. }
  destruct (String.eqb_spec type "date") as [ -> | Hd ].
  { destruct (is_nan (new_Date val)) eqn:N;
      repeat split; try discriminate; intros _; eauto. }
  destruct val as [ | | f | s | t ]; try discriminate B;
    repeat split; try discriminate; try contradiction.
  cbn [blank] in B. intros [= ->]. discriminate B.
Qed.

(** [parseValue] never leaves [undefined] or the empty string: an empty
    cell becomes [null]. In a number column it leaves [null] or a number,
    a number that is NaN only if the raw cell was that number; in a date
    column [null] or a valid [Date]; in another column the raw cell
    itself. *)
Theorem parseValue_cleans (val : value) (type : string) :
  parseValue val type <> VUndefined
  /\ parseValue val type <> VStr ""
  /\ (blank val = true -> parseValue val type = VNull)
  /\ (type = "number" ->
      parseValue val type = VNull
      \/ exists f, parseValue val type = VNum f
                   /\ (is_nan f = true -> val = VNum f))
  /\ (type = "date" ->
      parseValue val type = VNull
      \/ exists t, parseValue val type = VDate t /\ is_nan t = false)
  /\ (type <> "number" -> type <> "date" -> blank val = false ->
      parseValue val type = val).
Proof.
  destruct (parseValue_cleaned_cell val type) as (H1 & H2 & H3 & H4).
  split; [ exact H1 | ]. split; [ exact H2 | ].
  split; [ apply parseValue_blank | ]. split; [ | split; [ exact H4 | ] ].
  - intros ->. unfold parseValue. destruct (blank val) eqn:B; [ now left | ].
    cbn [String.eqb Ascii.eqb Bool.eqb].
    destruct val as [ | | f | s | t ]; try discriminate B.
    + right. exists f. auto.
    + destruct (is_nan (parseFloat _)) eqn:N; [ now left | right ].
      eexists. split; [ reflexivity | ]. congruence.
    + destruct (is_nan (parseFloat _)) eqn:N; [ now left | right ].
      eexists. split; [ reflexivity | ]. congruence.
  - intros Hn Hd B. unfold parseValue. rewrite B.
    apply String.eqb_neq in Hn, Hd. now rewrite Hn, Hd.
Qed.


(** The loop over the sample cells, counter by counter. *)
Definition present (val : value) : bool := negb (blank val).

Lemma fold_analyze_cell (cells : list value) :
  forall t,
    let t' := fold_left analyze_cell cells t in
    validCount t' = validCount t + List.length (filter present cells)
    /\ numericCount t'
       = numericCount t + List.length (filter isNumeric (filter present cells))
    /\ dateCount t' = dateCount t + List.length (filter isDate (filter present cells))
    /\ uniqueValues t' = fold_left add_value (filter present cells) (uniqueValues t).
Proof.
  induction cells as [ | v cells IH ]; intros t; cbn [fold_left filter].
  - cbn. repeat split; lia.
  - destruct (IH (analyze_cell t v)) as (I1 & I2 & I3 & I4).
    cbv zeta. rewrite I1, I2, I3, I4. clear IH I1 I2 I3 I4.
    unfold analyze_cell, present. destruct (blank v); cbn [negb].
    + repeat split; reflexivity.
    + cbn [validCount numericCount dateCount uniqueValues filter fold_left List.length].
      destruct (isNumeric v), (isDate v); cbn [List.length]; repeat split; lia.
Qed.

Lemma add_value_length (l u : list value) :
  List.length (fold_left add_value l u) <= List.length u + List.length l.
Proof.
  revert u. induction l as [ | v l IH ]; intros u; cbn [fold_left List.length]; [ lia | ].
  specialize (IH (add_value u v)). unfold add_value in *.
  destruct (existsb _ u); [ lia | ]. rewrite length_app in IH. cbn in IH. lia.
Qed.

Lemma firstn_min {A : Type} (n : nat) (l : list A) :
  firstn (Nat.min (List.length l) n) l = firstn n l.
Proof.
  destruct (Nat.le_ge_cases (List.length l) n) as [ H | H ].
  - rewrite Nat.min_l by exact H. now rewrite !firstn_all2 by lia.
  - now rewrite Nat.min_r by exact H.
Qed.

End WithReader.

(** The comparisons of the ratios with 0.8 and 0.2 are exact on a sample of
    at most 500 cells: checked on every pair of counts. *)
Definition pair_checked (b a : nat) : bool :=
  Bool.eqb (0.8 <? num_of_nat a / num_of_nat b)%float (4 * b <? 5 * a)%nat
  && Bool.eqb (num_of_nat a / num_of_nat b <? 0.2)%float (5 * a <? b)%nat.

Definition row_checked (b : nat) : bool := forallb (pair_checked b) (seq 0 (S b)).

Lemma ratios_checked : forallb row_checked (seq 1 500) = true.
Proof. vm_compute. reflexivity. Qed.

Lemma forallb_seq (f : nat -> bool) (start len x : nat) :
  forallb f (seq start len) = true -> start <= x < start + len -> f x = true.
Proof.
  intros H Hx. apply (proj1 (forallb_forall f (seq start len)) H). apply in_seq. exact Hx.
Qed.

Lemma ratio_exact (a b : nat) :
  1 <= b <= 500 -> a <= b ->
  (0.8 <? num_of_nat a / num_of_nat b)%float = (4 * b <? 5 * a)%nat
  /\ (num_of_nat a / num_of_nat b <? 0.2)%float = (5 * a <? b)%nat.
Proof.
  intros Hb Ha.
  pose proof (forallb_seq row_checked 1 500 b ratios_checked ltac:(lia)) as H.
  pose proof (forallb_seq (pair_checked b) 0 (S b) a H ltac:(lia)) as H'.
  unfold pair_checked in H'. apply andb_true_iff in H'. destruct H' as [ H1 H2 ].
  apply eqb_prop in H1. apply eqb_prop in H2. split; assumption.
Qed.

Section WithReader.
Context {host : Host} {reader : Reader}.

(** A column name that is not a name every object inherits: a row
    without such a cell reads [undefined], and an assignment creates the
    cell. *)
Definition plain (key : string) : Prop := inherited key = false.

(** The cells that [analyzeColumnType] counts: those of the first 500 rows
    that are not empty. *)
Definition sampled (data : list row) (key : string) : list value :=
  filter present (map (fun r => cell r key) (firstn 500 data)).

(** The type that [analyzeColumnType] infers, in terms of the cells it
    counts. A column is a number column exactly when more than 80% of
    them are numeric, else a date column exactly when more than 80% are
    dates, else a category when they hold at most 20 distinct values, or
    fewer than 50 that are less than 20% of the cells; it is text
    otherwise, and when no cell is counted. Only the first 500 rows are
    looked at. *)
Theorem analyzeColumnType_type (data : list row) (key : string) :
  plain key ->
  let cells := sampled data key in
  let valid := List.length cells in
  let numeric := List.length (filter isNumeric cells) in
  let dates := List.length (filter isDate cells) in
  let distinct := List.length (fold_left add_value cells []) in
  Ingest.key (analyzeColumnType data key) = key
  /\ label (analyzeColumnType data key) = formatLabel key
  /\ type (analyzeColumnType data key)
     = (if (valid =? 0)%nat then "text"
        else if (4 * valid <? 5 * numeric)%nat then "number"
        else if (4 * valid <? 5 * dates)%nat then "date"
        else if (distinct <=? 20)%nat
                || ((5 * distinct <? valid)%nat && (distinct <? 50)%nat)
        then "category"
        else "text")
  /\ analyzeColumnType (firstn 500 data) key = analyzeColumnType data key.
Proof.
  intros _ cells valid numeric dates distinct.
  assert (E : forall d, firstn 500 d = firstn 500 data ->
                analyzeColumnType d key
                = if (valid =? 0)%nat
                  then {| Ingest.key := key; type := "text"; label := formatLabel key |}
                  else {| Ingest.key := key;
                          type := (if (4 * valid <? 5 * numeric)%nat then "number"
                                   else if (4 * valid <? 5 * dates)%nat then "date"
                                   else if (distinct <=? 20)%nat
                                           || ((5 * distinct <? valid)%nat
                                               && (distinct <? 50)%nat)
                                   then "category"
                                   else "text");
                          label := formatLabel key |}).
  { intros d Hd. unfold analyzeColumnType. rewrite firstn_min, Hd.
    set (t0 := {| numericCount := 0; dateCount := 0; validCount := 0;
                  uniqueValues := [] |}).
    destruct (fold_analyze_cell (map (fun r => cell r key) (firstn 500 data)) t0)
      as (V & N & D & U).
    fold (sampled data key) in V, N, D, U. fold cells in V, N, D, U.
    cbn [t0 validCount numericCount dateCount uniqueValues plus] in V, N, D, U.
    rewrite V, N, D, U. fold valid numeric dates distinct.
    destruct (Nat.eqb_spec valid 0) as [ Z | Z ]; [ reflexivity | ].
    assert (Hv : valid <= 500).
    { unfold valid, cells, sampled.
      etransitivity; [ apply filter_length_le | ].
      rewrite length_map, length_firstn. lia. }
    assert (Hn : numeric <= valid) by apply filter_length_le.
    assert (Hd' : dates <= valid) by apply filter_length_le.
    assert (Hu : distinct <= valid).
    { unfold distinct, valid. pose proof (add_value_length cells []) as L.
      cbn [List.length plus] in L. exact L. }
    destruct (ratio_exact numeric valid ltac:(lia) Hn) as [ -> _ ].
    destruct (ratio_exact dates valid ltac:(lia) Hd') as [ -> _ ].
    destruct (ratio_exact distinct valid ltac:(lia) Hu) as [ _ -> ].
    reflexivity. }
  rewrite (E data eq_refl).
  rewrite (E (firstn 500 data)) by (apply firstn_firstn).
  destruct (valid =? 0)%nat; cbn [Ingest.key type label]; auto.
Qed.

Lemma analyzeColumnType_key (data : list row) (k : string) :
  key (analyzeColumnType data k) = k.
Proof.
  unfold analyzeColumnType. destruct (_ =? 0)%nat; reflexivity.
Qed.



(** The cells of a cleaned row. *)
Lemma clean_own_get (data : list row) (r : row) (ks : list string) :
  forall (acc : row) (k : string),
    own_get
      (fold_left
         (fun newRow meta =>
            obj_set newRow (key meta) (parseValue (cell r (key meta)) (type meta)))
         (map (analyzeColumnType data) ks) acc) k
    = if in_dec string_dec k ks
      then Some (parseValue (cell r k) (type (analyzeColumnType data k)))
      else own_get acc k.
Proof.
  induction ks as [ | k0 ks IH ]; intros acc k; cbn [map fold_left]; [ reflexivity | ].
  rewrite IH, analyzeColumnType_key.
  destruct (in_dec string_dec k ks) as [ i | n ];
    destruct (in_dec string_dec k (k0 :: ks)) as [ i' | n' ];
    try reflexivity.
  - exfalso. apply n'. now right.
  - destruct i' as [ -> | i' ]; [ | contradiction ].
    now rewrite own_get_obj_set_same.
  - rewrite own_get_obj_set_other; [ reflexivity | ].
    intros ->. apply n'. now left.
Qed.

Lemma clean_cell (data : list row) (r : row) (ks : list string) (k : string) :
  In k ks ->
  cell (clean (map (analyzeColumnType data) ks) r) k
  = parseValue (cell r k) (type (analyzeColumnType data k)).
Proof.
  intros Hk. unfold cell at 1, clean. rewrite clean_own_get.
  destruct (in_dec string_dec k ks); [ reflexivity | contradiction ].
Qed.



(** The cells of what [processData] returns, for column names that are
    not names every object inherits: the cell of a cleaned row is the cell
    of the raw row as [parseValue] reads it for the type of the column.
    Hence no cleaned cell is [undefined] or the empty string; a number
    column holds [null] and numbers only, a date column [null] and valid
    dates only. *)
Theorem processData_cells (first : row) (rest : list row) (p : Processed) :
  processData (Some (first :: rest)) = Some p ->
  Forall plain (Object_keys first) ->
  forall c, In c (columns p) ->
    Forall2 (fun raw r =>
               cell r (Column.key c)
               = parseValue (cell raw (Column.key c)) (Column.type c))
      (first :: rest) (data p)
    /\ Forall (fun r => cleaned (Column.type c) (cell r (Column.key c))) (data p).
Proof.
  intros [= <-] _ c Hc. cbn [columns data] in *.
  apply in_map_iff in Hc. destruct Hc as (meta & <- & Hm).
  apply in_map_iff in Hm. destruct Hm as (k & <- & Hk).
  cbn [processData_column Column.key Column.type].
  rewrite analyzeColumnType_key.
  set (metas := map (analyzeColumnType (first :: rest)) (Object_keys first)).
  split.
  - assert (G : forall l,
               Forall2 (fun raw r =>
                          cell r k = parseValue (cell raw k)
                                       (type (analyzeColumnType (first :: rest) k)))
                 l (map (clean metas) l)).
    { induction l as [ | raw l IH ]; cbn [map]; constructor; [ | exact IH ].
      unfold metas. now apply clean_cell. }
    apply G.
  - change (clean metas first :: map (clean metas) rest)
      with (map (clean metas) (first :: rest)).
    apply Forall_forall. intros r Hr. apply in_map_iff in Hr.
    destruct Hr as (raw & <- & _). unfold metas. rewrite clean_cell by exact Hk.
    apply parseValue_cleaned_cell.
Qed.

End WithReader.

(** The column [sales] of the three rows of [region_sales]: three numbers
    out of three. *)
Lemma analyzeColumnType_type_sales :
  Ingest.key (analyzeColumnType (reader := Examples.plain_reader)
                Examples.region_sales "sales") = "sales"
  /\ label (analyzeColumnType (reader := Examples.plain_reader)
              Examples.region_sales "sales")
     = formatLabel (reader := Examples.plain_reader) "sales"
  /\ type (analyzeColumnType (reader := Examples.plain_reader)
             Examples.region_sales "sales") = "number"
  /\ analyzeColumnType (reader := Examples.plain_reader)
       (firstn 500 Examples.region_sales) "sales"
     = analyzeColumnType (reader := Examples.plain_reader) Examples.region_sales "sales".
Proof.
  apply (analyzeColumnType_type (reader := Examples.plain_reader)
           Examples.region_sales "sales").
  reflexivity.
Defined.

(** The column [sales] of [region_sales] once processed: the three
    numbers, unchanged. *)
Lemma processData_cells_sales :
  Forall2 (fun raw r =>
             cell r "sales"
             = parseValue (host := Examples.plain_host) (reader := Examples.plain_reader)
                 (cell raw "sales") "number")
    Examples.region_sales (data Examples.processed)
  /\ Forall (fun r => cleaned "number" (cell r "sales")) (data Examples.processed).
Proof.
  refine (processData_cells (host := Examples.plain_host)
           (reader := Examples.plain_reader)
           [("region", VStr "A"); ("sales", VNum 10)]
           [ [("region", VStr "B"); ("sales", VNum 20)];
             [("region", VStr "A"); ("sales", VNum 30)] ]
           Examples.processed _ _
           (nth 1 (columns Examples.processed) Examples.sales) _).
  - reflexivity.
  - repeat constructor.
  - right. left. reflexivity.
Defined.

End IngestSpec.

(** ** ManualExplorer: the rows to draw *)

Module PreparedDataSpec.
Import JS JSFacts ChartValidator DataProcessor ManualExplorer.

Section WithHost.
Context {host : Host}.

Lemma aggregateData_limit_length (data : list row) (g m method : string) (l : Z)
  (out : list row) :
  aggregateData data g m method (Some l) = Returns out ->
  (0 < l)%Z -> (Z.of_nat (List.length out) <= l)%Z.
Proof.
  intros Hout Hl.
  destruct (AggregateSpec.aggregateData_grouped _ _ _ _ _ _ Hout) as [ groups Hg ].
  rewrite (AggregateSpec.aggregateData_unfold g m data method (Some l) groups Hg) in Hout.
  injection Hout as <-.
  destruct ((0 <? l) && (l <? _))%Z eqn:E.
  - rewrite length_firstn. lia.
  - apply andb_false_iff in E. destruct E as [ E | E ]; lia.
Qed.

(** The keys of [counts] hold every string counted, [__proto__] apart. *)
Lemma tally_keys (counts : obj (option nat)) (k x : string) :
  In x (keys counts) \/ (x = k /\ x <> "__proto__") -> In x (keys (tally counts k)).
Proof.
  unfold tally. intros H.
  assert (S : forall v, In x (keys (obj_set counts k v))).
  { intros v. rewrite keys_obj_set.
    destruct (in_dec string_dec k (keys counts)) as [ i | n ].
    - destruct H as [ H | [ -> _ ] ]; assumption.
    - apply in_or_app. destruct H as [ H | [ -> _ ] ]; [ now left | right; now left ]. }
  destruct (own_get counts k) as [ [ n | ] | ] eqn:G; try apply S.
  destruct (String.eqb_spec k "__proto__") as [ -> | Hk ].
  - destruct H as [ H | [ -> Hx ] ]; [ exact H | congruence ].
  - destruct (inherited k); apply S.
Qed.

Lemma fold_tally_keys (strs : list string) :
  forall (counts : obj (option nat)) (x : string),
    In x (keys counts) \/ (In x strs /\ x <> "__proto__") ->
    In x (keys (fold_left tally strs counts)).
Proof.
  induction strs as [ | s strs IH ]; intros counts x H; cbn [fold_left].
  - destruct H as [ H | [ [] _ ] ]. exact H.
  - apply IH. destruct H as [ H | [ [ -> | H ] Hx ] ].
    + left. apply tally_keys. now left.
    + left. apply tally_keys. now right.
    + right. now split.
Qed.

(** The number of groups is at most the number of distinct values that
    [calculateStats] counts in the group column of the same rows. *)
Lemma groups_uniqueCount (data : list row) (g m method type : string) (out : list row) :
  type = "category" \/ type = "text" ->
  aggregateData data g m method None = Returns out ->
  match Stats.uniqueCount (calculateStats (map (fun r => cell r g) data) type) with
  | Some n => List.length out <= n
  | None => out = []
  end.
Proof.
  intros Ht Hout.
  destruct (AggregateSpec.aggregateData_grouped _ _ _ _ _ _ Hout) as [ groups Hg ].
  rewrite (AggregateSpec.aggregateData_unfold g m data method None groups Hg) in Hout.
  injection Hout as <-.
  destruct (AggregateSpec.fold_group_row_keys g m data [] groups Hg) as [ Hnd Hkeys ].
  pose proof (GroupingSpec.fold_group_row_own g m data [] groups
                (fun k (F : In k []) => match F with end) Hg) as Hown.
  set (valid := filter (fun v => negb (nullish v)) (map (fun r => cell r g) data)).
  set (counts := fold_left (fun c v => tally c (to_string v)) valid []).
  assert (Hin : forall k, In k (keys groups) -> In k (keys counts)).
  { intros k Hk. unfold counts. rewrite (CategorySpec.fold_left_map tally to_string).
    apply fold_tally_keys. right.
    destruct (Hkeys k Hk) as [ [] | (r & Hr & [ Hg1 _ ] & ->) ]. split.
    - apply in_map. unfold valid. apply filter_In. split.
      + now apply (in_map (fun r => cell r g)).
      + now rewrite Hg1.
    - intros E. specialize (Hown _ Hk). rewrite E in Hown. discriminate Hown. }
  assert (Hlen : List.length
                   (sort (fun a b => (metric m b - metric m a)%float)
                      (summarised groups g m method))
                 = List.length (keys groups)).
  { now rewrite sort_length, AggregateSpec.summarised_length. }
  unfold calculateStats. fold valid.
  destruct (Nat.eqb_spec (List.length valid) 0) as [ Z | Z ].
  - cbn [Stats.empty Stats.uniqueCount].
    assert (E : keys groups = []).
    { destruct (keys groups) as [ | k ks ] eqn:K; [ reflexivity | exfalso ].
      specialize (Hin k (or_introl eq_refl)). unfold counts in Hin.
      destruct valid; [ destruct Hin | discriminate Z ]. }
    rewrite E in Hlen. now apply length_zero_iff_nil.
  - destruct Ht as [ -> | -> ]; cbn [String.eqb Ascii.eqb Bool.eqb orb Stats.uniqueCount];
      fold counts; rewrite Hlen, sort_length, (Permutation_length (entries_perm counts));
      rewrite <- (length_map fst counts);
      (apply NoDup_incl_length; [ apply Hnd; constructor | exact Hin ]).
Qed.


(** A scatter plot draws all the rows when there are at most 1000 of
    them, and otherwise 500 of them, taken at 500 distinct places: never
    more than 1000 points. *)
Theorem preparedData_scatter (data : list row) (columns : list Column.t)
  (config : Config) (draws : list nat) (rows : list row) :
  type config = "scatter" ->
  Forall (fun i => i < List.length data) draws ->
  preparedData data columns config draws = Done (Returns (Some rows)) ->
  List.length rows <= 1000
  /\ (List.length data <= 1000 -> rows = data)
  /\ (1000 < List.length data ->
      List.length rows = 500
      /\ exists indices,
           NoDup indices
           /\ Forall (fun i => i < List.length data) indices
           /\ rows = map (fun i => nth i data []) indices).
Proof.
  intros Ht Hd. unfold preparedData. rewrite Ht.
  destruct (find_column columns (xAxis config)) as [ x | ]; [ | intros F; cbv beta iota zeta in F; discriminate F ].
  destruct (find_column columns (yAxis config)) as [ y | ]; [ | intros F; cbv beta iota zeta in F; discriminate F ].
  destruct (negb _ && is_block _); [ intros F; discriminate F | ].
  cbn [String.eqb Ascii.eqb Bool.eqb].
  destruct (Nat.ltb_spec 1000 (List.length data)) as [ L | L ].
  - unfold sampleData. cbv beta iota zeta.
    destruct (_ <=? 500)%nat eqn:E; [ apply Nat.leb_le in E; lia | ].
    destruct (draw 500 [] draws) as [ indices | ] eqn:Hi;
      [ | intros F; cbv beta iota in F; discriminate F ].
    intros [= <-].
    destruct (SampleSpec.draw_inv 500 (fun i => i < List.length data) draws [] indices Hi)
      as (H1 & H2 & H3); [ constructor | constructor | exact Hd | cbn; lia | ].
    rewrite length_map, H3. split; [ lia | ]. split; [ lia | ].
    intros _. split; [ reflexivity | ]. exists indices. auto.
  - intros [= <-]. split; [ exact L | ]. split; [ reflexivity | lia ].
Qed.

(** A pie or doughnut chart that [validateChart] accepts, with an
    aggregation chosen, draws at most 6 slices. *)
Theorem preparedData_pie (data : list row) (columns : list Column.t)
  (config : Config) (draws : list nat) (rows : list row) :
  type config = "pie" \/ type config = "doughnut" ->
  aggregation config <> "" ->
  valid (validateChart (type config) (find_column columns (xAxis config))
           (find_column columns (yAxis config))) = true ->
  preparedData data columns config draws = Done (Returns (Some rows)) ->
  List.length rows <= 6.
Proof.
  intros Ht Ha Hv. unfold preparedData.
  destruct (find_column columns (xAxis config)) as [ x | ]; [ | intros F; cbv beta iota zeta in F; discriminate F ].
  destruct (find_column columns (yAxis config)) as [ y | ]; [ | intros F; cbv beta iota zeta in F; discriminate F ].
  rewrite Hv. cbn [negb andb].
  assert (Hx : String.eqb (Column.type x) "number" = false).
  { unfold validateChart, isNumeric in Hv.
    destruct (String.eqb (Column.type x) "number"); [ | reflexivity ].
    destruct (String.eqb (Column.type y) "number");
      destruct Ht as [ E | E ]; rewrite E in Hv; discriminate Hv. }
  apply String.eqb_neq in Ha. rewrite Ha, Hx. cbn [negb andb].
  destruct Ht as [ E | E ]; rewrite E; cbn [String.eqb Ascii.eqb Bool.eqb orb andb];
    destruct (aggregateData _ _ _ _ _) as [ out | e ] eqn:A; try (intros F; discriminate F);
    intros [= <-]; apply aggregateData_limit_length in A; lia.
Qed.

(** A bar chart over a category or text column that has the statistics
    of its cells in these rows, with an aggregation chosen, draws at most
    20 bars. *)
Theorem preparedData_bar (data : list row) (columns : list Column.t)
  (config : Config) (draws : list nat) (rows : list row) (xCol : Column.t) :
  type config = "bar" ->
  aggregation config <> "" ->
  find_column columns (xAxis config) = Some xCol ->
  Column.type xCol = "category" \/ Column.type xCol = "text" ->
  Column.stats xCol
  = calculateStats (map (fun r => cell r (xAxis config)) data) (Column.type xCol) ->
  preparedData data columns config draws = Done (Returns (Some rows)) ->
  List.length rows <= 20.
Proof.
  intros Ht Ha Hx Hc Hs. unfold preparedData. rewrite Hx, Ht.
  destruct (find_column columns (yAxis config)) as [ y | ]; [ | intros F; cbv beta iota zeta in F; discriminate F ].
  destruct (negb _ && is_block _); [ intros F; discriminate F | ].
  apply String.eqb_neq in Ha. rewrite Ha.
  assert (Hn : String.eqb (Column.type xCol) "number" = false).
  { destruct Hc as [ -> | -> ]; reflexivity. }
  rewrite Hn. cbn [String.eqb Ascii.eqb Bool.eqb orb andb negb].
  destruct (many_values xCol) eqn:M;
    destruct (aggregateData _ _ _ _ _) as [ out | e ] eqn:A; try (intros F; discriminate F);
    intros [= <-].
  - apply aggregateData_limit_length in A; lia.
  - pose proof (groups_uniqueCount data _ _ _ _ out Hc A) as G.
    rewrite <- Hs in G. unfold many_values in M.
    destruct (Stats.uniqueCount (Column.stats xCol)) as [ n | ].
    + apply Nat.ltb_ge in M. lia.
    + subst out. cbn. lia.
Qed.

End WithHost.

(** A scatter plot of 1001 rows, the draws being the indices 0 to 499:
    500 rows are drawn. *)
Lemma preparedData_scatter_sampled :
  List.length (repeat [("price", VNum 1); ("sales", VNum 2)] 500) <= 1000
  /\ (List.length (repeat [("price", VNum 1); ("sales", VNum 2)] 1001) <= 1000 ->
      repeat [("price", VNum 1); ("sales", VNum 2)] 500
      = repeat [("price", VNum 1); ("sales", VNum 2)] 1001)
  /\ (1000 < List.length (repeat [("price", VNum 1); ("sales", VNum 2)] 1001) ->
      List.length (repeat [("price", VNum 1); ("sales", VNum 2)] 500) = 500
      /\ exists indices,
           NoDup indices
           /\ Forall (fun i => i < List.length
                                    (repeat [("price", VNum 1); ("sales", VNum 2)] 1001))
                indices
           /\ repeat [("price", VNum 1); ("sales", VNum 2)] 500
              = map (fun i => nth i (repeat [("price", VNum 1); ("sales", VNum 2)] 1001) [])
                  indices).
Proof.
  apply (preparedData_scatter (host := Examples.plain_host)
           (repeat [("price", VNum 1); ("sales", VNum 2)] 1001)
           [Examples.numeric "price" 30; Examples.sales]
           {| type := "scatter"; xAxis := "price"; yAxis := "sales";
              aggregation := "mean" |}
           (seq 0 500)).
  - reflexivity.
  - apply Forall_forall. intros i Hi. apply in_seq in Hi.
    rewrite repeat_length. lia.
  - vm_compute. reflexivity.
Defined.

(** The pie chart of the sum of [sales] by [region]: two slices. *)
Lemma preparedData_pie_region_sales :
  List.length [ [("region", VStr "A"); ("sales", VNum 40)];
                [("region", VStr "B"); ("sales", VNum 20)] ] <= 6.
Proof.
  apply (preparedData_pie (host := Examples.plain_host) Examples.region_sales
           [Examples.regions; Examples.sales]
           {| type := "pie"; xAxis := "region"; yAxis := "sales"; aggregation := "sum" |}
           []).
  - left. reflexivity.
  - discriminate.
  - reflexivity.
  - reflexivity.
Defined.

(** The bar chart of the sum of [sales] by [region]: two bars. *)
Lemma preparedData_bar_region_sales :
  List.length [ [("region", VStr "A"); ("sales", VNum 40)];
                [("region", VStr "B"); ("sales", VNum 20)] ] <= 20.
Proof.
  apply (preparedData_bar (host := Examples.plain_host) Examples.region_sales
           [Examples.regions; Examples.sales]
           {| type := "bar"; xAxis := "region"; yAxis := "sales"; aggregation := "sum" |}
           [] _ Examples.regions).
  - reflexivity.
  - discriminate.
  - reflexivity.
  - left. reflexivity.
  - reflexivity.
  - reflexivity.
Defined.

End PreparedDataSpec.
